(** * Wolf: a shallow embedding of the Werewolf game engine

    The development follows the Python sources of the engine:
    [wolf/engine/phase.py], [actions.py], [events.py], [state.py],
    [resolver.py], [victory.py], [game.py], [moderator.py], the role
    registry of [wolf/roles] and the text layer of
    [wolf/agents/briefing_builder.py]; and, around the engine, the game
    loop and the seating of [wolf/session/runner.py], the action tools of
    [wolf/agents/tool_factory.py] and [toolkit.py], and the channels of
    [wolf/comms].

    Conventions of the embedding.
    - Python [str] is [string]; Python [int] is [Z] for the day counter and
      the ability priorities, and [nat] for lengths and vote counts.
    - A Python [dict] keeps insertion order, and the engine iterates over
      its dicts, so a dict is an association list with at most one entry
      per key ([dict_set] overwrites in place or appends).
    - A Python [set] of strings iterates in an order fixed by the string
      hashes of the running interpreter; the order is abstracted by a
      ranking [str_hash : string -> Z] handed to the functions that turn a
      set into a list.
    - [random.choice] receives the integer it draws as an explicit
      argument, and [random.shuffle] the stream of its draws.
    - A raised exception is a value [Raise e] of the [result] type.
    - The agents, their knowledge bases and the event listeners are
      outside the engine: what an agent answers and the summary of its
      knowledge base are inputs, and listeners are not modelled.

    The definitions come first, in the order of the sources; the lemmas
    and the theorems on the specification follow. *)

From Stdlib Require Import List String Ascii ZArith Arith Bool Lia Permutation.
From Stdlib Require Import DecimalString.
From Stdlib Require DecimalPos DecimalZ.
Import ListNotations.

Local Open Scope string_scope.
Local Open Scope list_scope.

(* ================================================================== *)
(** * Python runtime: exceptions, dicts, sets, sorting, counters        *)
(* ================================================================== *)

Inductive exn : Type :=
| KeyError (key : string)
| IndexError
| ValueError (message : string).

Inductive result (A : Type) : Type :=
| Ok (a : A)
| Raise (e : exn).

Arguments Ok {A} a.
Arguments Raise {A} e.

Definition bind {A B : Type} (m : result A) (k : A -> result B) : result B :=
  match m with
  | Ok a => k a
  | Raise e => Raise e
  end.

Notation "x <- m ;; k" := (bind m (fun x => k))
  (at level 61, m at next level, right associativity).

(** ** Insertion-ordered dictionaries *)

Definition dict (V : Type) : Type := list (string * V).

Fixpoint dict_get {V : Type} (k : string) (d : dict V) : option V :=
  match d with
  | [] => None
  | (k', v) :: d' => if k' =? k then Some v else dict_get k d'
  end.

(** [d[k] = v]: an existing key keeps its position. *)
Fixpoint dict_set {V : Type} (k : string) (v : V) (d : dict V) : dict V :=
  match d with
  | [] => [(k, v)]
  | (k', v') :: d' =>
      if k' =? k then (k, v) :: d' else (k', v') :: dict_set k v d'
  end.

Definition dict_keys {V : Type} (d : dict V) : list string := map fst d.
Definition dict_values {V : Type} (d : dict V) : list V := map snd d.

(** ** Lists of strings *)

Fixpoint mem (x : string) (l : list string) : bool :=
  match l with
  | [] => false
  | y :: l' => if y =? x then true else mem x l'
  end.

Fixpoint count_occ_str (x : string) (l : list string) : nat :=
  match l with
  | [] => 0
  | y :: l' => (if y =? x then 1 else 0) + count_occ_str x l'
  end.

(** [sep.join(l)] *)
Fixpoint join (sep : string) (l : list string) : string :=
  match l with
  | [] => ""
  | [x] => x
  | x :: l' => x ++ sep ++ join sep l'
  end.

(** [needle in text] on strings. *)
Fixpoint contains (needle text : string) : bool :=
  if prefix needle text then true
  else match text with
       | EmptyString => false
       | String _ text' => contains needle text'
       end.

(** [str(n)] for an integer. *)
Definition str_of_Z (n : Z) : string := NilZero.string_of_int (Z.to_int n).

(** ** Stable sorting by an integer key ([list.sort(key=...)]) *)

Fixpoint insert_sorted {A : Type} (key : A -> Z) (x : A) (l : list A)
  : list A :=
  match l with
  | [] => [x]
  | y :: l' =>
      if (key x <=? key y)%Z then x :: y :: l'
      else y :: insert_sorted key x l'
  end.

Definition stable_sort {A : Type} (key : A -> Z) (l : list A) : list A :=
  fold_right (insert_sorted key) [] l.

(** ** Sets of strings

    The set is kept as the duplicate-free sequence of its insertions;
    [set_to_list] is [list(s)], ordered by the interpreter's hashes. *)

Definition pyset : Type := list string.

Definition set_add (x : string) (s : pyset) : pyset :=
  if mem x s then s else s ++ [x].

Definition set_to_list (str_hash : string -> Z) (s : pyset) : list string :=
  stable_sort str_hash s.

(** ** [collections.Counter] *)

Fixpoint counter_incr (k : string) (c : dict nat) : dict nat :=
  match c with
  | [] => [(k, 1)]
  | (k', n) :: c' =>
      if k' =? k then (k', S n) :: c' else (k', n) :: counter_incr k c'
  end.

(** [Counter(l)]: keys in order of first occurrence. *)
Definition Counter (l : list string) : dict nat :=
  fold_left (fun c k => counter_incr k c) l [].

(** [max(items, key=itemgetter(1))]: the first item with the largest
    count, which is what [most_common(1)] returns in a one-element list. *)
Fixpoint max_item (best : string * nat) (items : dict nat) : string * nat :=
  match items with
  | [] => best
  | it :: items' =>
      if (snd best <? snd it)%nat then max_item it items' else max_item best items'
  end.

Definition most_common_1 (c : dict nat) : list (string * nat) :=
  match c with
  | [] => []
  | it :: items => [max_item it items]
  end.

(** [l[0]] *)
Definition index0 {A : Type} (l : list A) : result A :=
  match l with
  | [] => Raise IndexError
  | x :: _ => Ok x
  end.

(** [random.choice(l)], where [rnd] is the integer drawn by the generator:
    the element at position [rnd mod len(l)]; an empty [l] raises. *)
Definition random_choice {A : Type} (rnd : nat) (l : list A) : result A :=
  match nth_error l (rnd mod List.length l)%nat with
  | Some x => Ok x
  | None => Raise IndexError
  end.

(* ================================================================== *)
(** * wolf/engine/phase.py                                              *)
(* ================================================================== *)

Inductive Phase : Type :=
| SETUP | NIGHT | DAWN | DAY_DISCUSSION | DAY_VOTE | DAY_VOTE_RESULT
| GAME_OVER.

Definition Phase_eqb (p q : Phase) : bool :=
  match p, q with
  | SETUP, SETUP | NIGHT, NIGHT | DAWN, DAWN
  | DAY_DISCUSSION, DAY_DISCUSSION | DAY_VOTE, DAY_VOTE
  | DAY_VOTE_RESULT, DAY_VOTE_RESULT | GAME_OVER, GAME_OVER => true
  | _, _ => false
  end.

(* ================================================================== *)
(** * wolf/engine/actions.py and events.py                              *)
(* ================================================================== *)

(** The open [metadata] maps; their values are never read by the engine. *)
Definition Metadata : Type := dict string.

Inductive Action : Type :=
| BaseAction (player_id : string) (metadata : Metadata)
| SpeakAction (player_id : string) (metadata : Metadata) (content : string)
| VoteAction (player_id : string) (metadata : Metadata)
    (target_id : option string)
| UseAbilityAction (player_id : string) (metadata : Metadata)
    (ability_name target_id : string)
| NoAction (player_id : string) (metadata : Metadata) (reason : string).

Inductive GameEvent : Type :=
| BaseEvent (day : Z) (phase : Phase) (metadata : Metadata)
| PhaseChangeEvent (day : Z) (phase : Phase) (metadata : Metadata)
    (old_phase new_phase : Phase)
| SpeechEvent (day : Z) (phase : Phase) (metadata : Metadata)
    (player_id content channel : string)
| VoteEvent (day : Z) (phase : Phase) (metadata : Metadata)
    (voter_id : string) (target_id : option string)
| VoteResultEvent (day : Z) (phase : Phase) (metadata : Metadata)
    (tally : dict nat) (eliminated_id : option string) (tie : bool)
| EliminationEvent (day : Z) (phase : Phase) (metadata : Metadata)
    (player_id role cause : string)
| AbilityUseEvent (day : Z) (phase : Phase) (metadata : Metadata)
    (player_id ability target_id : string)
| PrivateRevealEvent (day : Z) (phase : Phase) (metadata : Metadata)
    (player_id info : string)
| NightResultEvent (day : Z) (phase : Phase) (metadata : Metadata)
    (kills protected saved : list string)
| GameEndEvent (day : Z) (phase : Phase) (metadata : Metadata)
    (winning_team : string) (winners : list string) (reason : string)
| ReasoningEvent (day : Z) (phase : Phase) (metadata : Metadata)
    (player_id reasoning action_type : string).

Definition event_day (e : GameEvent) : Z :=
  match e with
  | BaseEvent d _ _ | PhaseChangeEvent d _ _ _ _ | SpeechEvent d _ _ _ _ _
  | VoteEvent d _ _ _ _ | VoteResultEvent d _ _ _ _ _
  | EliminationEvent d _ _ _ _ _ | AbilityUseEvent d _ _ _ _ _
  | PrivateRevealEvent d _ _ _ _ | NightResultEvent d _ _ _ _ _
  | GameEndEvent d _ _ _ _ _ | ReasoningEvent d _ _ _ _ _ => d
  end.

(** [isinstance(e, EliminationEvent)] and the like. *)
Definition is_elimination (e : GameEvent) : bool :=
  match e with EliminationEvent _ _ _ _ _ _ => true | _ => false end.

Definition is_night_result (e : GameEvent) : bool :=
  match e with NightResultEvent _ _ _ _ _ _ => true | _ => false end.

Definition is_vote_event (e : GameEvent) : bool :=
  match e with VoteEvent _ _ _ _ _ => true | _ => false end.

Definition is_private_reveal (e : GameEvent) : bool :=
  match e with PrivateRevealEvent _ _ _ _ _ => true | _ => false end.

Definition is_wolf_speech (e : GameEvent) : bool :=
  match e with
  | SpeechEvent _ _ _ _ _ channel => channel =? "wolf"
  | _ => false
  end.

(* ================================================================== *)
(** * wolf/engine/state.py                                              *)
(* ================================================================== *)

Record PlayerSlot : Type := mkPlayerSlot {
  player_id : string;
  name : string;
  role : string;
  team : string;
  is_alive : bool;
  metadata : Metadata
}.

Record GameState : Type := mkGameState {
  day : Z;
  phase : Phase;
  players : list PlayerSlot;
  events : list GameEvent;
  night_actions : dict Action
}.

(** [GameState()] *)
Definition GameState_default : GameState := mkGameState 0 SETUP [] [] [].

(** ** Queries *)

Fixpoint find_player (ps : list PlayerSlot) (pid : string)
  : option PlayerSlot :=
  match ps with
  | [] => None
  | p :: ps' => if player_id p =? pid then Some p else find_player ps' pid
  end.

Definition get_player (s : GameState) (pid : string) : option PlayerSlot :=
  find_player (players s) pid.

Definition get_alive_players (s : GameState) : list PlayerSlot :=
  filter is_alive (players s).

Definition get_alive_player_ids (s : GameState) : list string :=
  map player_id (filter is_alive (players s)).

Definition get_players_by_role (s : GameState) (r : string)
  : list PlayerSlot :=
  filter (fun p => role p =? r) (players s).

Definition get_players_by_team (s : GameState) (t : string)
  : list PlayerSlot :=
  filter (fun p => team p =? t) (players s).

(** ** Immutable updates ([dataclasses.replace]) *)

Definition with_phase (s : GameState) (ph : Phase) : GameState :=
  mkGameState (day s) ph (players s) (events s) (night_actions s).

Definition with_day (s : GameState) (d : Z) : GameState :=
  mkGameState d (phase s) (players s) (events s) (night_actions s).

Definition kill_slot (pid : string) (p : PlayerSlot) : PlayerSlot :=
  if player_id p =? pid
  then mkPlayerSlot (player_id p) (name p) (role p) (team p) false
         (metadata p)
  else p.

Definition with_player_killed (s : GameState) (pid : string) : GameState :=
  mkGameState (day s) (phase s) (map (kill_slot pid) (players s))
    (events s) (night_actions s).

Definition with_night_action (s : GameState) (pid : string) (a : Action)
  : GameState :=
  mkGameState (day s) (phase s) (players s) (events s)
    (dict_set pid a (night_actions s)).

Definition with_event (s : GameState) (e : GameEvent) : GameState :=
  mkGameState (day s) (phase s) (players s) (events s ++ [e])
    (night_actions s).

Definition clear_night_actions (s : GameState) : GameState :=
  mkGameState (day s) (phase s) (players s) (events s) [].

(** The six update operations, as data. *)
Inductive update : Type :=
| WithPhase (ph : Phase)
| WithDay (d : Z)
| WithPlayerKilled (pid : string)
| WithNightAction (pid : string) (a : Action)
| WithEvent (e : GameEvent)
| ClearNightActions.

Definition apply_update (s : GameState) (u : update) : GameState :=
  match u with
  | WithPhase ph => with_phase s ph
  | WithDay d => with_day s d
  | WithPlayerKilled pid => with_player_killed s pid
  | WithNightAction pid a => with_night_action s pid a
  | WithEvent e => with_event s e
  | ClearNightActions => clear_night_actions s
  end.

(** ** GameStateView *)

Record GameStateView : Type := mkGameStateView {
  _state : GameState;
  _player_id : string
}.

(** [replace(p, role="unknown", team="unknown", metadata={})] *)
Definition scrub (p : PlayerSlot) : PlayerSlot :=
  mkPlayerSlot (player_id p) (name p) "unknown" "unknown" (is_alive p) [].

Definition view_my_player (v : GameStateView) : result PlayerSlot :=
  match get_player (_state v) (_player_id v) with
  | Some p => Ok p
  | None =>
      Raise (ValueError
               ("Player " ++ _player_id v ++ " not found in game state"))
  end.

Definition view_alive_players (v : GameStateView) : list PlayerSlot :=
  map (fun p => if player_id p =? _player_id v then p else scrub p)
    (get_alive_players (_state v)).

Definition view_all_players (v : GameStateView)
  : list (string * string * bool) :=
  map (fun p => (player_id p, name p, is_alive p)) (players (_state v)).

(** One turn of the loop of [GameStateView.events]: is [e] appended to
    [visible]? *)
Definition event_visible (me : string) (is_wolf : bool) (e : GameEvent)
  : bool :=
  match e with
  | PrivateRevealEvent _ _ _ pid _ => pid =? me
  | SpeechEvent _ _ _ _ _ channel =>
      if channel =? "wolf" then is_wolf else true
  | _ => true
  end.

Definition view_is_wolf (v : GameStateView) : bool :=
  match get_player (_state v) (_player_id v) with
  | Some p => team p =? "werewolf"
  | None => false
  end.

Definition view_events (v : GameStateView) : list GameEvent :=
  filter (event_visible (_player_id v) (view_is_wolf v)) (events (_state v)).

(* ================================================================== *)
(** * wolf/roles: ability definitions and the registry                  *)
(* ================================================================== *)

Record AbilityDefinition : Type := mkAbility {
  ability_name : string;
  ability_phase : Phase;
  ability_priority : Z;
  ability_description : string;
  ability_targets : string
}.

Record Role : Type := mkRole {
  role_name : string;
  role_team : string;
  role_description : string;
  abilities : list AbilityDefinition
}.

(** [RoleRegistry._roles], keyed by role name. *)
Definition RoleRegistry : Type := dict Role.

(** [RoleRegistry.get]: an unknown name raises [KeyError]. *)
Definition RoleRegistry_get (reg : RoleRegistry) (role_name : string)
  : result Role :=
  match dict_get role_name reg with
  | Some r => Ok r
  | None => Raise (KeyError role_name)
  end.

(** The classic roles of [wolf/roles/classic]. *)
Definition Villager : Role :=
  mkRole "villager" "village"
    "A regular villager. You have no special abilities but can participate in discussion and voting. Use your reasoning to identify the werewolves."
    [].

Definition Werewolf : Role :=
  mkRole "werewolf" "werewolf"
    "You are a werewolf. During the night, you and your fellow wolves choose a victim to kill. During the day, blend in with villagers and avoid suspicion. Coordinate with other wolves."
    [mkAbility "kill" NIGHT 15 "Choose a player to kill" "alive_others"].

Definition Doctor : Role :=
  mkRole "doctor" "village"
    "You are the doctor. Each night you may choose one player to protect from being killed by the werewolves. Choose wisely to keep key village members alive."
    [mkAbility "protect" NIGHT 10
       "Protect a player from being killed tonight" "alive_any"].

Definition Seer : Role :=
  mkRole "seer" "village"
    "You are the seer. Each night you may investigate one player to learn which team they belong to. Use this information wisely to guide the village toward eliminating the werewolves."
    [mkAbility "investigate" NIGHT 20
       "Investigate a player to learn their team" "alive_others"].

(** [RoleRegistry.register] *)
Definition register (reg : RoleRegistry) (r : Role) : RoleRegistry :=
  dict_set (role_name r) r reg.

(** The registry after [discover_plugins] (modules in alphabetical order). *)
Definition classic_registry : RoleRegistry :=
  fold_left register [Doctor; Seer; Villager; Werewolf] [].

(* ================================================================== *)
(** * wolf/engine/resolver.py                                           *)
(* ================================================================== *)

Record NightAction : Type := mkNightAction {
  na_player_id : string;
  na_ability : string;
  na_target_id : string;
  na_priority : Z
}.

Fixpoint _get_ability_priority_in (abs : list AbilityDefinition)
  (name : string) : Z :=
  match abs with
  | [] => 50
  | a :: abs' =>
      if ability_name a =? name then ability_priority a
      else _get_ability_priority_in abs' name
  end.

Definition _get_ability_priority (r : Role) (name : string) : Z :=
  _get_ability_priority_in (abilities r) name.

(** Step 1, the loop over [state.night_actions.items()]. *)
Fixpoint build_night_actions (state : GameState) (reg : RoleRegistry)
  (items : dict Action) : result (list NightAction) :=
  match items with
  | [] => Ok []
  | (pid, action) :: items' =>
      match action with
      | UseAbilityAction _ _ ability target =>
          match get_player state pid with
          | None => build_night_actions state reg items'
          | Some player =>
              r <- RoleRegistry_get reg (role player) ;;
              rest <- build_night_actions state reg items' ;;
              Ok (mkNightAction pid ability target
                    (_get_ability_priority r ability) :: rest)
          end
      | _ => build_night_actions state reg items'
      end
  end.

(** Step 2, the walk in priority order. *)
Record Walk : Type := mkWalk {
  w_protected : pyset;
  w_wolf_kill_votes : list string;
  w_events : list GameEvent
}.

Definition walk_step (state : GameState) (w : Walk) (na : NightAction)
  : Walk :=
  if na_ability na =? "protect" then
    mkWalk (set_add (na_target_id na) (w_protected w))
      (w_wolf_kill_votes w) (w_events w)
  else if na_ability na =? "kill" then
    mkWalk (w_protected w) (w_wolf_kill_votes w ++ [na_target_id na])
      (w_events w)
  else if na_ability na =? "investigate" then
    match get_player state (na_target_id na) with
    | Some target_player =>
        mkWalk (w_protected w) (w_wolf_kill_votes w)
          (w_events w ++
           [PrivateRevealEvent (day state) DAWN [] (na_player_id na)
              (name target_player ++ " (" ++ na_target_id na ++ ") is a "
               ++ role target_player ++ ".")%string])
    | None => w
    end
  else w.

Definition walk (state : GameState) (nas : list NightAction) : Walk :=
  fold_left (walk_step state) nas (mkWalk [] [] []).

(** Step 3: the agreement threshold. *)
Definition required_votes (num_wolves : nat) : nat :=
  if (num_wolves <=? 2)%nat then num_wolves else (num_wolves / 2 + 1)%nat.

Definition top_targets (tally : dict nat) (max_votes : nat) : list string :=
  map fst (filter (fun it => (snd it =? max_votes)%nat) tally).

(** Step 3 as a whole: the [kills] list after the consensus block. *)
Definition wolf_consensus (rnd : nat) (wolf_kill_votes : list string)
  : result (list string) :=
  match wolf_kill_votes with
  | [] => Ok []
  | _ :: _ =>
      let num_wolves := List.length wolf_kill_votes in
      let tally := Counter wolf_kill_votes in
      best <- index0 (most_common_1 tally) ;;
      let max_votes := snd best in
      let required := required_votes num_wolves in
      if (required <=? max_votes)%nat then
        chosen_target <- random_choice rnd (top_targets tally max_votes) ;;
        Ok [chosen_target]
      else Ok []
  end.

(** Step 4: cancel the protected kills; returns [(actual_kills, saved)]. *)
Definition cancel_step (protected : pyset)
  (acc : list string * list string) (target_id : string)
  : list string * list string :=
  let '(actual_kills, saved) := acc in
  if mem target_id protected then (actual_kills, saved ++ [target_id])
  else if mem target_id actual_kills then (actual_kills, saved)
  else (actual_kills ++ [target_id], saved).

Definition cancel_protected (protected : pyset) (kills : list string)
  : list string * list string :=
  fold_left (cancel_step protected) kills ([], []).

(** Step 4 (second): apply the kills to the state. *)
Definition apply_kill_step (acc : GameState * list GameEvent)
  (target_id : string) : GameState * list GameEvent :=
  let '(new_state, events) := acc in
  match get_player new_state target_id with
  | Some target_player =>
      if is_alive target_player then
        let new_state' := with_player_killed new_state target_id in
        (new_state',
         events ++ [EliminationEvent (day new_state') DAWN [] target_id
                      (role target_player) "wolf_kill"])
      else acc
  | None => acc
  end.

Definition apply_kills (state : GameState) (events : list GameEvent)
  (actual_kills : list string) : GameState * list GameEvent :=
  fold_left apply_kill_step actual_kills (state, events).

Definition resolve_night (state : GameState) (reg : RoleRegistry)
  (str_hash : string -> Z) (rnd : nat)
  : result (GameState * list GameEvent) :=
  built <- build_night_actions state reg (night_actions state) ;;
  let nas := stable_sort na_priority built in
  let w := walk state nas in
  kills <- wolf_consensus rnd (w_wolf_kill_votes w) ;;
  let '(actual_kills, saved) := cancel_protected (w_protected w) kills in
  let '(new_state, events) := apply_kills state (w_events w) actual_kills in
  let events :=
    NightResultEvent (day state) DAWN [] actual_kills
      (set_to_list str_hash (w_protected w)) saved :: events in
  Ok (fold_left with_event events new_state, events).

(* ================================================================== *)
(** * wolf/engine/victory.py                                            *)
(* ================================================================== *)

Definition alive_wolves (state : GameState) : list PlayerSlot :=
  filter (fun p => team p =? "werewolf") (get_alive_players state).

Definition alive_villagers (state : GameState) : list PlayerSlot :=
  filter (fun p => team p =? "village") (get_alive_players state).

Definition check_victory (state : GameState) : option GameEvent :=
  match alive_wolves state with
  | [] =>
      Some (GameEndEvent (day state) (phase state) [] "village"
              (map player_id (get_players_by_team state "village"))
              "All werewolves have been eliminated.")
  | _ :: _ =>
      if (List.length (alive_villagers state)
          <=? List.length (alive_wolves state))%nat
      then
        Some (GameEndEvent (day state) (phase state) [] "werewolf"
                (map player_id (get_players_by_team state "werewolf"))
                "Werewolves equal or outnumber the villagers.")
      else None
  end.

(* ================================================================== *)
(** * wolf/engine/game.py: phase transitions                            *)
(* ================================================================== *)

(** [Game._transition]; the listeners called by [_emit] are outside the
    state and are not modelled. *)
Definition _transition (self_state : GameState) (new_phase : Phase)
  : GameState :=
  let old_phase := phase self_state in
  let state := with_phase self_state new_phase in
  let event :=
    PhaseChangeEvent (day state) new_phase [] old_phase new_phase in
  with_event state event.

(** [Game._end_game]: the state it leaves in [self.state]. *)
Definition _end_game (self_state : GameState) (result : GameEvent)
  : GameState :=
  let self_state := with_phase self_state GAME_OVER in
  let phase_event :=
    PhaseChangeEvent (day self_state) GAME_OVER [] (phase self_state)
      GAME_OVER in
  let self_state := with_event self_state phase_event in
  with_event self_state result.

(** [Game._setup_players]: the roles of the config in order, one slot per
    agent, villagers beyond the role list; the display name is the player
    id. *)
Fixpoint config_role_list (reg : RoleRegistry) (roles : list (string * nat))
  : result (list (string * string)) :=
  match roles with
  | [] => Ok []
  | (role_name, count) :: roles' =>
      role_obj <- RoleRegistry_get reg role_name ;;
      rest <- config_role_list reg roles' ;;
      Ok (repeat (role_name, role_team role_obj) count ++ rest)
  end.

Definition _setup_players (reg : RoleRegistry) (roles : list (string * nat))
  (player_ids : list string) : result GameState :=
  role_list <- config_role_list reg roles ;;
  let slots :=
    map (fun ip =>
           let '(role_name, team) :=
             nth (fst ip) role_list ("villager", "village") in
           mkPlayerSlot (snd ip) (snd ip) role_name team true [])
      (combine (seq 0 (List.length player_ids)) player_ids) in
  Ok (mkGameState 0 SETUP slots [] []).

(** [Game._last_vote_result] *)
Definition is_vote_result (e : GameEvent) : bool :=
  match e with VoteResultEvent _ _ _ _ _ _ => true | _ => false end.

Definition _last_vote_result (self_state : GameState) : option GameEvent :=
  find is_vote_result (rev (events self_state)).

(* ================================================================== *)
(** * wolf/engine/moderator.py: vote tally                              *)
(* ================================================================== *)

(** [for voter_id, target_id in votes.items(): ... with_event(VoteEvent)] *)
Definition vote_events (state : GameState) (votes : dict (option string))
  : list GameEvent :=
  map (fun vt => VoteEvent (day state) DAY_VOTE [] (fst vt) (snd vt)) votes.

(** The [Counter] filled from [votes.values()], skipping [None]. *)
Definition vote_tally (votes : dict (option string)) : dict nat :=
  fold_left
    (fun tally target_id =>
       match target_id with
       | Some t => counter_incr t tally
       | None => tally
       end)
    (dict_values votes) [].

(** The [if tally:] block: [(eliminated_id, tie)]. *)
Definition decide_vote (tie_breaker : string) (rnd : nat) (tally : dict nat)
  : result (option string * bool) :=
  match tally with
  | [] => Ok (None, false)
  | _ :: _ =>
      best <- index0 (most_common_1 tally) ;;
      let max_votes := snd best in
      let top_candidates := top_targets tally max_votes in
      if (List.length top_candidates =? 1)%nat then
        c <- index0 top_candidates ;; Ok (Some c, false)
      else if tie_breaker =? "no_elimination" then Ok (None, true)
      else if tie_breaker =? "random" then
        c <- random_choice rnd top_candidates ;; Ok (Some c, true)
      else Ok (None, true)
  end.

(** [Moderator.run_vote] from the point where [votes] has been
    collected. *)
Definition run_vote_tally (tie_breaker : string) (rnd : nat)
  (state : GameState) (votes : dict (option string)) : result GameState :=
  let state' := fold_left with_event (vote_events state votes) state in
  let tally := vote_tally votes in
  d <- decide_vote tie_breaker rnd tally ;;
  let vote_result :=
    VoteResultEvent (day state') DAY_VOTE [] tally (fst d) (snd d) in
  Ok (with_event state' vote_result).

(** [Moderator.run_vote_result] *)
Definition run_vote_result (state : GameState) (vote_result_event : GameEvent)
  : GameState :=
  match vote_result_event with
  | VoteResultEvent _ _ _ _ (Some eliminated_id) _ =>
      match get_player state eliminated_id with
      | Some target =>
          if is_alive target then
            let state' := with_player_killed state eliminated_id in
            with_event state'
              (EliminationEvent (day state') DAY_VOTE_RESULT [] eliminated_id
                 (role target) "vote")
          else state
      | None => state
      end
  | _ => state
  end.

(** [Moderator.run_dawn] *)
Definition run_dawn (reg : RoleRegistry) (str_hash : string -> Z) (rnd : nat)
  (state : GameState) : result GameState :=
  r <- resolve_night state reg str_hash rnd ;;
  Ok (fst r).

(* ================================================================== *)
(** * wolf/engine/game.py: the game loop                                *)
(* ================================================================== *)

(** [Game.run] after the setup.  The phase runners of the moderator that
    talk to the agents ([run_night], [run_discussion], [run_vote]) are
    parameters: a runner takes the state and returns the next state, or
    raises; [dawn] is [Moderator.run_dawn] behind the registry and the
    draw of the day.  The loop [while day < max_days] runs on the number
    of days that remain. *)
Section GameLoop.

Variables run_night run_discussion run_vote : GameState -> result GameState.
Variable dawn : Z -> GameState -> result GameState.
Variable max_days : Z.

Fixpoint run_days (remaining : nat) (day : Z) (self_state : GameState)
  : result (GameState * GameEvent) :=
  match remaining with
  | O =>
      let result :=
        GameEndEvent day (phase self_state) [] "werewolf"
          (map player_id (get_players_by_team self_state "werewolf"))
          ("Game exceeded the maximum of " ++ str_of_Z max_days
           ++ " days.")%string in
      Ok (_end_game self_state result, result)
  | S remaining' =>
      let day := (day + 1)%Z in
      let s := with_day self_state day in
      let s := _transition s NIGHT in
      s <- run_night s ;;
      let s := _transition s DAWN in
      s <- dawn day s ;;
      match check_victory s with
      | Some result => Ok (_end_game s result, result)
      | None =>
          let s := _transition s DAY_DISCUSSION in
          s <- run_discussion s ;;
          let s := _transition s DAY_VOTE in
          s <- run_vote s ;;
          let s := _transition s DAY_VOTE_RESULT in
          let s :=
            match _last_vote_result s with
            | Some vote_result_event => run_vote_result s vote_result_event
            | None => s
            end in
          match check_victory s with
          | Some result => Ok (_end_game s result, result)
          | None => run_days remaining' day s
          end
      end
  end.

Definition run (setup : GameState) : result (GameState * GameEvent) :=
  let setup_event := PhaseChangeEvent 0 SETUP [] SETUP NIGHT in
  run_days (Z.to_nat max_days) 0 (with_event setup setup_event).

End GameLoop.

(* ================================================================== *)
(** * wolf/agents/briefing_builder.py                                   *)
(* ================================================================== *)

(** The random generator, as the stream of the integers it draws. *)
Definition Rng : Type := nat -> nat.

Definition rng_drop (n : nat) (rng : Rng) : Rng := fun i => rng (n + i)%nat.

Fixpoint replace_nth (i : nat) (v : string) (x : list string) : list string :=
  match x, i with
  | [], _ => []
  | _ :: x', O => v :: x'
  | y :: x', S i' => y :: replace_nth i' v x'
  end.

(** [x[i], x[j] = x[j], x[i]] *)
Definition swap_items (x : list string) (i j : nat) : list string :=
  let xj := nth j x "" in
  let xi := nth i x "" in
  replace_nth j xi (replace_nth i xj x).

(** [random.shuffle]: for i from len-1 down to 1, swap x[i] with x[j] for
    a drawn j <= i. *)
Fixpoint shuffle_loop (rng : Rng) (i : nat) (x : list string) : list string :=
  match i with
  | O => x
  | S i' =>
      shuffle_loop (rng_drop 1 rng) i' (swap_items x i (rng 0 mod S i)%nat)
  end.

Definition random_shuffle (rng : Rng) (x : list string)
  : list string * Rng :=
  (shuffle_loop rng (List.length x - 1) x,
   rng_drop (List.length x - 1) rng).

Record BriefingBuilder : Type := mkBriefingBuilder {
  _id_to_name : dict string;
  _name_to_id : dict string;
  _randomize_names : bool
}.

Definition _name (self : BriefingBuilder) (pid : string) : string :=
  match dict_get pid (_id_to_name self) with
  | Some n => n
  | None => pid
  end.

Definition _shuffle (self : BriefingBuilder) (rng : Rng) (names : list string)
  : list string * Rng :=
  if _randomize_names self then random_shuffle rng names else (names, rng).

Definition nl : string := String (ascii_of_nat 10) "".

(** Truth value of an optional list and of an optional string. *)
Definition truthy_list {A : Type} (o : option (list A)) : list A :=
  match o with
  | Some l => l
  | None => []
  end.

Definition truthy_str (o : option string) : string :=
  match o with
  | Some s => s
  | None => ""
  end.

Definition is_empty_str (s : string) : bool :=
  match s with
  | EmptyString => true
  | String _ _ => false
  end.

(** The block appended to every briefing: the summary of the agent's own
    knowledge base, a text the agent wrote itself ([kb_summary] stands for
    [kb.summarize_for_briefing()]). *)
Definition kb_lines (kb_summary : string) : list string :=
  if is_empty_str kb_summary then [] else [kb_summary].

Definition alive_names (self : BriefingBuilder) (state : GameState)
  : list string :=
  map (fun p => _name self (player_id p)) (get_alive_players state).

Definition indented (msgs : list string) : list string :=
  map (fun msg => ("  " ++ msg)%string) msgs.

Definition build_night_briefing (self : BriefingBuilder) (rng : Rng)
  (state : GameState) (pid : string) (kb_summary : string)
  (role_name : string) (ability_name ability_description : option string)
  (allies wolf_chat_messages : option (list string)) : string :=
  let name := _name self pid in
  let alive := alive_names self state in
  let alive_others := filter (fun n => negb (n =? name)) alive in
  let lines :=
    [("=== Night Phase (Day " ++ str_of_Z (day state) ++ ") ===")%string;
     ("You are " ++ name ++ ", role: " ++ role_name ++ ".")%string;
     ""] in
  let '(lines, rng) :=
    match truthy_list allies with
    | [] => (lines, rng)
    | _ :: _ =>
        let '(shuffled, rng') := _shuffle self rng (truthy_list allies) in
        (lines ++ [("Your wolf allies: " ++ join ", " shuffled)%string; ""],
         rng')
    end in
  let lines :=
    match truthy_list wolf_chat_messages with
    | [] => lines
    | _ :: _ =>
        lines ++ ["=== Wolf Chat Discussion (just now) ==="]
        ++ indented (truthy_list wolf_chat_messages)
        ++ [""; "Follow through on what your pack agreed to above."; ""]
    end in
  let lines :=
    if is_empty_str (truthy_str ability_name) then
      lines ++ ["You have no night ability. Use pass_turn to end your turn."]
    else
      let '(shuffled, _) := _shuffle self rng alive_others in
      lines ++ [("Your ability: " ++ truthy_str ability_name)%string]
      ++ (if is_empty_str (truthy_str ability_description) then []
          else [("  " ++ truthy_str ability_description)%string])
      ++ [("Valid targets: " ++ join ", " shuffled)%string; "";
          "Choose a target for your ability using the use_ability tool."] in
  let lines := lines ++ [""] in
  join nl (lines ++ kb_lines kb_summary).

Definition build_wolf_chat_briefing (self : BriefingBuilder) (rng : Rng)
  (state : GameState) (pid : string) (kb_summary : string)
  (allies prior_messages : list string) : string :=
  let name := _name self pid in
  let alive := alive_names self state in
  let alive_villagers :=
    filter (fun n => negb (n =? name) && negb (mem n allies)) alive in
  let '(shuffled_allies, rng) := _shuffle self rng allies in
  let villagers_text :=
    match alive_villagers with
    | [] => "(none)"
    | _ :: _ => join ", " (fst (_shuffle self rng alive_villagers))
    end in
  let lines :=
    [("=== Wolf Chat (Night " ++ str_of_Z (day state) ++ ") ===")%string;
     ("You are " ++ name
      ++ ". This is a private channel -- only wolves can see this.")%string;
     ("Your wolf allies: " ++ join ", " shuffled_allies)%string;
     "";
     ("Alive villager-side players: " ++ villagers_text)%string;
     ""] in
  let lines :=
    match prior_messages with
    | [] => lines
    | _ :: _ =>
        lines ++ ["=== Wolf Chat Messages ==="] ++ indented prior_messages
        ++ [""]
    end in
  let lines :=
    lines
    ++ ["Discuss strategy with your allies. Who should the pack target tonight?";
        "Use the wolf_say tool to speak, or pass_turn to stay silent.";
        ""] in
  join nl (lines ++ kb_lines kb_summary).

(** One turn of the loop of [_get_public_day_events]. *)
Definition day_event_text (self : BriefingBuilder) (state : GameState)
  (pid : string) (event : GameEvent) : list string :=
  if negb (event_day event =? day state)%Z then []
  else
    match event with
    | NightResultEvent _ _ _ kills _ saved =>
        match kills with
        | [] => []
        | _ :: _ =>
            let text :=
              ("Night results: " ++ join ", " (map (_name self) kills)
               ++ " killed.")%string in
            match saved with
            | [] => [text]
            | _ :: _ =>
                [(text ++ " " ++ join ", " (map (_name self) saved)
                  ++ " saved.")%string]
            end
        end
    | EliminationEvent _ _ _ elim_id role cause =>
        [(_name self elim_id ++ " was eliminated (role: " ++ role
          ++ ", cause: " ++ cause ++ ").")%string]
    | VoteResultEvent _ _ _ _ eliminated_id tie =>
        if negb (is_empty_str (truthy_str eliminated_id)) then
          [("Vote result: " ++ _name self (truthy_str eliminated_id)
            ++ " was voted out.")%string]
        else if tie then ["Vote result: tie -- no one was eliminated."]
        else []
    | PrivateRevealEvent _ _ _ target info =>
        if target =? pid then [("Private info: " ++ info)%string] else []
    | _ => []
    end.

Definition _get_public_day_events (self : BriefingBuilder)
  (state : GameState) (pid : string) : list string :=
  flat_map (day_event_text self state pid) (events state).

Definition discussion_speech (state : GameState) (event : GameEvent)
  : list (string * string) :=
  match event with
  | SpeechEvent d ph _ speaker content channel =>
      if (d =? day state)%Z && Phase_eqb ph DAY_DISCUSSION
         && (channel =? "public")
      then [(speaker, content)] else []
  | _ => []
  end.

Definition _get_discussion_speeches (state : GameState)
  : list (string * string) :=
  flat_map (discussion_speech state) (events state).

Definition section_lines (title : string) (body : list string)
  : list string :=
  match body with
  | [] => []
  | _ :: _ => [title] ++ indented body ++ [""]
  end.

Definition build_discussion_briefing (self : BriefingBuilder) (rng : Rng)
  (state : GameState) (pid : string) (kb_summary : string)
  (role_name : string) (speeches_so_far : list (string * string)) : string :=
  let name := _name self pid in
  let alive := alive_names self state in
  let all_players :=
    map (fun p => (_name self (player_id p), is_alive p)) (players state) in
  let '(shuffled_alive, rng) := _shuffle self rng alive in
  let lines :=
    [("=== Discussion Phase (Day " ++ str_of_Z (day state) ++ ") ===")%string;
     ("You are " ++ name ++ ", role: " ++ role_name ++ ".")%string;
     "";
     ("Alive players: " ++ join ", " shuffled_alive)%string;
     ""] in
  let dead := map fst (filter (fun na => negb (snd na)) all_players) in
  let lines :=
    match dead with
    | [] => lines
    | _ :: _ =>
        lines
        ++ [("Eliminated players: "
             ++ join ", " (fst (_shuffle self rng dead)))%string; ""]
    end in
  let lines :=
    lines
    ++ section_lines "=== Today's Events ==="
         (_get_public_day_events self state pid)
    ++ section_lines "=== Discussion So Far ==="
         (map (fun sm => ("[" ++ fst sm ++ "]: " ++ snd sm)%string)
            speeches_so_far)
    ++ ["It's your turn to speak. Use the speak tool to address the group.";
        "You can also use tools to review information and update your notes.";
        ""] in
  join nl (lines ++ kb_lines kb_summary).

Definition build_vote_briefing (self : BriefingBuilder) (rng : Rng)
  (state : GameState) (pid : string) (kb_summary : string)
  (role_name : string) (valid_targets : list string) : string :=
  let name := _name self pid in
  let lines :=
    [("=== Voting Phase (Day " ++ str_of_Z (day state) ++ ") ===")%string;
     ("You are " ++ name ++ ", role: " ++ role_name ++ ".")%string;
     "";
     ("Valid vote targets: "
      ++ join ", " (fst (_shuffle self rng valid_targets)))%string;
     "(You may also vote for 'no_one' to abstain.)";
     ""] in
  let lines :=
    lines
    ++ section_lines "=== Discussion Summary ==="
         (map (fun sc => ("[" ++ _name self (fst sc) ++ "]: " ++ snd sc)%string)
            (_get_discussion_speeches state))
    ++ section_lines "=== Today's Events ==="
         (_get_public_day_events self state pid)
    ++ ["Cast your vote using the vote tool."; ""] in
  join nl (lines ++ kb_lines kb_summary).

Definition build_reflection_briefing (self : BriefingBuilder) (rng : Rng)
  (state : GameState) (pid : string) (kb_summary : string)
  (event_summary : string) : string :=
  let name := _name self pid in
  let alive := alive_names self state in
  let lines :=
    ["=== Reflection ===";
     ("You are " ++ name ++ ".")%string;
     "";
     ("Alive players: " ++ join ", " (fst (_shuffle self rng alive)))%string;
     "";
     "=== What Just Happened ===";
     event_summary;
     "";
     "Take a moment to update your notes and assessments based on this information.";
     "Use write_notes and assess_player to record your thoughts.";
     "Use pass_turn when you're done reflecting.";
     ""] in
  join nl (lines ++ kb_lines kb_summary).

(* ================================================================== *)
(** * wolf/engine/moderator.py: the briefings it requests               *)
(* ================================================================== *)

(** The moderator with its tool factory and briefing builder in place;
    [tool_factory_id_to_name] is the table behind [Moderator._name]. *)
Record Moderator : Type := mkModerator {
  role_registry : RoleRegistry;
  tool_factory_id_to_name : dict string;
  briefing_builder : BriefingBuilder;
  allow_wolf_chat : bool
}.

Definition Moderator_name (self : Moderator) (pid : string) : string :=
  match dict_get pid (tool_factory_id_to_name self) with
  | Some n => n
  | None => pid
  end.

(** [run_night], one turn of the second loop up to the briefing: [None]
    when the player is skipped for having no night ability. *)
Definition night_briefing_for (self : Moderator) (rng : Rng)
  (state : GameState) (player : PlayerSlot) (kb_summary : string)
  (wolf_chat_messages : list string) : result (option string) :=
  r <- RoleRegistry_get (role_registry self) (role player) ;;
  match filter (fun a => Phase_eqb (ability_phase a) NIGHT) (abilities r) with
  | [] => Ok None
  | ability :: _ =>
      let is_wolf := team player =? "werewolf" in
      let allies :=
        if is_wolf then
          Some (map (fun w => Moderator_name self (player_id w))
                  (filter (fun w => (team w =? "werewolf")
                                    && negb (player_id w =? player_id player))
                     (get_alive_players state)))
        else None in
      let wolf_msgs_for_player :=
        if is_wolf then
          match wolf_chat_messages with
          | [] => None
          | _ :: _ => Some wolf_chat_messages
          end
        else None in
      Ok (Some (build_night_briefing (briefing_builder self) rng state
                  (player_id player) kb_summary (role_name r)
                  (Some (ability_name ability))
                  (Some (ability_description ability))
                  allies wolf_msgs_for_player))
  end.

(** [_run_wolf_chat], one turn of its loop up to the briefing; the pack
    is the [alive_wolves] list [run_night] passes, and the chat runs only
    when it is enabled and the pack counts two wolves or more. *)
Definition wolf_chat_briefing_for (self : Moderator) (rng : Rng)
  (state : GameState) (wolf : PlayerSlot) (kb_summary : string)
  (prior_messages : list string) : option string :=
  let pack := alive_wolves state in
  if allow_wolf_chat self && (2 <=? List.length pack)%nat then
    let wolf_names :=
      fold_left
        (fun d w => dict_set (player_id w) (Moderator_name self (player_id w)) d)
        pack [] in
    let allies :=
      map snd (filter (fun kv => negb (fst kv =? player_id wolf)) wolf_names) in
    Some (build_wolf_chat_briefing (briefing_builder self) rng state
            (player_id wolf) kb_summary allies prior_messages)
  else None.

(** [run_discussion] and [run_vote], one turn up to the briefing. *)
Definition discussion_briefing_for (self : Moderator) (rng : Rng)
  (state : GameState) (player : PlayerSlot) (kb_summary : string)
  (speeches_so_far : list (string * string)) : result string :=
  r <- RoleRegistry_get (role_registry self) (role player) ;;
  Ok (build_discussion_briefing (briefing_builder self) rng state
        (player_id player) kb_summary (role_name r) speeches_so_far).

Definition vote_briefing_for (self : Moderator) (rng : Rng)
  (state : GameState) (player : PlayerSlot) (kb_summary : string)
  : result string :=
  r <- RoleRegistry_get (role_registry self) (role player) ;;
  let valid_targets :=
    map (fun p => Moderator_name self (player_id p))
      (filter (fun p => negb (player_id p =? player_id player))
         (get_alive_players state)) in
  Ok (build_vote_briefing (briefing_builder self) rng state
        (player_id player) kb_summary (role_name r) valid_targets).

(* ================================================================== *)
(** * Snapshots in the object store                                     *)
(* ================================================================== *)

(** [dataclasses.replace] copies references: the snapshots it returns
    share the mutable [night_actions] dict of the snapshot they come from
    (the [players] and [events] tuples are immutable values).  To speak of
    a snapshot being modified, the dicts live in a store and a snapshot
    holds the address of its dict. *)

Definition Store : Type := list (dict Action).

Record GameStateObj : Type := mkGameStateObj {
  o_day : Z;
  o_phase : Phase;
  o_players : list PlayerSlot;
  o_events : list GameEvent;
  o_night_actions : nat
}.

(** The value a snapshot object denotes in a store. *)
Definition read_state (st : Store) (o : GameStateObj) : GameState :=
  mkGameState (o_day o) (o_phase o) (o_players o) (o_events o)
    (nth (o_night_actions o) st []).

(** Allocation of a fresh dict object. *)
Definition alloc (st : Store) (d : dict Action) : Store * nat :=
  (st ++ [d], List.length st).

(** The update operations on objects: the store after the call and the
    object returned. *)
Definition obj_update (st : Store) (o : GameStateObj) (u : update)
  : Store * GameStateObj :=
  match u with
  | WithPhase ph =>
      (st, mkGameStateObj (o_day o) ph (o_players o) (o_events o)
             (o_night_actions o))
  | WithDay d =>
      (st, mkGameStateObj d (o_phase o) (o_players o) (o_events o)
             (o_night_actions o))
  | WithPlayerKilled pid =>
      (st, mkGameStateObj (o_day o) (o_phase o)
             (map (kill_slot pid) (o_players o)) (o_events o)
             (o_night_actions o))
  | WithNightAction pid a =>
      (* new_actions = dict(self.night_actions); new_actions[pid] = a *)
      let '(st', addr) :=
        alloc st (dict_set pid a (nth (o_night_actions o) st [])) in
      (st', mkGameStateObj (o_day o) (o_phase o) (o_players o) (o_events o)
              addr)
  | WithEvent e =>
      (st, mkGameStateObj (o_day o) (o_phase o) (o_players o)
             (o_events o ++ [e]) (o_night_actions o))
  | ClearNightActions =>
      let '(st', addr) := alloc st [] in
      (st', mkGameStateObj (o_day o) (o_phase o) (o_players o) (o_events o)
              addr)
  end.

(* ================================================================== *)
(** * Words of the specification                                        *)
(* ================================================================== *)

(** The targets of the [ability] actions recorded in the dict [items] by
    players of the state, in the order of the dict. *)
Definition ability_targets_in (ability : string) (state : GameState)
  (items : dict Action) : list string :=
  flat_map
    (fun entry =>
       match snd entry with
       | UseAbilityAction _ _ ab target =>
           if ab =? ability then
             match get_player state (fst entry) with
             | Some _ => [target]
             | None => []
             end
           else []
       | _ => []
       end)
    items.

(** The kill votes submitted for the night, and the targets of the
    submitted protect actions. *)
Definition submitted_kill_targets (state : GameState) : list string :=
  ability_targets_in "kill" state (night_actions state).

Definition submitted_protect_targets (state : GameState) : list string :=
  ability_targets_in "protect" state (night_actions state).

(** The agreement threshold in the words of the rule: unanimity up to two
    votes, a strict majority from three. *)
Definition threshold (n : nat) : nat :=
  if (n <=? 2)%nat then n else (n / 2 + 1)%nat.

(** The target the pack agrees on, following the rule: a target of some
    submitted vote whose count reaches the threshold. *)
Definition consensus (votes : list string) : option string :=
  find (fun t => (threshold (List.length votes) <=? count_occ_str t votes)%nat)
    votes.

(** Every acting player of the state has a registered role, so that no
    registry lookup of the resolver raises. *)
Definition roles_registered_in (state : GameState) (reg : RoleRegistry)
  (items : dict Action) : bool :=
  forallb
    (fun entry =>
       match snd entry with
       | UseAbilityAction _ _ _ _ =>
           match get_player state (fst entry) with
           | Some p =>
               match dict_get (role p) reg with
               | Some _ => true
               | None => false
               end
           | None => true
           end
       | _ => true
       end)
    items.

Definition roles_registered (state : GameState) (reg : RoleRegistry) : bool :=
  roles_registered_in state reg (night_actions state).

(** Steps 1 and 2 of the resolver: the walk over the sorted actions. *)
Definition night_walk (state : GameState) (reg : RoleRegistry) : result Walk :=
  built <- build_night_actions state reg (night_actions state) ;;
  Ok (walk state (stable_sort na_priority built)).

(** The state and the events a list of emitted events leaves behind. *)
Definition emitted (state : GameState) (evs : list GameEvent)
  : GameState * list GameEvent :=
  (fold_left with_event evs state, evs).

(** The outcome of the night in the words of the specification, given the
    walk [w] and the target the pack agreed on, if any: a protected
    target is saved; an unprotected one is reported as a kill and, when it
    names a living player, that player dies and one elimination is
    announced. *)
Definition night_outcome (state : GameState) (str_hash : string -> Z)
  (w : Walk) (agreed : option string) : GameState * list GameEvent :=
  let summary kills saved :=
    NightResultEvent (day state) DAWN [] kills
      (set_to_list str_hash (w_protected w)) saved in
  match agreed with
  | None => emitted state (summary [] [] :: w_events w)
  | Some t =>
      if mem t (w_protected w) then
        emitted state (summary [] [t] :: w_events w)
      else
        match get_player state t with
        | Some p =>
            if is_alive p then
              emitted (with_player_killed state t)
                (summary [t] [] :: w_events w
                 ++ [EliminationEvent (day state) DAWN [] t (role p)
                       "wolf_kill"])
            else emitted state (summary [t] [] :: w_events w)
        | None => emitted state (summary [t] [] :: w_events w)
        end
  end.

(** Two slots that agree on what a briefing may show of a player other
    than the reader: the identity and the life flag, and, when the reader
    is a wolf ([pack_known]), whether the player belongs to the pack.
    Name, role, team and metadata are otherwise free. *)
Definition same_but_hidden (pack_known : bool) (p1 p2 : PlayerSlot) : Prop :=
  player_id p1 = player_id p2
  /\ is_alive p1 = is_alive p2
  /\ (pack_known = true ->
      (team p1 =? "werewolf") = (team p2 =? "werewolf")).

(** Two states that differ only in what is hidden from player [X]: the
    roles and teams of the players, the private reveals addressed to
    others and the wolves' private speeches. *)
Definition differ_only_in_hidden (X : string) (pack_known : bool)
  (st1 st2 : GameState) : Prop :=
  day st1 = day st2
  /\ filter (event_visible X false) (events st1)
     = filter (event_visible X false) (events st2)
  /\ Forall2 (same_but_hidden pack_known) (players st1) (players st2).

(** The number of voters whose vote names [t]. *)
Definition votes_for (t : string) (votes : dict (option string)) : nat :=
  List.length
    (filter (fun vt => match snd vt with
                       | Some x => x =? t
                       | None => false
                       end) votes).

(** The winning team a victory check announces, if any. *)
Definition winning_team_of (r : option GameEvent) : option string :=
  match r with
  | Some (GameEndEvent _ _ _ winning_team _ _) => Some winning_team
  | _ => None
  end.

(** Readers of the leading [NightResultEvent] of an event list. *)
Definition result_kills (evs : list GameEvent) : list string :=
  match evs with
  | NightResultEvent _ _ _ kills _ _ :: _ => kills
  | _ => []
  end.

Definition result_protected (evs : list GameEvent) : list string :=
  match evs with
  | NightResultEvent _ _ _ _ protected _ :: _ => protected
  | _ => []
  end.

Definition result_saved (evs : list GameEvent) : list string :=
  match evs with
  | NightResultEvent _ _ _ _ _ saved :: _ => saved
  | _ => []
  end.

(** The targets adopted by the pack, as the events report them: killed or
    saved. *)
Definition adopted_targets (evs : list GameEvent) : list string :=
  result_kills evs ++ result_saved evs.

Definition elimination_events (evs : list GameEvent) : list GameEvent :=
  filter is_elimination evs.

(** [t] names a living player of the state. *)
Definition is_living_player (state : GameState) (t : string) : bool :=
  match get_player state t with
  | Some p => is_alive p
  | None => false
  end.

(* ================================================================== *)
(** * Example states                                                    *)
(* ================================================================== *)

Definition slot (pid nm rl tm : string) (alive : bool) : PlayerSlot :=
  mkPlayerSlot pid nm rl tm alive [].

(** The roster of the unit tests: two wolves, seer, doctor, villager. *)
Definition five_players : list PlayerSlot :=
  [ slot "wolf1" "Wolf1" "werewolf" "werewolf" true;
    slot "wolf2" "Wolf2" "werewolf" "werewolf" true;
    slot "seer1" "Seer" "seer" "village" true;
    slot "doc1" "Doctor" "doctor" "village" true;
    slot "vil1" "Villager" "villager" "village" true ].

Definition use (pid ability target : string) : string * Action :=
  (pid, UseAbilityAction pid [] ability target).

Definition five_player_state (actions : dict Action) : GameState :=
  mkGameState 1 NIGHT five_players [] actions.

(** Scenario A: both wolves name the villager, the doctor protects it. *)
Definition scenario_A : GameState :=
  five_player_state
    [use "wolf1" "kill" "vil1"; use "wolf2" "kill" "vil1";
     use "doc1" "protect" "vil1"].

(** Scenario B: the two wolves disagree. *)
Definition scenario_B : GameState :=
  five_player_state
    [use "wolf1" "kill" "vil1"; use "wolf2" "kill" "seer1"].

(** Both wolves name the villager and nobody protects it. *)
Definition scenario_kill : GameState :=
  five_player_state
    [use "wolf1" "kill" "vil1"; use "wolf2" "kill" "vil1";
     use "seer1" "investigate" "wolf2"].

(** The villager died earlier and a lone wolf names it again. *)
Definition dead_target_state : GameState :=
  mkGameState 2 NIGHT
    [ slot "wolf1" "Wolf1" "werewolf" "werewolf" true;
      slot "seer1" "Seer" "seer" "village" true;
      slot "doc1" "Doctor" "doctor" "village" true;
      slot "vil1" "Villager" "villager" "village" false ]
    []
    [use "wolf1" "kill" "vil1"].

(** One wolf and two villagers alive: the game goes on. *)
Definition ongoing_state : GameState :=
  mkGameState 1 DAWN
    [ slot "wolf1" "Wolf1" "werewolf" "werewolf" true;
      slot "seer1" "Seer" "seer" "village" true;
      slot "vil1" "Villager" "villager" "village" true ]
    [] [].

(** The last villager-side majority fell during the night. *)
Definition wolves_won_at_dawn : GameState :=
  mkGameState 3 DAWN
    [ slot "wolf1" "Wolf1" "werewolf" "werewolf" true;
      slot "seer1" "Seer" "seer" "village" false;
      slot "doc1" "Doctor" "doctor" "village" false;
      slot "vil1" "Villager" "villager" "village" true ]
    [] [].

(** Scenario C: five voters, A and B get two votes each, C one. *)
Definition scenario_C_votes : dict (option string) :=
  [("p1", Some "A"); ("p2", Some "B"); ("p3", Some "A"); ("p4", Some "B");
   ("p5", Some "C")].

(** A pack of two among four players, on the first night; nothing has
    been revealed and nobody has been eliminated. *)
Definition Ann : PlayerSlot := slot "w1" "Ann" "werewolf" "werewolf" true.
Definition Bob : PlayerSlot := slot "w2" "Bob" "werewolf" "werewolf" true.
Definition Cy : PlayerSlot := slot "v1" "Cy" "villager" "village" true.
Definition Dee : PlayerSlot := slot "v2" "Dee" "seer" "village" true.

Definition pack_state : GameState :=
  mkGameState 1 NIGHT [Ann; Bob; Cy; Dee] [] [].

(** The same night, had Cy been a third wolf. *)
Definition pack_state_cy_wolf : GameState :=
  mkGameState 1 NIGHT
    [Ann; Bob; slot "v1" "Cy" "werewolf" "werewolf" true; Dee] [] [].

(** The same night, had Cy been the doctor. *)
Definition pack_state_cy_doctor : GameState :=
  mkGameState 1 NIGHT
    [Ann; Bob; slot "v1" "Cy" "doctor" "village" true; Dee] [] [].

Definition pack_names : dict string :=
  [("w1", "Ann"); ("w2", "Bob"); ("v1", "Cy"); ("v2", "Dee")].

Definition pack_moderator : Moderator :=
  mkModerator classic_registry pack_names
    (mkBriefingBuilder pack_names
       [("Ann", "w1"); ("Bob", "w2"); ("Cy", "v1"); ("Dee", "v2")] false)
    true.

Definition rng0 : Rng := fun _ => 0%nat.

(** A game of one wolf and two villagers whose agents never act: the
    night runner records nothing, nobody speaks and nobody votes. *)
Definition silent_night (s : GameState) : result GameState :=
  Ok (clear_night_actions s).

Definition silent (s : GameState) : result GameState := Ok s.

Definition abstaining_vote (s : GameState) : result GameState :=
  run_vote_tally "no_elimination" 0 s
    (map (fun p => (player_id p, None)) (get_alive_players s)).

(** A fixed ranking standing for the interpreter's string hashes. *)
Definition hash0 (s : string) : Z := Z.of_nat (String.length s).

(** The count a [Counter] holds for a key ([c[k]], 0 when absent). *)
Definition counter_count (k : string) (c : dict nat) : nat :=
  match dict_get k c with
  | Some n => n
  | None => 0
  end.

(** A counter has one entry per key and holds no zero count. *)
Definition counter_wf (c : dict nat) : Prop :=
  NoDup (map fst c) /\ Forall (fun it => 1 <= snd it) c.

(** The non-null targets of the collected votes, in voting order. *)
Definition cast_targets (votes : dict (option string)) : list string :=
  flat_map (fun v => match v with Some t => [t] | None => [] end)
    (dict_values votes).

(* ================================================================== *)
(** * Further words on the night                                        *)
(* ================================================================== *)

Definition event_phase (e : GameEvent) : Phase :=
  match e with
  | BaseEvent _ ph _ | PhaseChangeEvent _ ph _ _ _ | SpeechEvent _ ph _ _ _ _
  | VoteEvent _ ph _ _ _ | VoteResultEvent _ ph _ _ _ _
  | EliminationEvent _ ph _ _ _ _ | AbilityUseEvent _ ph _ _ _ _
  | PrivateRevealEvent _ ph _ _ _ | NightResultEvent _ ph _ _ _ _
  | GameEndEvent _ ph _ _ _ _ | ReasoningEvent _ ph _ _ _ _ => ph
  end.

(** The private reveal an investigation of [target] by [actor] earns. *)
Definition reveal_to (state : GameState) (actor target : string)
  : list GameEvent :=
  match get_player state target with
  | Some tp =>
      [PrivateRevealEvent (day state) DAWN [] actor
         (name tp ++ " (" ++ target ++ ") is a " ++ role tp ++ ".")%string]
  | None => []
  end.

Definition reveal_of (state : GameState) (na : NightAction)
  : list GameEvent :=
  if na_ability na =? "investigate"
  then reveal_to state (na_player_id na) (na_target_id na) else [].

(** The reveals earned by the investigations recorded in [items] by
    players of the state, in the order of the dict. *)
Definition investigation_reveals_in (state : GameState)
  (items : dict Action) : list GameEvent :=
  flat_map
    (fun entry =>
       match snd entry with
       | UseAbilityAction _ _ ab target =>
           if ab =? "investigate" then
             match get_player state (fst entry) with
             | Some _ => reveal_to state (fst entry) target
             | None => []
             end
           else []
       | _ => []
       end)
    items.

Definition investigation_reveals (state : GameState) : list GameEvent :=
  investigation_reveals_in state (night_actions state).

(** The entry is an ability action of a player of the state. *)
Definition acts_at_night (state : GameState) (entry : string * Action)
  : bool :=
  match snd entry with
  | UseAbilityAction _ _ _ _ =>
      match get_player state (fst entry) with
      | Some _ => true
      | None => false
      end
  | _ => false
  end.

(** A jester, whose role no registry of the classic roles knows, acts. *)
Definition jester_state : GameState :=
  mkGameState 1 NIGHT
    [ slot "wolf1" "Wolf1" "werewolf" "werewolf" true;
      slot "jest1" "Jester" "jester" "village" true ]
    []
    [use "wolf1" "kill" "jest1"; use "jest1" "juggle" "wolf1"].

(** A night on which nobody uses an ability. *)
Definition idle_night : GameState :=
  five_player_state
    [("wolf1", NoAction "wolf1" [] "no_ability_used");
     ("doc1", NoAction "doc1" [] "no_ability_used");
     ("ghost", UseAbilityAction "ghost" [] "kill" "vil1")].

(* ================================================================== *)
(** * Further words on the day and on the setup                         *)
(* ================================================================== *)

(** The roles of the config, written out: every role as often as its
    count, in the order of the config. *)
Definition roles_in_order (roles : list (string * nat)) : list string :=
  flat_map (fun rc => repeat (fst rc) (snd rc)) roles.

(** The elimination [run_vote_result] announces for target [t]. *)
Definition vote_elimination (state : GameState) (t : string)
  (target : PlayerSlot) : GameEvent :=
  EliminationEvent (day state) DAY_VOTE_RESULT [] t (role target) "vote".

(** The day-vote-result step of [Game.run]: the transition, the lookup of
    the last vote result, and its application. *)
Definition day_vote_result_step (self_state : GameState) : GameState :=
  let s := _transition self_state DAY_VOTE_RESULT in
  match _last_vote_result s with
  | Some vote_result_event => run_vote_result s vote_result_event
  | None => s
  end.

(** A config of one wolf and one seer for three agents. *)
Definition small_config : list (string * nat) :=
  [("werewolf", 1%nat); ("seer", 1%nat)].

(** A day on which the wolves vote for the villager and the village for
    a wolf, the doctor abstaining: a tie of two against two. *)
Definition tied_day_votes : dict (option string) :=
  [("wolf1", Some "vil1"); ("wolf2", Some "vil1"); ("seer1", Some "wolf1");
   ("doc1", None); ("vil1", Some "wolf1")].

(* ================================================================== *)
(** * wolf/engine/moderator.py: the phase runners                       *)
(* ================================================================== *)

(** What awaiting [agent.run_phase(briefing, toolkit)] gives: an action,
    or an exception. *)
Inductive Reply : Type :=
| Returns (action : Action)
| Raises.

(** The loops in which the moderator calls the agents. *)
Inductive Stage : Type :=
| WolfChat
| NightAbility
| Discussion (round : nat)
| Vote.

(** What surrounds the moderator.  [agents] holds the keys of
    [self.agents]; [tool_factory] tells whether the moderator was given a
    tool factory and a briefing builder, and [knowledge_bases] holds the
    keys of the table of knowledge bases, which the moderator and its
    tool factory share.  An agent is called at most
    once per day, stage and turn of a loop: what it answers to the
    briefing, the random generator the briefing finds and the summary of
    the knowledge base are given per call.  [dawn_draw] and [vote_draw]
    are the integers [random.choice] draws on a day. *)
Record Table : Type := mkTable {
  agents : list string;
  tool_factory : bool;
  knowledge_bases : list string;
  run_phase : Z -> Stage -> nat -> string -> string -> Reply;
  rng_at : Z -> Stage -> nat -> Rng;
  kb_summary_at : Z -> Stage -> nat -> string;
  dawn_draw : Z -> nat;
  vote_draw : Z -> nat
}.

(** [d[k]] *)
Definition dict_getitem {V : Type} (k : string) (d : dict V) : result V :=
  match dict_get k d with
  | Some v => Ok v
  | None => Raise (KeyError k)
  end.

(** [enumerate(l)] *)
Definition enumerate {A : Type} (l : list A) : list (nat * A) :=
  combine (seq 0 (List.length l)) l.

(** A loop whose body may raise. *)
Fixpoint foldM {A B : Type} (f : A -> B -> result A) (l : list B) (a : A)
  : result A :=
  match l with
  | [] => Ok a
  | b :: l' => a' <- f a b ;; foldM f l' a'
  end.

(** [ToolFactory._build_common_tools]: the toolkit goes to the agent, and
    only the errors of building it are kept. *)
Definition _build_common_tools (tb : Table) (pid : string) : result unit :=
  if mem pid (knowledge_bases tb) then Ok tt else Raise (KeyError pid).

(** [ToolFactory.build_wolf_chat_toolkit], on the state the moderator has
    just stored in the factory. *)
Definition build_wolf_chat_toolkit (tb : Table) (state : GameState)
  (pid : string) : result unit :=
  let not_a_wolf :=
    ValueError
      ("Player " ++ pid
       ++ " is not a werewolf — cannot build wolf chat toolkit") in
  match get_player state pid with
  | Some player =>
      if team player =? "werewolf" then _build_common_tools tb pid
      else Raise not_a_wolf
  | None => Raise not_a_wolf
  end.

(** One turn of the loop of [Moderator._run_wolf_chat]. *)
Definition wolf_chat_turn (self : Moderator) (tb : Table)
  (wolf_names : dict string) (acc : GameState * list string)
  (it : nat * PlayerSlot) : result (GameState * list string) :=
  let '(state, prior_messages) := acc in
  let '(turn, wolf) := it in
  if negb (mem (player_id wolf) (agents tb)) then Ok acc
  else if negb (tool_factory tb) then Ok acc
  else
    let allies :=
      map snd
        (filter (fun kv => negb (fst kv =? player_id wolf)) wolf_names) in
    let briefing :=
      build_wolf_chat_briefing (briefing_builder self)
        (rng_at tb (day state) WolfChat turn) state (player_id wolf)
        (kb_summary_at tb (day state) WolfChat turn) allies
        prior_messages in
    toolkit <- build_wolf_chat_toolkit tb state (player_id wolf) ;;
    match run_phase tb (day state) WolfChat turn (player_id wolf) briefing
    with
    | Returns (SpeakAction _ _ content) =>
        if is_empty_str content then Ok acc
        else
          let event :=
            SpeechEvent (day state) NIGHT [] (player_id wolf) content
              "wolf" in
          said_by <- dict_getitem (player_id wolf) wolf_names ;;
          Ok (with_event state event,
              prior_messages ++ [(said_by ++ ": " ++ content)%string])
    | _ => Ok acc
    end.

Definition _run_wolf_chat (self : Moderator) (tb : Table)
  (state : GameState) (alive_wolves : list PlayerSlot)
  : result (GameState * list string) :=
  let wolf_names :=
    fold_left
      (fun d w => dict_set (player_id w) (Moderator_name self (player_id w)) d)
      alive_wolves [] in
  foldM (wolf_chat_turn self tb wolf_names) (enumerate alive_wolves)
    (state, []).

(** The night abilities of a role. *)
Definition night_abilities (r : Role) : list AbilityDefinition :=
  filter (fun a => Phase_eqb (ability_phase a) NIGHT) (abilities r).

(** What [run_night] records for the action it has got. *)
Definition recorded_night_action (pid : string) (action : Action) : Action :=
  match action with
  | UseAbilityAction _ _ _ _ => action
  | _ => NoAction pid [] "no_ability_used"
  end.

(** One turn of the second loop of [Moderator.run_night].  The lookup of
    the role and of its night abilities is that of [night_briefing_for];
    the briefing it returns is read only when there is a tool factory. *)
Definition night_turn (self : Moderator) (tb : Table)
  (wolf_chat_messages : list string) (state : GameState)
  (it : nat * PlayerSlot) : result GameState :=
  let '(turn, player) := it in
  briefing <-
    night_briefing_for self (rng_at tb (day state) NightAbility turn) state
      player (kb_summary_at tb (day state) NightAbility turn)
      wolf_chat_messages ;;
  match briefing with
  | None => Ok state
  | Some briefing =>
      if negb (mem (player_id player) (agents tb)) then Ok state
      else
        action <-
          (if tool_factory tb then
             toolkit <- _build_common_tools tb (player_id player) ;;
             match run_phase tb (day state) NightAbility turn
                     (player_id player) briefing with
             | Returns action => Ok action
             | Raises => Ok (NoAction (player_id player) [] "error")
             end
           else Ok (NoAction (player_id player) [] "no_toolkit")) ;;
        Ok (with_night_action state (player_id player)
              (recorded_night_action (player_id player) action))
  end.

(** [Moderator.run_night] *)
Definition run_night (self : Moderator) (tb : Table) (state : GameState)
  : result GameState :=
  let state := clear_night_actions state in
  chat <-
    (if allow_wolf_chat self then
       let alive_wolves :=
         filter (fun p => team p =? "werewolf") (get_alive_players state) in
       if (2 <=? List.length alive_wolves)%nat
       then _run_wolf_chat self tb state alive_wolves
       else Ok (state, [])
     else Ok (state, [])) ;;
  let '(state, wolf_chat_messages) := chat in
  foldM (night_turn self tb wolf_chat_messages)
    (enumerate (get_alive_players state)) state.

(** One turn of the inner loop of [Moderator.run_discussion]. *)
Definition discussion_turn (self : Moderator) (tb : Table) (round : nat)
  (acc : GameState * list (string * string)) (it : nat * PlayerSlot)
  : result (GameState * list (string * string)) :=
  let '(state, speeches_so_far) := acc in
  let '(turn, player) := it in
  if negb (is_alive player) then Ok acc
  else if negb (mem (player_id player) (agents tb)) then Ok acc
  else if negb (tool_factory tb) then Ok acc
  else
    briefing <-
      discussion_briefing_for self
        (rng_at tb (day state) (Discussion round) turn) state player
        (kb_summary_at tb (day state) (Discussion round) turn)
        speeches_so_far ;;
    toolkit <- _build_common_tools tb (player_id player) ;;
    match run_phase tb (day state) (Discussion round) turn
            (player_id player) briefing with
    | Returns (SpeakAction _ _ content) =>
        if is_empty_str content then Ok acc
        else
          let event :=
            SpeechEvent (day state) DAY_DISCUSSION [] (player_id player)
              content "public" in
          Ok (with_event state event,
              speeches_so_far
              ++ [(Moderator_name self (player_id player), content)])
    | _ => Ok acc
    end.

Definition discussion_round (self : Moderator) (tb : Table)
  (acc : GameState * list (string * string)) (round : nat)
  : result (GameState * list (string * string)) :=
  foldM (discussion_turn self tb round)
    (enumerate (get_alive_players (fst acc))) acc.

(** [Moderator.run_discussion]; [rounds] is
    [config.communication.discussion_rounds]. *)
Definition run_discussion (self : Moderator) (tb : Table) (rounds : Z)
  (state : GameState) : result GameState :=
  r <- foldM (discussion_round self tb) (seq 0 (Z.to_nat rounds))
         (state, []) ;;
  Ok (fst r).

(** What [run_vote] enters in [votes] for the action it has got. *)
Definition cast_vote (action : Action) : option string :=
  match action with
  | VoteAction _ _ target_id => target_id
  | _ => None
  end.

(** One turn of the first loop of [Moderator.run_vote]. *)
Definition vote_turn (self : Moderator) (tb : Table) (state : GameState)
  (votes : dict (option string)) (it : nat * PlayerSlot)
  : result (dict (option string)) :=
  let '(turn, player) := it in
  if negb (mem (player_id player) (agents tb)) then Ok votes
  else
    action <-
      (if tool_factory tb then
         briefing <-
           vote_briefing_for self (rng_at tb (day state) Vote turn) state
             player (kb_summary_at tb (day state) Vote turn) ;;
         toolkit <- _build_common_tools tb (player_id player) ;;
         match run_phase tb (day state) Vote turn (player_id player)
                 briefing with
         | Returns action => Ok action
         | Raises => Ok (VoteAction (player_id player) [] None)
         end
       else Ok (VoteAction (player_id player) [] None)) ;;
    Ok (dict_set (player_id player) (cast_vote action) votes).

(** The [votes] dict [run_vote] has collected when its first loop ends. *)
Definition collect_votes (self : Moderator) (tb : Table) (state : GameState)
  : result (dict (option string)) :=
  foldM (vote_turn self tb state) (enumerate (get_alive_players state)) [].

(** [Moderator.run_vote]; [tie_breaker] is [config.voting.tie_breaker]. *)
Definition run_vote (self : Moderator) (tb : Table) (tie_breaker : string)
  (state : GameState) : result GameState :=
  votes <- collect_votes self tb state ;;
  run_vote_tally tie_breaker (vote_draw tb (day state)) state votes.

(** [Moderator.run_reflection]: the agents are heard for their knowledge
    bases only, and the state is returned as it came. *)
Definition run_reflection (self : Moderator) (tb : Table)
  (state : GameState) (event_summary : string) : result GameState :=
  if negb (tool_factory tb) then Ok state
  else
    foldM (fun (s : GameState) (player : PlayerSlot) =>
             if negb (mem (player_id player) (agents tb)) then Ok s
             else if negb (mem (player_id player) (knowledge_bases tb))
             then Ok s
             else toolkit <- _build_common_tools tb (player_id player) ;;
                  Ok s)
      (get_alive_players state) state.

(* ================================================================== *)
(** * Words on the phase runners                                        *)
(* ================================================================== *)

(** The role of the player is registered and has a night ability. *)
Definition has_night_ability (reg : RoleRegistry) (p : PlayerSlot) : bool :=
  match dict_get (role p) reg with
  | Some r =>
      match night_abilities r with
      | [] => false
      | _ :: _ => true
      end
  | None => false
  end.

(** The id names a living player that has an agent. *)
Definition living_agent (tb : Table) (state : GameState) (pid : string)
  : Prop :=
  In pid (agents tb) /\ In pid (get_alive_player_ids state).

(** A speech of [pid] on [channel], made on the day and in the phase. *)
Definition is_speech_of (d : Z) (ph : Phase) (channel : string)
  (tb : Table) (state : GameState) (e : GameEvent) : Prop :=
  exists pid content,
    e = SpeechEvent d ph [] pid content channel
    /\ content <> "" /\ living_agent tb state pid.

(** The entry is an ability action, or the note that none was used. *)
Definition night_entry (pid : string) (a : Action) : Prop :=
  (exists actor md ability target,
      a = UseAbilityAction actor md ability target)
  \/ a = NoAction pid [] "no_ability_used".

(** Every living player has a registered role, every agent a knowledge
    base, and no two players share an id. *)
Definition table_ready (self : Moderator) (tb : Table) (state : GameState)
  : Prop :=
  Forall (fun p => dict_get (role p) (role_registry self) <> None)
    (get_alive_players state)
  /\ (forall pid, In pid (agents tb) -> In pid (knowledge_bases tb))
  /\ NoDup (map player_id (players state)).


(** The table of the pack of four: everybody has an agent and a knowledge
    base; the wolves propose Cy and name him at night, the seer looks at
    Ann, everybody says a word in the discussion and votes for Ann. *)
Definition pack_table : Table :=
  mkTable ["w1"; "w2"; "v1"; "v2"] true ["w1"; "w2"; "v1"; "v2"]
    (fun _ stage _ pid _ =>
       match stage with
       | WolfChat => Returns (SpeakAction pid [] "Cy tonight?")
       | NightAbility =>
           if pid =? "v2"
           then Returns (UseAbilityAction pid [] "investigate" "w1")
           else Returns (UseAbilityAction pid [] "kill" "v1")
       | Discussion _ => Returns (SpeakAction pid [] "I am a villager.")
       | Vote => Returns (VoteAction pid [] (Some "w1"))
       end)
    (fun _ _ _ => rng0) (fun _ _ _ => "") (fun _ => 0%nat) (fun _ => 0%nat).


(** Who said what, for a speech event. *)
Definition speech_pair (e : GameEvent) : string * string :=
  match e with
  | SpeechEvent _ _ _ pid content _ => (pid, content)
  | _ => ("", "")
  end.

(** A speech of the discussion of the day of [state], by a living player
    that has an agent. *)
Definition discussion_speech_of (tb : Table) (state : GameState)
  (e : GameEvent) : Prop :=
  exists p content,
    In p (get_alive_players state)
    /\ In (player_id p) (agents tb) /\ content <> ""
    /\ e = SpeechEvent (day state) DAY_DISCUSSION [] (player_id p) content
             "public".


(* ================================================================== *)
(** * wolf/engine/game.py: the game with its moderator                  *)
(* ================================================================== *)

(** The moderator [Game.run] builds is given neither a tool factory nor a
    briefing builder. *)
Definition without_tool_factory (tb : Table) : Table :=
  mkTable (agents tb) false (knowledge_bases tb) (run_phase tb) (rng_at tb)
    (kb_summary_at tb) (dawn_draw tb) (vote_draw tb).

(** [Game.run]: the setup, then the loop with the runners of its
    moderator.  [roles], [rounds], [tie_breaker] and [max_days] are the
    fields of the config.  The agents are told of the start and of the
    end of the game; what they raise there is logged and dropped. *)
Definition Game_run (self : Moderator) (tb : Table) (str_hash : string -> Z)
  (roles : list (string * nat)) (rounds : Z) (tie_breaker : string)
  (max_days : Z) : result (GameState * GameEvent) :=
  setup <- _setup_players (role_registry self) roles (agents tb) ;;
  let moderator := without_tool_factory tb in
  run (run_night self moderator) (run_discussion self moderator rounds)
    (run_vote self moderator tie_breaker)
    (fun day s =>
       run_dawn (role_registry self) str_hash (dawn_draw tb day) s)
    max_days setup.

(* ================================================================== *)
(** * wolf/session/runner.py: the game loop of a session                *)
(* ================================================================== *)

(** [id_to_name.get(k, k)] *)
Definition name_in (id_to_name : dict string) (k : string) : string :=
  match dict_get k id_to_name with
  | Some n => n
  | None => k
  end.

(** One turn of the loop of [_build_event_summary]. *)
Definition summary_part (id_to_name : dict string) (event : GameEvent)
  : list string :=
  match event with
  | NightResultEvent _ _ _ kills _ saved =>
      match kills with
      | [] => []
      | _ :: _ =>
          let text :=
            ("During the night, "
             ++ join ", " (map (name_in id_to_name) kills)
             ++ " were killed.")%string in
          match saved with
          | [] => [text]
          | _ :: _ =>
              [(text ++ " " ++ join ", " (map (name_in id_to_name) saved)
                ++ " were saved by the doctor.")%string]
          end
      end
  | EliminationEvent _ _ _ pid role cause =>
      [(name_in id_to_name pid ++ " was eliminated (role: " ++ role
        ++ ", cause: " ++ cause ++ ").")%string]
  | VoteResultEvent _ _ _ _ eliminated_id tie =>
      if negb (is_empty_str (truthy_str eliminated_id)) then
        [("The vote resulted in "
          ++ name_in id_to_name (truthy_str eliminated_id)
          ++ " being eliminated.")%string]
      else if tie then ["The vote was a tie -- no one was eliminated."]
      else ["No one received enough votes to be eliminated."]
  | _ => []
  end.

Definition _build_event_summary (state : GameState)
  (events : list GameEvent) (id_to_name : dict string) : string :=
  match flat_map (summary_part id_to_name) events with
  | [] => "Nothing notable happened."
  | _ :: _ as parts => join nl parts
  end.

Section SessionLoop.

Variable self : Moderator.
Variable tb : Table.
Variable str_hash : string -> Z.
Variable rounds : Z.
Variable tie_breaker : string.
Variable max_days : Z.

(** The reflection on the events the log has gained since it counted
    [count] events. *)
Definition reflect_on (state : GameState) (count : nat) : result GameState :=
  let id_to_name :=
    if tool_factory tb then tool_factory_id_to_name self else [] in
  match skipn count (events state) with
  | [] => Ok state
  | _ :: _ as new_events =>
      run_reflection self tb state
        (_build_event_summary state new_events id_to_name)
  end.

(** The end a game finds at the last day. *)
Definition draw : GameEvent :=
  GameEndEvent max_days SETUP [] "draw" []
    ("Game reached maximum of " ++ str_of_Z max_days ++ " days.").

(** [for day in range(1, config.max_days + 1)], on the number of days
    that remain; the state the loop has reached goes with the end it
    returns. *)
Fixpoint game_days (remaining : nat) (day : Z) (state : GameState)
  : result (GameState * GameEvent) :=
  match remaining with
  | O => Ok (state, draw)
  | S remaining' =>
      let state := with_day state day in
      let state := with_phase state NIGHT in
      state <- run_night self tb state ;;
      let state := with_phase state DAWN in
      let pre_dawn_count := List.length (events state) in
      state <-
        run_dawn (role_registry self) str_hash (dawn_draw tb day) state ;;
      match check_victory state with
      | Some ending => Ok (state, ending)
      | None =>
          state <- reflect_on state pre_dawn_count ;;
          let state := with_phase state DAY_DISCUSSION in
          state <- run_discussion self tb rounds state ;;
          let state := with_phase state DAY_VOTE in
          let pre_vote_count := List.length (events state) in
          state <- run_vote self tb tie_breaker state ;;
          let state :=
            match find is_vote_result (rev (events state)) with
            | Some vote_result_event =>
                run_vote_result (with_phase state DAY_VOTE_RESULT)
                  vote_result_event
            | None => state
            end in
          match check_victory state with
          | Some ending => Ok (state, ending)
          | None =>
              state <- reflect_on state pre_vote_count ;;
              game_days remaining' (day + 1) state
          end
      end
  end.

Definition _run_game_loop (state : GameState)
  : result (GameState * GameEvent) :=
  game_days (Z.to_nat max_days) 1 state.

End SessionLoop.

(* ================================================================== *)
(** * Words on a whole game                                             *)
(* ================================================================== *)

(** The seat of a player stays what it is, but for the life flag, which
    may only fall. *)
Definition same_seat (p p' : PlayerSlot) : Prop :=
  player_id p' = player_id p /\ name p' = name p /\ role p' = role p
  /\ team p' = team p /\ metadata p' = metadata p
  /\ (is_alive p' = true -> is_alive p = true).

(** From [s] to [s'] the seats stay, the dead stay dead and the log only
    grows. *)
Definition evolves (s s' : GameState) : Prop :=
  Forall2 same_seat (players s) (players s')
  /\ exists l, events s' = events s ++ l.

(** The end [Game.run] declares when the days are used up. *)
Definition days_used_up (max_days : Z) (s : GameState) : GameEvent :=
  GameEndEvent (Z.max 0 max_days) (phase s) [] "werewolf"
    (map player_id (get_players_by_team s "werewolf"))
    ("Game exceeded the maximum of " ++ str_of_Z max_days ++ " days.").

(** The seats of [s] at the dawn of the day after day [d]. *)
Definition at_first_dawn (d : Z) (s : GameState) : GameState :=
  mkGameState (d + 1) DAWN (players s) [] [].


(* ================================================================== *)
(** * wolf/session/runner.py: the seating of a session                  *)
(* ================================================================== *)

(** [role_list] once padded with villagers and cut at [num_players]. *)
Definition padded_roles (roles : list (string * nat)) (num_players : nat)
  : list string :=
  let role_list := flat_map (fun rc => repeat (fst rc) (snd rc)) roles in
  firstn num_players
    (role_list ++ repeat "villager" (num_players - List.length role_list)).

(** The names of [player_configs] once padded with [Player_<idx>]. *)
Definition padded_names (names : list string) (num_players : nat)
  : list string :=
  names
  ++ map (fun idx => ("Player_" ++ str_of_Z (Z.of_nat idx))%string)
       (seq (List.length names + 1) (num_players - List.length names)).

(** The loop over [enumerate(zip(role_list, player_configs))], from
    index [i]. *)
Fixpoint assign_slots (reg : RoleRegistry) (i : nat)
  (pairs : list (string * string)) : result (list PlayerSlot) :=
  match pairs with
  | [] => Ok []
  | (role_name, pc_name) :: pairs' =>
      role_instance <- RoleRegistry_get reg role_name ;;
      let slot :=
        mkPlayerSlot ("p" ++ str_of_Z (Z.of_nat (i + 1))) pc_name role_name
          (role_team role_instance) true [] in
      rest <- assign_slots reg (S i) pairs' ;;
      Ok (slot :: rest)
  end.

(** [_assign_roles]: the slots and the role assignments; [names] are the
    names of the players of the config. *)
Definition _assign_roles (reg : RoleRegistry) (roles : list (string * nat))
  (num_players : nat) (names : list string) (rng : Rng)
  : result (list PlayerSlot * dict string) :=
  let role_list := padded_roles roles num_players in
  let role_list := fst (random_shuffle rng role_list) in
  let player_configs := padded_names names num_players in
  player_slots <- assign_slots reg 0 (combine role_list player_configs) ;;
  Ok (player_slots, map (fun ps => (player_id ps, role ps)) player_slots).

(** The state [GameRunner.run] hands to the moderator. *)
Definition session_start (player_slots : list PlayerSlot) : GameState :=
  mkGameState 0 SETUP player_slots [] [].


(* ================================================================== *)
(** * wolf/agents/tool_factory.py: the handlers of the action tools     *)
(* ================================================================== *)

Record ToolFactory : Type := mkToolFactory {
  tf_state : GameState;
  tf_id_to_name : dict string;
  tf_name_to_id : dict string;
  tf_randomize_names : bool
}.

(** [ToolFactory._name] and [ToolFactory._shuffle] *)
Definition tf_name (self : ToolFactory) (pid : string) : string :=
  match dict_get pid (tf_id_to_name self) with
  | Some n => n
  | None => pid
  end.

Definition tf_shuffle (self : ToolFactory) (rng : Rng) (names : list string)
  : list string :=
  if tf_randomize_names self then fst (random_shuffle rng names) else names.

(** The text functions the handlers pass their argument through are
    parameters: [strip] is [str.strip()], [strip_quotes] strips the
    single and double quotes around the text, [lower] is [str.lower()],
    and [_extract_from_json] is the JSON unwrapping of the factory. *)
Section Handlers.

Variable _extract_from_json : string -> string.
Variable strip : string -> string.
Variable strip_quotes : string -> string.
Variable lower : string -> string.

Variable self : ToolFactory.

(** [for pname, pid in self._name_to_id.items(): if test(pname): return
    pid] *)
Definition first_id (test : string -> bool) : option string :=
  match find (fun kv => test (fst kv)) (tf_name_to_id self) with
  | Some (_, pid) => Some pid
  | None => None
  end.

Definition _resolve_name (name_or_id : string) : option string :=
  let name_or_id := _extract_from_json name_or_id in
  let name_or_id := strip (strip_quotes (strip name_or_id)) in
  if mem name_or_id (dict_keys (tf_id_to_name self)) then Some name_or_id
  else
    let name_lower := lower name_or_id in
    match first_id (fun pname => lower pname =? name_lower) with
    | Some pid => Some pid
    | None =>
        first_id (fun pname =>
                    contains name_lower (lower pname)
                    || contains (lower pname) name_lower)
    end.

(** The names of the living players other than [player_id], as the
    handlers list them to a caller that named nobody. *)
Definition other_alive_names (rng : Rng) (pid : string) : list string :=
  tf_shuffle self rng
    (map (fun p => tf_name self (player_id p))
       (filter (fun p => negb (player_id p =? pid))
          (get_alive_players (tf_state self)))).

(** The handler of the tool [vote] that [build_vote_toolkit] registers
    for [player_id]. *)
Definition vote (rng : Rng) (player_id : string) (args : string) : Action :=
  let target_raw := strip (_extract_from_json args) in
  if is_empty_str target_raw
     || mem (lower target_raw) ["no_one"; "no one"; "none"; "abstain"]
  then VoteAction player_id [] None
  else
    match _resolve_name target_raw with
    | None =>
        NoAction player_id []
          ("invalid_vote_target:" ++ target_raw ++ ". Valid: "
           ++ join ", " (other_alive_names rng player_id))
    | Some target_pid =>
        match get_player (tf_state self) target_pid with
        | None =>
            NoAction player_id [] ("target_not_alive:" ++ target_raw)
        | Some player =>
            if negb (is_alive player) then
              NoAction player_id [] ("target_not_alive:" ++ target_raw)
            else if target_pid =? player_id then
              NoAction player_id [] "cannot_vote_self"
            else VoteAction player_id [] (Some target_pid)
        end
    end.

(** The handler of the tool [use_ability] that [build_night_toolkit]
    registers for [player_id] and a non-empty [ability_name]. *)
Definition use_ability (rng : Rng) (player_id ability_name : string)
  (args : string) : Action :=
  let target_raw := strip (_extract_from_json args) in
  if is_empty_str target_raw then
    NoAction player_id [] "no_target_specified"
  else
    match _resolve_name target_raw with
    | None =>
        NoAction player_id []
          ("invalid_target:" ++ target_raw ++ ". Valid: "
           ++ join ", " (other_alive_names rng player_id))
    | Some target_pid =>
        match get_player (tf_state self) target_pid with
        | None =>
            NoAction player_id [] ("target_not_alive:" ++ target_raw)
        | Some player =>
            if negb (is_alive player) then
              NoAction player_id [] ("target_not_alive:" ++ target_raw)
            else UseAbilityAction player_id [] ability_name target_pid
        end
    end.

End Handlers.


(* ================================================================== *)
(** * wolf/agents/toolkit.py and the vote toolkit of the factory        *)
(* ================================================================== *)

(** What a handler returns: a text, or an action. *)
Inductive HandlerResult : Type :=
| Text (output : string)
| Acted (action : Action).

Record ToolDefinition : Type := mkToolDefinition {
  t_name : string;
  t_description : string;
  t_parameters : string;
  t_is_terminal : bool;
  t_handler : string -> result HandlerResult
}.

Record ToolResult : Type := mkToolResult {
  r_tool_name : string;
  r_output : string;
  r_is_terminal : bool;
  r_action : option Action
}.

(** [AgentToolkit._tools] and [AgentToolkit.register] *)
Definition AgentToolkit : Type := dict ToolDefinition.

Definition toolkit_register (toolkit : AgentToolkit) (tool : ToolDefinition)
  : AgentToolkit :=
  dict_set (t_name tool) tool toolkit.

Definition get_terminal_tools (toolkit : AgentToolkit) : list ToolDefinition :=
  filter t_is_terminal (dict_values toolkit).

Section Toolkit.

(** Python's [str.strip], [sorted] on strings, and [str] of an exception
    and of an action. *)
Variable strip : string -> string.
Variable sorted : list string -> list string.
Variable str_of_exn : exn -> string.
Variable str_of_action : Action -> string.

(** [AgentToolkit.invoke] *)
Definition invoke (toolkit : AgentToolkit) (tool_name args : string)
  : ToolResult :=
  match dict_get tool_name toolkit with
  | None =>
      mkToolResult tool_name
        ("Error: unknown tool '" ++ tool_name ++ "'. Available tools: "
         ++ join ", " (sorted (dict_keys toolkit)))
        false None
  | Some tool =>
      match t_handler tool (strip args) with
      | Raise exc =>
          mkToolResult tool_name
            ("Error invoking " ++ tool_name ++ ": " ++ str_of_exn exc)
            false None
      | Ok result =>
          if t_is_terminal tool then
            match result with
            | Acted action =>
                mkToolResult tool_name
                  ("[Action submitted: " ++ tool_name ++ "]") true
                  (Some action)
            | Text output =>
                mkToolResult tool_name
                  ("Error: terminal tool " ++ tool_name
                   ++ " did not return an Action: " ++ output)
                  false None
            end
          else
            match result with
            | Text output => mkToolResult tool_name output false None
            | Acted action =>
                mkToolResult tool_name (str_of_action action) false None
            end
      end
  end.

End Toolkit.

Section VoteToolkit.

Variable _extract_from_json : string -> string.
Variable strip : string -> string.
Variable strip_quotes : string -> string.
Variable lower : string -> string.

(** The text an information tool returns for its argument; it reads the
    state and the knowledge base of the player. *)
Variable information : string -> string -> string.

Variable self : ToolFactory.
Variable knowledge_bases : list string.

Definition information_tool (tool_name description parameters : string)
  : ToolDefinition :=
  mkToolDefinition tool_name description parameters false
    (fun args => Ok (Text (information tool_name args))).

(** [ToolFactory._build_common_tools] *)
Definition common_tools (player_id : string) : result (list ToolDefinition) :=
  if negb (mem player_id knowledge_bases) then Raise (KeyError player_id)
  else
    Ok [ information_tool "get_alive_players"
           "List all currently alive player names." "";
         information_tool "get_all_players"
           "List all players with their alive/eliminated status." "";
         information_tool "get_day_events"
           "Get public events from the current day (night results, eliminations, etc.)."
           "";
         information_tool "get_vote_history"
           "View all past votes and results from previous days." "";
         information_tool "read_notes"
           "Read your personal scratchpad notes." "";
         information_tool "write_notes"
           "Append a note to your personal scratchpad." "text";
         information_tool "assess_player"
           "Record your assessment of a player. Format: 'player_name: assessment text'"
           "name: text";
         information_tool "read_assessments"
           "Read all your player assessments." "";
         mkToolDefinition "pass_turn"
           "Skip your turn / end your reflection." "" true
           (fun _ => Ok (Acted (NoAction player_id [] "pass_turn"))) ].

(** [ToolFactory.build_vote_toolkit] *)
Definition build_vote_toolkit (rng : Rng) (player_id : string)
  : result AgentToolkit :=
  tools <- common_tools player_id ;;
  let toolkit := fold_left toolkit_register tools [] in
  Ok (toolkit_register toolkit
        (mkToolDefinition "vote"
           "Vote to eliminate a player. Use 'no_one' to abstain."
           "player_name" true
           (fun args =>
              Ok (Acted (vote _extract_from_json strip strip_quotes lower
                           self rng player_id args))))).

End VoteToolkit.


(* ================================================================== *)
(** * wolf/comms: channels, messages and the channel manager            *)
(* ================================================================== *)

Inductive Channel : Type :=
| PublicChannel (_player_ids : list string)
| WolfChannel (_wolf_ids : list string)
| DirectMessageChannel (_player1 _player2 : string)
    (_allowed_phases : list Phase).

(** [Channel.name]; the two members of a direct channel are sorted, and a
    channel of a player with itself has one member only. *)
Definition channel_name (ch : Channel) : result string :=
  match ch with
  | PublicChannel _ => Ok "public"
  | WolfChannel _ => Ok "wolf"
  | DirectMessageChannel p1 p2 _ =>
      if p1 =? p2 then Raise IndexError
      else if (p1 <=? p2)%string
      then Ok ("dm:" ++ p1 ++ ":" ++ p2)%string
      else Ok ("dm:" ++ p2 ++ ":" ++ p1)%string
  end.

Definition channel_members (ch : Channel) (pid : string) : bool :=
  match ch with
  | PublicChannel ids => mem pid ids
  | WolfChannel ids => mem pid ids
  | DirectMessageChannel p1 p2 _ => (pid =? p1) || (pid =? p2)
  end.

Definition can_send (ch : Channel) (pid : string) (ph : Phase) : bool :=
  match ch with
  | PublicChannel ids => mem pid ids && Phase_eqb ph DAY_DISCUSSION
  | WolfChannel ids => mem pid ids && Phase_eqb ph NIGHT
  | DirectMessageChannel p1 p2 allowed =>
      ((pid =? p1) || (pid =? p2)) && existsb (Phase_eqb ph) allowed
  end.

Definition can_read (ch : Channel) (pid : string) (ph : Phase) : bool :=
  channel_members ch pid.

Record Message : Type := mkMessage {
  m_sender_id : string;
  m_channel : string;
  m_content : string;
  m_day : Z;
  m_phase_name : string;
  m_visible_to : list string;
  m_metadata : Metadata
}.

Record ChannelManager : Type := mkChannelManager {
  _channels : dict Channel;
  _messages : list Message
}.

(** [Phase[phase_name]] *)
Definition phase_named (phase_name : string) : option Phase :=
  if phase_name =? "SETUP" then Some SETUP
  else if phase_name =? "NIGHT" then Some NIGHT
  else if phase_name =? "DAWN" then Some DAWN
  else if phase_name =? "DAY_DISCUSSION" then Some DAY_DISCUSSION
  else if phase_name =? "DAY_VOTE" then Some DAY_VOTE
  else if phase_name =? "DAY_VOTE_RESULT" then Some DAY_VOTE_RESULT
  else if phase_name =? "GAME_OVER" then Some GAME_OVER
  else None.

(** The pairs of the loops [for i, p1 in enumerate(player_ids): for p2 in
    player_ids[i + 1:]]. *)
Fixpoint dm_pairs (player_ids : list string) : list (string * string) :=
  match player_ids with
  | [] => []
  | p1 :: rest => map (pair p1) rest ++ dm_pairs rest
  end.

Definition register_dm (channels : dict Channel) (players : string * string)
  : result (dict Channel) :=
  let dm := DirectMessageChannel (fst players) (snd players) [DAY_DISCUSSION] in
  dm_name <- channel_name dm ;;
  Ok (dict_set dm_name dm channels).

(** [ChannelManager.create_channels] *)
Definition create_channels (self : ChannelManager)
  (player_ids wolf_ids : list string) (allow_wolf_chat allow_dms : bool)
  : result ChannelManager :=
  let channels := dict_set "public" (PublicChannel player_ids) [] in
  let channels :=
    if allow_wolf_chat then dict_set "wolf" (WolfChannel wolf_ids) channels
    else channels in
  channels <-
    (if allow_dms then foldM register_dm (dm_pairs player_ids) channels
     else Ok channels) ;;
  Ok (mkChannelManager channels (_messages self)).

(** [ChannelManager.broadcast] *)
Definition broadcast (self : ChannelManager) (message : Message)
  : ChannelManager :=
  mkChannelManager (_channels self) (_messages self ++ [message]).

(** One turn of the loop of [ChannelManager.get_visible_messages]. *)
Definition message_visible (self : ChannelManager) (pid : string)
  (ph : Phase) (msg : Message) : bool :=
  match dict_get (m_channel msg) (_channels self) with
  | None => m_channel msg =? "public"
  | Some channel =>
      if negb (can_read channel pid ph) then false
      else
        match m_visible_to msg with
        | [] => true
        | _ :: _ => mem pid (m_visible_to msg)
        end
  end.

Definition get_visible_messages (self : ChannelManager) (pid : string)
  (ph : Phase) : list Message :=
  filter (message_visible self pid ph) (_messages self).

Section Sending.

(** Python's [str.upper]. *)
Variable upper : string -> string.

Definition _phase_from_name (phase_name : string) : option Phase :=
  if is_empty_str phase_name then None
  else
    match phase_named phase_name with
    | Some ph => Some ph
    | None => phase_named (upper phase_name)
    end.

(** [ChannelManager.send]: whether the message was accepted, and the
    manager afterwards. *)
Definition send (self : ChannelManager) (message : Message)
  : bool * ChannelManager :=
  match dict_get (m_channel message) (_channels self) with
  | None => (false, self)
  | Some channel =>
      match _phase_from_name (m_phase_name message) with
      | None => (false, self)
      | Some ph =>
          if negb (can_send channel (m_sender_id message) ph)
          then (false, self)
          else (true, broadcast self message)
      end
  end.

(** What reaches the manager: a message sent, or a message broadcast. *)
Inductive Traffic : Type :=
| Sent (message : Message)
| Broadcast (message : Message).

Definition deliver (self : ChannelManager) (t : Traffic) : ChannelManager :=
  match t with
  | Sent message => snd (send self message)
  | Broadcast message => broadcast self message
  end.

End Sending.

(* ================================================================== *)
(** * Lemmas on the Python runtime                                      *)
(* ================================================================== *)

Section Runtime.

Lemma mem_In (x : string) (l : list string) : mem x l = true <-> In x l.
Proof.
  induction l as [|y l IH]; simpl.
  - split; [discriminate | tauto].
  - destruct (String.eqb_spec y x) as [->|Hne].
    + split; auto.
    + rewrite IH. split; [auto | intros [H|H]; [contradiction | exact H]].
Qed.

Lemma mem_false_In (x : string) (l : list string) :
  mem x l = false <-> ~ In x l.
Proof.
  rewrite <- mem_In. destruct (mem x l); split; intros; congruence.
Qed.

Lemma count_occ_str_app (x : string) (l1 l2 : list string) :
  count_occ_str x (l1 ++ l2) = count_occ_str x l1 + count_occ_str x l2.
Proof.
  induction l1 as [|y l1 IH]; simpl; [reflexivity | rewrite IH; lia].
Qed.

Lemma count_occ_str_perm (x : string) (l1 l2 : list string) :
  Permutation l1 l2 -> count_occ_str x l1 = count_occ_str x l2.
Proof.
  induction 1; simpl; lia.
Qed.

Lemma count_occ_str_pos (x : string) (l : list string) :
  0 < count_occ_str x l <-> In x l.
Proof.
  induction l as [|y l IH]; simpl.
  - split; [lia | tauto].
  - destruct (String.eqb_spec y x) as [->|Hne].
    + split; [auto | lia].
    + simpl. rewrite IH. split; [auto | intros [H|H]; [contradiction | exact H]].
Qed.

Lemma count_occ_str_le_length (x : string) (l : list string) :
  count_occ_str x l <= List.length l.
Proof.
  induction l as [|y l IH]; simpl; [lia | destruct (y =? x); lia].
Qed.

(** Two different targets share the votes. *)
Lemma count_occ_str_two (x y : string) (l : list string) :
  x <> y -> count_occ_str x l + count_occ_str y l <= List.length l.
Proof.
  intros Hxy. induction l as [|z l IH]; simpl; [lia|].
  destruct (String.eqb_spec z x) as [Hzx|Hzx];
    destruct (String.eqb_spec z y) as [Hzy|Hzy]; try lia.
  congruence.
Qed.

(** ** The stable sort *)

Lemma insert_sorted_perm {A : Type} (key : A -> Z) (x : A) (l : list A) :
  Permutation (x :: l) (insert_sorted key x l).
Proof.
  induction l as [|y l IH]; simpl; [reflexivity|].
  destruct (key x <=? key y)%Z; [reflexivity|].
  rewrite perm_swap. now constructor.
Qed.

Lemma stable_sort_perm {A : Type} (key : A -> Z) (l : list A) :
  Permutation l (stable_sort key l).
Proof.
  induction l as [|x l IH]; simpl; [constructor|].
  rewrite <- insert_sorted_perm. now constructor.
Qed.

Inductive sorted_by {A : Type} (key : A -> Z) : list A -> Prop :=
| sorted_nil : sorted_by key []
| sorted_cons x l :
    Forall (fun y => (key x <= key y)%Z) l -> sorted_by key l ->
    sorted_by key (x :: l).

Lemma insert_sorted_sorted {A : Type} (key : A -> Z) (x : A) (l : list A) :
  sorted_by key l -> sorted_by key (insert_sorted key x l).
Proof.
  induction 1 as [|y l Hy Hl IH]; simpl.
  - repeat constructor.
  - destruct (Z.leb_spec (key x) (key y)) as [Hle|Hlt].
    + constructor; [|now constructor].
      constructor; [exact Hle|].
      eapply Forall_impl; [|exact Hy]. simpl; intros; lia.
    + constructor; [|exact IH].
      eapply Permutation_Forall; [apply insert_sorted_perm|].
      constructor; [lia | exact Hy].
Qed.

Lemma stable_sort_sorted {A : Type} (key : A -> Z) (l : list A) :
  sorted_by key (stable_sort key l).
Proof.
  induction l as [|x l IH]; simpl;
    [constructor | now apply insert_sorted_sorted].
Qed.

(** Stability: the elements of one key keep their order. *)
Lemma insert_sorted_filter {A : Type} (key : A -> Z) (k : Z) (x : A)
  (l : list A) :
  sorted_by key l ->
  filter (fun y => (key y =? k)%Z) (insert_sorted key x l)
  = filter (fun y => (key y =? k)%Z) (x :: l).
Proof.
  induction 1 as [|y l Hy Hl IH]; [reflexivity|].
  cbn [insert_sorted].
  destruct (Z.leb_spec (key x) (key y)) as [Hle|Hlt]; [reflexivity|].
  cbn [filter] in *. rewrite IH.
  destruct (Z.eqb_spec (key y) k) as [Hyk|Hyk];
    destruct (Z.eqb_spec (key x) k) as [Hxk|Hxk]; try reflexivity.
  lia.
Qed.

Lemma stable_sort_stable {A : Type} (key : A -> Z) (k : Z) (l : list A) :
  filter (fun y => (key y =? k)%Z) (stable_sort key l)
  = filter (fun y => (key y =? k)%Z) l.
Proof.
  induction l as [|x l IH]; [reflexivity|].
  cbn [stable_sort fold_right].
  rewrite insert_sorted_filter by apply stable_sort_sorted.
  cbn [filter]. unfold stable_sort in IH. now rewrite IH.
Qed.

Lemma set_to_list_In (h : string -> Z) (s : pyset) (x : string) :
  In x (set_to_list h s) <-> In x s.
Proof.
  unfold set_to_list. split; apply Permutation_in;
    [symmetry|]; apply stable_sort_perm.
Qed.

Lemma set_add_In (x y : string) (s : pyset) :
  In y (set_add x s) <-> y = x \/ In y s.
Proof.
  unfold set_add. destruct (mem x s) eqn:E.
  - apply mem_In in E. split; [auto | intros [->|H]; auto].
  - rewrite in_app_iff. simpl. split; [intros [H|[H|[]]]|intros [H|H]]; auto.
Qed.

Lemma set_add_NoDup (x : string) (s : pyset) :
  NoDup s -> NoDup (set_add x s).
Proof.
  intros Hs. unfold set_add. destruct (mem x s) eqn:E; [exact Hs|].
  apply mem_false_In in E.
  apply (Permutation_NoDup (l := x :: s)).
  - apply Permutation_cons_append.
  - now constructor.
Qed.

End Runtime.

(* ================================================================== *)
(** * Counters and the agreement threshold                              *)
(* ================================================================== *)

Section Counters.

Lemma counter_incr_keys (k x : string) (c : dict nat) :
  In x (map fst (counter_incr k c)) <-> x = k \/ In x (map fst c).
Proof.
  induction c as [|[k' n] c IH]; simpl.
  - split; [intros [H|[]]; auto | intros [H|[]]; auto].
  - destruct (String.eqb_spec k' k) as [->|Hne]; simpl.
    + split; [intros [H|H]; auto | intros [H|[H|H]]; auto].
    + rewrite IH. split; [intros [H|[H|H]]; auto | intros [H|[H|H]]; auto].
Qed.

Lemma counter_incr_wf (k : string) (c : dict nat) :
  counter_wf c -> counter_wf (counter_incr k c).
Proof.
  intros [Hnd Hpos]. induction c as [|[k' n] c IH]; simpl.
  - split; repeat constructor; auto.
  - inversion Hnd as [|? ? Hnotin Hnd']; subst.
    inversion Hpos as [|? ? Hn Hpos']; subst.
    destruct (String.eqb_spec k' k) as [->|Hne].
    + split; simpl; [now constructor | constructor; simpl in *; auto; lia].
    + destruct (IH Hnd' Hpos') as [IH1 IH2].
      split; simpl; [|now constructor].
      constructor; [|exact IH1].
      rewrite counter_incr_keys. intros [H|H]; [congruence|contradiction].
Qed.

Lemma counter_incr_count (k x : string) (c : dict nat) :
  counter_count x (counter_incr k c)
  = counter_count x c + (if k =? x then 1 else 0).
Proof.
  unfold counter_count. induction c as [|[k' n] c IH]; simpl.
  - destruct (k =? x); reflexivity.
  - destruct (String.eqb_spec k' k) as [->|Hne]; simpl.
    + destruct (k =? x); lia.
    + destruct (String.eqb_spec k' x) as [->|Hne'].
      * destruct (String.eqb_spec k x); [congruence | lia].
      * exact IH.
Qed.

Lemma counter_fold_wf (l : list string) (c : dict nat) :
  counter_wf c -> counter_wf (fold_left (fun c k => counter_incr k c) l c).
Proof.
  revert c. induction l as [|k l IH]; intros c Hc; simpl; [exact Hc|].
  apply IH, counter_incr_wf, Hc.
Qed.

Lemma counter_fold_count (x : string) (l : list string) (c : dict nat) :
  counter_count x (fold_left (fun c k => counter_incr k c) l c)
  = counter_count x c + count_occ_str x l.
Proof.
  revert c. induction l as [|k l IH]; intros c; simpl; [lia|].
  rewrite IH, counter_incr_count. lia.
Qed.

Lemma Counter_wf (l : list string) : counter_wf (Counter l).
Proof.
  apply counter_fold_wf. split; constructor.
Qed.

Lemma Counter_count (x : string) (l : list string) :
  counter_count x (Counter l) = count_occ_str x l.
Proof.
  unfold Counter. now rewrite counter_fold_count.
Qed.

Lemma counter_In_count (k : string) (n : nat) (c : dict nat) :
  NoDup (map fst c) -> In (k, n) c -> counter_count k c = n.
Proof.
  unfold counter_count. induction c as [|[k' n'] c IH]; simpl; [tauto|].
  intros Hnd [Heq|Hin].
  - inversion Heq; subst. now rewrite String.eqb_refl.
  - inversion Hnd as [|? ? Hnotin Hnd']; subst.
    destruct (String.eqb_spec k' k) as [->|Hne].
    + exfalso. apply Hnotin. now apply (in_map fst) in Hin.
    + now apply IH.
Qed.

Lemma counter_count_In (k : string) (c : dict nat) :
  1 <= counter_count k c -> In (k, counter_count k c) c.
Proof.
  unfold counter_count. induction c as [|[k' n'] c IH]; simpl; [lia|].
  destruct (String.eqb_spec k' k) as [->|Hne]; auto.
Qed.

(** The items of [Counter(l)] are the targets of [l] with their counts. *)
Lemma Counter_In (k : string) (n : nat) (l : list string) :
  In (k, n) (Counter l) <-> n = count_occ_str k l /\ 1 <= n.
Proof.
  destruct (Counter_wf l) as [Hnd Hpos]. split.
  - intros Hin. split.
    + rewrite <- Counter_count. symmetry. now apply counter_In_count.
    + rewrite Forall_forall in Hpos. exact (Hpos _ Hin).
  - intros [-> Hn]. rewrite <- Counter_count in *. now apply counter_count_In.
Qed.

Lemma Counter_nonempty (x : string) (l : list string) : Counter (x :: l) <> [].
Proof.
  intros E.
  assert (H : In (x, count_occ_str x (x :: l)) (Counter (x :: l))).
  { apply Counter_In. split; [reflexivity|]. simpl.
    rewrite String.eqb_refl. lia. }
  rewrite E in H. exact H.
Qed.

Lemma max_item_In (best : string * nat) (items : dict nat) :
  In (max_item best items) (best :: items).
Proof.
  revert best. induction items as [|it items IH]; intros best; simpl; auto.
  destruct (snd best <? snd it)%nat.
  - right. apply IH.
  - destruct (IH best) as [H|H]; [left | right; right]; auto.
Qed.

Lemma max_item_ge_best (best : string * nat) (items : dict nat) :
  snd best <= snd (max_item best items).
Proof.
  revert best. induction items as [|it items IH]; intros best; simpl; [lia|].
  destruct (Nat.ltb_spec (snd best) (snd it)) as [Hlt|Hge].
  - specialize (IH it). lia.
  - apply IH.
Qed.

Lemma max_item_ge (best : string * nat) (items : dict nat) (it : string * nat) :
  In it (best :: items) -> snd it <= snd (max_item best items).
Proof.
  revert best. induction items as [|it' items IH]; intros best Hin.
  - destruct Hin as [->|[]]. simpl. lia.
  - cbn [max_item].
    destruct (Nat.ltb_spec (snd best) (snd it')) as [Hlt|Hge].
    + destruct Hin as [->|Hin].
      * pose proof (max_item_ge_best it' items). lia.
      * apply IH. exact Hin.
    + destruct Hin as [->|[->|Hin]].
      * apply max_item_ge_best.
      * pose proof (max_item_ge_best best items). lia.
      * apply IH. now right.
Qed.

(** [tally.most_common(1)[0]] on the tally of a non-empty list of votes. *)
Lemma most_common_Counter (x : string) (l : list string) :
  exists t m,
    index0 (most_common_1 (Counter (x :: l))) = Ok (t, m)
    /\ m = count_occ_str t (x :: l) /\ 1 <= m
    /\ forall u, count_occ_str u (x :: l) <= m.
Proof.
  pose proof (Counter_nonempty x l) as Hne.
  destruct (Counter (x :: l)) as [|it items] eqn:E; [contradiction|].
  destruct (max_item it items) as [t m] eqn:Ebest.
  exists t, m. unfold most_common_1, index0. rewrite Ebest.
  assert (Hin : In (t, m) (Counter (x :: l))).
  { rewrite E, <- Ebest. apply max_item_In. }
  apply Counter_In in Hin. destruct Hin as [Hm Hpos].
  repeat split; auto.
  intros u.
  destruct (Nat.eq_dec (count_occ_str u (x :: l)) 0) as [Hz|Hnz]; [lia|].
  assert (Hu : In (u, count_occ_str u (x :: l)) (it :: items)).
  { rewrite <- E. apply Counter_In. split; [reflexivity | lia]. }
  apply max_item_ge in Hu. rewrite Ebest in Hu. exact Hu.
Qed.

Lemma top_targets_In (c : dict nat) (m : nat) (t : string) :
  In t (top_targets c m) <-> In (t, m) c.
Proof.
  unfold top_targets. rewrite in_map_iff. split.
  - intros [[t' n] [Ht Hin]]. simpl in Ht. subst t'.
    apply filter_In in Hin. destruct Hin as [Hin Hn]. simpl in Hn.
    apply Nat.eqb_eq in Hn. now subst.
  - intros Hin. exists (t, m). split; [reflexivity|].
    apply filter_In. split; [exact Hin | apply Nat.eqb_refl].
Qed.

Lemma top_targets_NoDup (c : dict nat) (m : nat) :
  NoDup (map fst c) -> NoDup (top_targets c m).
Proof.
  unfold top_targets. induction c as [|[k n] c IH]; simpl; [constructor|].
  intros Hnd. inversion Hnd as [|? ? Hnotin Hnd']; subst.
  destruct (n =? m)%nat; simpl; [|now apply IH].
  constructor; [|now apply IH].
  intros Hin. apply Hnotin. apply in_map_iff in Hin.
  destruct Hin as [it [Hfst Hin]]. apply filter_In in Hin.
  apply in_map_iff. exists it. tauto.
Qed.

Lemma NoDup_singleton {A : Type} (t : A) (l : list A) :
  NoDup l -> In t l -> (forall u, In u l -> u = t) -> l = [t].
Proof.
  intros Hnd Hin Hall. destruct l as [|a l]; [contradiction|].
  assert (a = t) by (apply Hall; now left). subst a.
  destruct l as [|b l]; [reflexivity|].
  assert (b = t) by (apply Hall; right; now left). subst b.
  inversion Hnd as [|? ? Hnotin _]. exfalso. apply Hnotin. now left.
Qed.

Lemma random_choice_singleton {A : Type} (rnd : nat) (x : A) :
  random_choice rnd [x] = Ok x.
Proof.
  unfold random_choice. simpl List.length. now rewrite Nat.mod_1_r.
Qed.

(** The threshold always asks for more than half of the votes. *)
Lemma threshold_majority (n : nat) : 1 <= n -> n < 2 * threshold n.
Proof.
  intros Hn. unfold threshold.
  destruct (Nat.leb_spec n 2) as [Hle|Hgt]; [lia|].
  pose proof (Nat.div_mod_eq n 2) as Hdiv.
  pose proof (Nat.mod_upper_bound n 2). lia.
Qed.

Lemma threshold_unique (votes : list string) (a b : string) :
  1 <= List.length votes ->
  threshold (List.length votes) <= count_occ_str a votes ->
  threshold (List.length votes) <= count_occ_str b votes ->
  a = b.
Proof.
  intros Hn Ha Hb. destruct (string_dec a b) as [E|Hne]; [exact E|].
  pose proof (count_occ_str_two a b votes Hne).
  pose proof (threshold_majority _ Hn). lia.
Qed.

Lemma consensus_Some (votes : list string) (t : string) :
  consensus votes = Some t <->
  1 <= List.length votes /\ threshold (List.length votes) <= count_occ_str t votes.
Proof.
  unfold consensus. split.
  - intros H. apply find_some in H. destruct H as [Hin Hle].
    apply Nat.leb_le in Hle. split; [|exact Hle].
    destruct votes; [contradiction | simpl; lia].
  - intros [Hn Hle].
    destruct (find _ votes) as [u|] eqn:E.
    + apply find_some in E. destruct E as [_ Hu]. apply Nat.leb_le in Hu.
      f_equal. now apply (threshold_unique votes).
    + assert (Hin : In t votes).
      { apply count_occ_str_pos.
        pose proof (threshold_majority _ Hn). lia. }
      apply (find_none _ _ E) in Hin. apply Nat.leb_gt in Hin. lia.
Qed.

Lemma consensus_None (votes : list string) :
  consensus votes = None <->
  votes = [] \/ forall t, count_occ_str t votes < threshold (List.length votes).
Proof.
  split.
  - intros H. destruct votes as [|x l]; [now left|]. right. intros t.
    destruct (Nat.lt_ge_cases (count_occ_str t (x :: l))
                (threshold (List.length (x :: l)))) as [Hlt|Hge]; [exact Hlt|].
    assert (Hs : consensus (x :: l) = Some t).
    { apply consensus_Some. split; [simpl; lia | exact Hge]. }
    congruence.
  - intros [->|Hall]; [reflexivity|].
    destruct (consensus votes) as [t|] eqn:E; [|reflexivity].
    apply consensus_Some in E. specialize (Hall t). lia.
Qed.

(** The consensus block of the resolver computes the target of the rule;
    the random draw never decides anything, because a target that reaches
    the threshold is alone at the top. *)
Lemma wolf_consensus_eq (rnd : nat) (votes : list string) :
  wolf_consensus rnd votes
  = Ok (match consensus votes with Some t => [t] | None => [] end).
Proof.
  destruct votes as [|x l]; [reflexivity|].
  unfold wolf_consensus.
  destruct (most_common_Counter x l) as [t [m [Hbest [Hm [Hpos Hmax]]]]].
  rewrite Hbest. cbn [bind snd].
  change (required_votes (List.length (x :: l)))
    with (threshold (List.length (x :: l))).
  destruct (Nat.leb_spec (threshold (List.length (x :: l))) m) as [Hle|Hgt].
  - assert (Hc : consensus (x :: l) = Some t).
    { apply consensus_Some. split; [simpl; lia | lia]. }
    rewrite Hc.
    assert (Htop : top_targets (Counter (x :: l)) m = [t]).
    { apply NoDup_singleton.
      - apply top_targets_NoDup, Counter_wf.
      - apply top_targets_In, Counter_In. auto.
      - intros u Hu. apply top_targets_In, Counter_In in Hu.
        destruct Hu as [Hu _].
        apply (threshold_unique (x :: l)); [simpl; lia | lia | lia]. }
    rewrite Htop, random_choice_singleton. reflexivity.
  - assert (Hc : consensus (x :: l) = None).
    { apply consensus_None. right. intros u. specialize (Hmax u). lia. }
    now rewrite Hc.
Qed.

End Counters.

(* ================================================================== *)
(** * The night resolver, step by step                                  *)
(* ================================================================== *)

Section Resolver.

Variable state : GameState.
Variable reg : RoleRegistry.

Lemma filter_perm {A : Type} (f : A -> bool) (l l' : list A) :
  Permutation l l' -> Permutation (filter f l) (filter f l').
Proof.
  induction 1 as [|x l l' _ IH|x y l|l l' l'' _ IH1 _ IH2]; simpl.
  - constructor.
  - destruct (f x); [now constructor | exact IH].
  - destruct (f x), (f y); try reflexivity. apply perm_swap.
  - now transitivity (filter f l').
Qed.

(** Step 1 returns exactly when the roles of the acting players are
    registered. *)
Lemma build_night_actions_ok (items : dict Action) :
  roles_registered_in state reg items = true ->
  exists built, build_night_actions state reg items = Ok built.
Proof.
  induction items as [|[pid action] items IH]; simpl; [now eexists|].
  intros H. apply andb_prop in H. destruct H as [Hhd Htl].
  destruct (IH Htl) as [built Hb].
  destruct action; simpl in *; try (now exists built).
  destruct (get_player state pid) as [p|]; [|now exists built].
  unfold RoleRegistry_get. destruct (dict_get (role p) reg); [|discriminate].
  rewrite Hb. simpl. now eexists.
Qed.

Lemma build_night_actions_registered (items : dict Action)
  (built : list NightAction) :
  build_night_actions state reg items = Ok built ->
  roles_registered_in state reg items = true.
Proof.
  revert built. induction items as [|[pid action] items IH]; intros built;
    simpl; [reflexivity|].
  destruct action; simpl; try (now apply IH).
  destruct (get_player state pid) as [p|]; [|now apply IH].
  unfold RoleRegistry_get. destruct (dict_get (role p) reg); [|discriminate].
  simpl. destruct (build_night_actions state reg items); [|discriminate].
  intros _. now apply (IH a).
Qed.

(** The actions built for one ability carry the targets submitted for it,
    in the order of the dict. *)
Lemma build_night_actions_targets (ability : string) (items : dict Action)
  (built : list NightAction) :
  build_night_actions state reg items = Ok built ->
  map na_target_id (filter (fun na => na_ability na =? ability) built)
  = ability_targets_in ability state items.
Proof.
  revert built. induction items as [|[pid action] items IH]; intros built;
    simpl.
  - intros H. now inversion H.
  - destruct action as [| | |actor md ab target|]; simpl;
      try (now apply IH).
    destruct (get_player state pid) as [p|].
    + destruct (RoleRegistry_get reg (role p)); [|discriminate]. simpl.
      destruct (build_night_actions state reg items) as [rest|];
        [|discriminate].
      simpl. intros H. inversion H; subst. simpl.
      destruct (ab =? ability); simpl; now rewrite (IH rest).
    + destruct (ab =? ability); now apply IH.
Qed.

(** Step 2: what the walk accumulates. *)
Lemma walk_votes (nas : list NightAction) (w : Walk) :
  w_wolf_kill_votes (fold_left (walk_step state) nas w)
  = w_wolf_kill_votes w
    ++ map na_target_id (filter (fun na => na_ability na =? "kill") nas).
Proof.
  revert w. induction nas as [|na nas IH]; intros w; simpl.
  - now rewrite app_nil_r.
  - rewrite IH. unfold walk_step.
    destruct (String.eqb_spec (na_ability na) "protect") as [E|_].
    + rewrite E. reflexivity.
    + destruct (na_ability na =? "kill"); simpl.
      * now rewrite <- app_assoc.
      * destruct (na_ability na =? "investigate"); [|reflexivity].
        now destruct (get_player state (na_target_id na)).
Qed.

Lemma walk_protected (nas : list NightAction) (w : Walk) (t : string) :
  In t (w_protected (fold_left (walk_step state) nas w)) <->
  In t (w_protected w)
  \/ In t (map na_target_id
             (filter (fun na => na_ability na =? "protect") nas)).
Proof.
  revert w. induction nas as [|na nas IH]; intros w; simpl; [tauto|].
  rewrite IH. unfold walk_step.
  destruct (na_ability na =? "protect"); simpl.
  - rewrite set_add_In. intuition.
  - destruct (na_ability na =? "kill"); simpl; [tauto|].
    destruct (na_ability na =? "investigate"); [|tauto].
    destruct (get_player state (na_target_id na)); simpl; tauto.
Qed.

Lemma walk_events (nas : list NightAction) (w : Walk) :
  Forall (fun e => is_private_reveal e = true) (w_events w) ->
  Forall (fun e => is_private_reveal e = true)
    (w_events (fold_left (walk_step state) nas w)).
Proof.
  revert w. induction nas as [|na nas IH]; intros w Hw; simpl; [exact Hw|].
  apply IH. unfold walk_step.
  destruct (na_ability na =? "protect"); [exact Hw|].
  destruct (na_ability na =? "kill"); [exact Hw|].
  destruct (na_ability na =? "investigate"); [|exact Hw].
  destruct (get_player state (na_target_id na)); [|exact Hw]. simpl.
  apply Forall_app. split; [exact Hw | now repeat constructor].
Qed.

(** The votes counted by the wolves' consensus are the submitted kill
    votes, up to the order in which the priorities sort them. *)
Lemma walk_sorted_votes (built : list NightAction) :
  build_night_actions state reg (night_actions state) = Ok built ->
  Permutation
    (w_wolf_kill_votes (walk state (stable_sort na_priority built)))
    (submitted_kill_targets state).
Proof.
  intros Hb. unfold walk. rewrite walk_votes. simpl.
  unfold submitted_kill_targets.
  rewrite <- (build_night_actions_targets "kill" _ built Hb).
  apply Permutation_map, filter_perm. symmetry. apply stable_sort_perm.
Qed.

Lemma walk_sorted_protected (built : list NightAction) (t : string) :
  build_night_actions state reg (night_actions state) = Ok built ->
  In t (w_protected (walk state (stable_sort na_priority built))) <->
  In t (submitted_protect_targets state).
Proof.
  intros Hb. unfold walk. rewrite walk_protected. simpl.
  unfold submitted_protect_targets.
  rewrite <- (build_night_actions_targets "protect" _ built Hb).
  split.
  - intros [[]|H]. revert H. apply Permutation_in.
    apply Permutation_map, filter_perm. symmetry. apply stable_sort_perm.
  - intros H. right. revert H. apply Permutation_in.
    apply Permutation_map, filter_perm. apply stable_sort_perm.
Qed.

End Resolver.

Section NightOutcome.

Variable state : GameState.
Variable reg : RoleRegistry.
Variable str_hash : string -> Z.

Lemma consensus_perm (l l' : list string) :
  Permutation l l' -> consensus l = consensus l'.
Proof.
  intros Hp.
  assert (Hiff : forall t, consensus l = Some t <-> consensus l' = Some t).
  { intros t. rewrite !consensus_Some.
    now rewrite (Permutation_length Hp), (count_occ_str_perm t _ _ Hp). }
  destruct (consensus l) as [t|] eqn:E.
  - symmetry. now apply Hiff.
  - destruct (consensus l') as [t|]; [|reflexivity].
    destruct (Hiff t) as [_ H]. specialize (H eq_refl). discriminate.
Qed.

(** The walk exists exactly when the roles are registered, and it holds
    the submitted votes and protections. *)
Lemma night_walk_ok :
  roles_registered state reg = true ->
  exists w,
    night_walk state reg = Ok w
    /\ Permutation (w_wolf_kill_votes w) (submitted_kill_targets state)
    /\ (forall t, In t (w_protected w)
                  <-> In t (submitted_protect_targets state))
    /\ Forall (fun e => is_private_reveal e = true) (w_events w).
Proof.
  intros Hreg. unfold night_walk.
  destruct (build_night_actions_ok state reg _ Hreg) as [built Hb].
  rewrite Hb. simpl. eexists. split; [reflexivity|].
  split; [now apply (walk_sorted_votes state reg)|].
  split; [intros t; now apply (walk_sorted_protected state reg)|].
  apply walk_events. constructor.
Qed.

Lemma night_walk_registered (w : Walk) :
  night_walk state reg = Ok w -> roles_registered state reg = true.
Proof.
  unfold night_walk.
  destruct (build_night_actions state reg (night_actions state)) eqn:E;
    [|discriminate].
  intros _. now apply (build_night_actions_registered state reg _ a).
Qed.

(** The resolver of the source computes the outcome of the
    specification. *)
Lemma resolve_night_outcome (rnd : nat) (w : Walk) :
  night_walk state reg = Ok w ->
  resolve_night state reg str_hash rnd
  = Ok (night_outcome state str_hash w
          (consensus (submitted_kill_targets state))).
Proof.
  intros Hw. unfold resolve_night.
  pose proof (night_walk_registered w Hw) as Hreg.
  destruct (night_walk_ok Hreg) as [w' [Hw' [Hvotes _]]].
  rewrite Hw in Hw'. inversion Hw'; subst w'. clear Hw'.
  unfold night_walk in Hw.
  destruct (build_night_actions state reg (night_actions state))
    as [built|]; [|discriminate].
  simpl in Hw. inversion Hw as [Hw0]. cbn [bind]. rewrite Hw0.
  rewrite wolf_consensus_eq. cbn [bind].
  rewrite (consensus_perm _ _ Hvotes).
  unfold night_outcome, emitted.
  destruct (consensus (submitted_kill_targets state)) as [t|];
    [|reflexivity].
  unfold cancel_protected. simpl. destruct (mem t (w_protected w));
    [reflexivity|].
  simpl. unfold apply_kills. simpl.
  destruct (get_player state t) as [p|]; [|reflexivity].
  destruct (is_alive p); reflexivity.
Qed.

(** [resolve_night] returns exactly when the roles of the acting players
    are registered. *)
Lemma resolve_night_returns (rnd : nat) :
  (exists r, resolve_night state reg str_hash rnd = Ok r)
  <-> roles_registered state reg = true.
Proof.
  split.
  - intros [r Hr]. destruct (night_walk state reg) as [w|e] eqn:Hw.
    + now apply (night_walk_registered w).
    + unfold night_walk, resolve_night in *.
      destruct (build_night_actions state reg (night_actions state));
        simpl in *; discriminate.
  - intros Hreg. destruct (night_walk_ok Hreg) as [w [Hw _]].
    eexists. exact (resolve_night_outcome rnd w Hw).
Qed.

Lemma resolve_night_raises (rnd : nat) (e : exn) :
  night_walk state reg = Raise e ->
  resolve_night state reg str_hash rnd = Raise e.
Proof.
  unfold night_walk, resolve_night.
  destruct (build_night_actions state reg (night_actions state));
    simpl; congruence.
Qed.

End NightOutcome.

(* ================================================================== *)
(** * What a night leaves behind                                        *)
(* ================================================================== *)

Section NightFacts.

Lemma fold_with_event (evs : list GameEvent) (s : GameState) :
  fold_left with_event evs s
  = mkGameState (day s) (phase s) (players s) (events s ++ evs)
      (night_actions s).
Proof.
  revert s. induction evs as [|e evs IH]; intros s; simpl.
  - rewrite app_nil_r. now destruct s.
  - rewrite IH. simpl. now rewrite <- app_assoc.
Qed.

Lemma find_player_killed (ps : list PlayerSlot) (t : string) :
  match find_player (map (kill_slot t) ps) t with
  | Some p => is_alive p = false
  | None => True
  end.
Proof.
  induction ps as [|p ps IH]; simpl; [exact I|].
  assert (Hid : player_id (kill_slot t p) = player_id p).
  { unfold kill_slot. now destruct (player_id p =? t). }
  rewrite Hid.
  destruct (String.eqb_spec (player_id p) t) as [E|Hne]; [|exact IH].
  unfold kill_slot. apply String.eqb_eq in E. now rewrite E.
Qed.

Lemma is_living_player_killed (s : GameState) (t : string) :
  is_living_player (with_player_killed s t) t = false.
Proof.
  unfold is_living_player, get_player. simpl.
  pose proof (find_player_killed (players s) t) as H.
  now destruct (find_player (map (kill_slot t) (players s)) t).
Qed.

Lemma private_reveals_no_elimination (evs : list GameEvent) :
  Forall (fun e => is_private_reveal e = true) evs ->
  elimination_events evs = [].
Proof.
  induction 1 as [|e evs He _ IH]; [reflexivity|].
  unfold elimination_events in *. simpl. rewrite IH.
  now destruct e.
Qed.

Lemma elimination_events_app (l1 l2 : list GameEvent) :
  elimination_events (l1 ++ l2)
  = elimination_events l1 ++ elimination_events l2.
Proof.
  apply filter_app.
Qed.

(** The outcome of a night, case by case. *)
Lemma night_outcome_facts (state : GameState) (h : string -> Z) (w : Walk)
  (agreed : option string) :
  Forall (fun e => is_private_reveal e = true) (w_events w) ->
  exists kills saved,
    snd (night_outcome state h w agreed)
    = NightResultEvent (day state) DAWN [] kills
        (set_to_list h (w_protected w)) saved
      :: w_events w
      ++ elimination_events (snd (night_outcome state h w agreed))
    /\ events (fst (night_outcome state h w agreed))
       = events state ++ snd (night_outcome state h w agreed)
    /\ match agreed with
       | None =>
           kills = [] /\ saved = []
           /\ elimination_events (snd (night_outcome state h w agreed)) = []
           /\ players (fst (night_outcome state h w agreed)) = players state
       | Some t =>
           is_living_player (fst (night_outcome state h w agreed)) t
           = (is_living_player state t && mem t (w_protected w))%bool
           /\ if mem t (w_protected w) then
                kills = [] /\ saved = [t]
                /\ elimination_events (snd (night_outcome state h w agreed))
                   = []
                /\ players (fst (night_outcome state h w agreed))
                   = players state
              else
                kills = [t] /\ saved = []
                /\ match get_player state t with
                   | Some p =>
                       if is_alive p then
                         elimination_events
                           (snd (night_outcome state h w agreed))
                         = [EliminationEvent (day state) DAWN [] t (role p)
                              "wolf_kill"]
                         /\ players (fst (night_outcome state h w agreed))
                            = map (kill_slot t) (players state)
                       else
                         elimination_events
                           (snd (night_outcome state h w agreed)) = []
                         /\ players (fst (night_outcome state h w agreed))
                            = players state
                   | None =>
                       elimination_events
                         (snd (night_outcome state h w agreed)) = []
                       /\ players (fst (night_outcome state h w agreed))
                          = players state
                   end
       end.
Proof.
  intros Hrev.
  pose proof (private_reveals_no_elimination _ Hrev) as Hno.
  unfold night_outcome, emitted.
  destruct agreed as [t|].
  - destruct (mem t (w_protected w)) eqn:Hmem.
    + exists [], [t]. cbn [fst snd]. rewrite fold_with_event.
      unfold elimination_events in *. cbn [filter is_elimination].
      rewrite Hno, app_nil_r. cbn [events players].
      unfold is_living_player, get_player. cbn [players].
      rewrite andb_true_r. auto 10.
    + exists [t], []. unfold is_living_player at 2.
      destruct (get_player state t) as [p|] eqn:Hp;
        [destruct (is_alive p) eqn:Halive|];
        cbn [fst snd]; rewrite fold_with_event;
        unfold elimination_events in *; cbn [filter is_elimination];
        rewrite ?filter_app, Hno; cbn [filter is_elimination app];
        rewrite ?app_nil_r; cbn [events players].
      * split; [reflexivity|]. split; [reflexivity|].
        split; [|auto].
        pose proof (is_living_player_killed state t) as Hk.
        unfold is_living_player, get_player in *. cbn [players] in *.
        exact Hk.
      * unfold is_living_player, get_player in *. cbn [players].
        rewrite Hp, Halive. auto 10.
      * unfold is_living_player, get_player in *. cbn [players].
        rewrite Hp. auto 10.
  - exists [], []. cbn [fst snd]. rewrite fold_with_event.
    unfold elimination_events in *. cbn [filter is_elimination].
    rewrite Hno, app_nil_r. cbn [events players]. auto 10.
Qed.

End NightFacts.

Section ResolveNight.

Variable state : GameState.
Variable reg : RoleRegistry.
Variable str_hash : string -> Z.
Variable rnd : nat.

Hypothesis registered : roles_registered state reg = true.

(** The result of [resolve_night], read off the submitted actions. *)
Lemma resolve_night_facts :
  exists state' kills protected saved rest,
    resolve_night state reg str_hash rnd
    = Ok (state',
          NightResultEvent (day state) DAWN [] kills protected saved :: rest)
    /\ events state'
       = events state
         ++ NightResultEvent (day state) DAWN [] kills protected saved :: rest
    /\ (forall t, In t protected <-> In t (submitted_protect_targets state))
    /\ Forall (fun e => is_night_result e = false) rest
    /\ match consensus (submitted_kill_targets state) with
       | None =>
           kills = [] /\ saved = [] /\ elimination_events rest = []
           /\ players state' = players state
       | Some t =>
           (In t (submitted_protect_targets state) ->
            kills = [] /\ saved = [t] /\ elimination_events rest = []
            /\ players state' = players state)
           /\ (~ In t (submitted_protect_targets state) ->
               kills = [t] /\ saved = []
               /\ is_living_player state' t = false
               /\ match get_player state t with
                  | Some p =>
                      if is_alive p then
                        elimination_events rest
                        = [EliminationEvent (day state) DAWN [] t (role p)
                             "wolf_kill"]
                        /\ players state' = map (kill_slot t) (players state)
                      else
                        elimination_events rest = []
                        /\ players state' = players state
                  | None =>
                      elimination_events rest = []
                      /\ players state' = players state
                  end)
       end.
Proof.
  destruct (night_walk_ok state reg registered)
    as [w [Hw [_ [Hprot Hrev]]]].
  rewrite (resolve_night_outcome state reg str_hash rnd w Hw).
  destruct (night_outcome_facts state str_hash w
              (consensus (submitted_kill_targets state)) Hrev)
    as [kills [saved [Hevs [Hlog Hcase]]]].
  destruct (night_outcome state str_hash w
              (consensus (submitted_kill_targets state)))
    as [state' evs] eqn:Hout.
  cbn [fst snd] in *.
  exists state', kills, (set_to_list str_hash (w_protected w)), saved,
    (w_events w ++ elimination_events evs).
  rewrite <- Hevs. split; [reflexivity|]. split; [exact Hlog|].
  split; [intros t; rewrite set_to_list_In; apply Hprot|].
  split.
  { apply Forall_app. split.
    - eapply Forall_impl; [|exact Hrev]. intros e He. now destruct e.
    - apply Forall_forall. intros e He. apply filter_In in He.
      destruct He as [_ He]. now destruct e. }
  assert (Helim : elimination_events (w_events w ++ elimination_events evs)
                  = elimination_events evs).
  { rewrite elimination_events_app,
      (private_reveals_no_elimination _ Hrev). simpl.
    unfold elimination_events. clear.
    induction evs as [|e evs IH]; simpl; [reflexivity|].
    destruct (is_elimination e) eqn:E; simpl; [rewrite E|]; now rewrite ?IH. }
  rewrite Helim.
  destruct (consensus (submitted_kill_targets state)) as [t|];
    [|exact Hcase].
  destruct Hcase as [Hlive Hcase].
  destruct (mem t (w_protected w)) eqn:Hmem.
  - apply mem_In, Hprot in Hmem. split; [intros _; exact Hcase|].
    intros Hnot. contradiction.
  - apply mem_false_In in Hmem. rewrite Hprot in Hmem.
    split; [intros Hin; contradiction|]. intros _.
    rewrite andb_false_r in Hlive. tauto.
Qed.

End ResolveNight.

(* ================================================================== *)
(** * The wolves' consensus                                             *)
(* ================================================================== *)

(** C1 -- Wolf kill consensus.  With N kill votes submitted in
    [night_actions], [resolve_night] adopts a kill target only if the top
    vote count reaches the threshold: N (unanimity) when N <= 2,
    floor(N/2)+1 (strict majority) when N >= 3; when no target reaches the
    threshold, nothing is adopted, nobody is eliminated and the players are
    unchanged; a target that reaches it is the one adopted.  In
    particular: two wolves naming different targets produce no kill; two
    wolves naming the same unprotected target kill it; with three wolves a
    2-vs-1 split kills the majority target when it is unprotected. *)
Theorem wolf_kill_consensus :
  forall (state : GameState) (reg : RoleRegistry) (str_hash : string -> Z)
         (rnd : nat),
    roles_registered state reg = true ->
    exists state' evs,
      resolve_night state reg str_hash rnd = Ok (state', evs)
      /\ let votes := submitted_kill_targets state in
         let N := List.length votes in
         let required := if (N <=? 2)%nat then N else (N / 2 + 1)%nat in
         let killed t :=
           result_kills evs = [t]
           /\ is_living_player state' t = false
           /\ (is_living_player state t = true ->
               exists rl,
                 elimination_events evs
                 = [EliminationEvent (day state) DAWN [] t rl "wolf_kill"]) in
         let no_kill :=
           adopted_targets evs = [] /\ elimination_events evs = []
           /\ players state' = players state in
         (forall t, In t (adopted_targets evs) ->
            1 <= N /\ required <= count_occ_str t votes
            /\ (forall u, count_occ_str u votes <= count_occ_str t votes)
            /\ adopted_targets evs = [t])
         /\ ((forall t, count_occ_str t votes < required) -> no_kill)
         /\ (forall t, 1 <= N -> required <= count_occ_str t votes ->
               adopted_targets evs = [t])
         /\ (forall a b, Permutation votes [a; b] -> a <> b -> no_kill)
         /\ (forall a, votes = [a; a] ->
               ~ In a (submitted_protect_targets state) -> killed a)
         /\ (forall a b, Permutation votes [a; a; b] ->
               ~ In a (submitted_protect_targets state) -> killed a).
Proof.
  intros state reg str_hash rnd Hreg.
  destruct (resolve_night_facts state reg str_hash rnd Hreg)
    as [state' [kills [protected [saved [rest [Hres [_ [_ [_ Hcase]]]]]]]]].
  exists state', (NightResultEvent (day state) DAWN [] kills protected saved
                  :: rest).
  split; [exact Hres|].
  unfold adopted_targets, result_kills, result_saved.
  change (elimination_events
            (NightResultEvent (day state) DAWN [] kills protected saved
             :: rest))
    with (elimination_events rest).
  set (votes := submitted_kill_targets state) in *.
  change (if (List.length votes <=? 2)%nat then List.length votes
          else (List.length votes / 2 + 1)%nat)
    with (threshold (List.length votes)).
  cbv zeta.
  assert (Hkilled : forall a,
             consensus votes = Some a ->
             ~ In a (submitted_protect_targets state) ->
             kills = [a] /\ is_living_player state' a = false
             /\ (is_living_player state a = true ->
                 exists rl,
                   elimination_events rest
                   = [EliminationEvent (day state) DAWN [] a rl "wolf_kill"])).
  { intros a Ha Hnot. rewrite Ha in Hcase. destruct Hcase as [_ Hk].
    destruct (Hk Hnot) as [Hkills [_ [Hdead Hp]]].
    split; [exact Hkills|]. split; [exact Hdead|].
    unfold is_living_player. destruct (get_player state a) as [p|];
      [|discriminate].
    intros Halive. rewrite Halive in Hp. exists (role p). tauto. }
  destruct (consensus votes) as [t|] eqn:Hc.
  - pose proof Hc as Ht. apply consensus_Some in Ht. destruct Ht as [HN Ht].
    assert (Hadopt : kills ++ saved = [t]).
    { destruct Hcase as [Hs Hk].
      destruct (in_dec string_dec t (submitted_protect_targets state))
        as [Hin|Hnot].
      - destruct (Hs Hin) as [-> [-> _]]. reflexivity.
      - destruct (Hk Hnot) as [-> [-> _]]. reflexivity. }
    assert (Huniq : forall u, threshold (List.length votes)
                              <= count_occ_str u votes -> u = t).
    { intros u Hu. now apply (threshold_unique votes). }
    rewrite Hadopt.
    assert (Hsplit : forall a b, Permutation votes [a; b] -> a <> b -> False).
    { intros a b Hp Hab.
      rewrite (Permutation_length Hp), (count_occ_str_perm t _ _ Hp) in Ht.
      simpl in Ht. change (threshold 2) with 2 in Ht.
      destruct (String.eqb_spec a t), (String.eqb_spec b t);
        simpl in Ht; try lia. congruence. }
    refine (conj _ (conj _ (conj _ (conj _ (conj _ _))))).
    + intros u [<-|[]]. repeat split; auto.
      intros u.
      destruct (Nat.le_gt_cases (count_occ_str u votes)
                  (count_occ_str t votes)) as [Hle|Hgt]; [exact Hle|].
      assert (u = t) by (apply Huniq; lia). subst u. lia.
    + intros H. specialize (H t). lia.
    + intros u _ Hu. now rewrite (Huniq u Hu).
    + intros a b Hp Hab. exfalso. exact (Hsplit a b Hp Hab).
    + intros a Hv Hnot. assert (a = t).
      { apply Huniq. rewrite Hv. simpl. rewrite String.eqb_refl.
        reflexivity. }
      subst a. now apply Hkilled.
    + intros a b Hp Hnot. assert (a = t).
      { apply Huniq.
        rewrite (Permutation_length Hp), (count_occ_str_perm a _ _ Hp).
        simpl. change (threshold 3) with 2. rewrite String.eqb_refl.
        destruct (b =? a); simpl; lia. }
      subst a. now apply Hkilled.
  - destruct Hcase as [-> [-> [Helim Hplayers]]].
    apply consensus_None in Hc.
    assert (Hnone : forall t, 1 <= List.length votes ->
                              threshold (List.length votes)
                              <= count_occ_str t votes -> False).
    { intros t HN Ht. destruct Hc as [Hc|Hc].
      - rewrite Hc in HN. simpl in HN. lia.
      - specialize (Hc t). lia. }
    simpl. refine (conj _ (conj _ (conj _ (conj _ (conj _ _))))).
    + intros t [].
    + auto.
    + intros t HN Ht. exfalso. exact (Hnone t HN Ht).
    + auto.
    + intros a Hv. exfalso. apply (Hnone a); rewrite Hv; simpl;
        [lia | rewrite String.eqb_refl; reflexivity].
    + intros a b Hp. exfalso. apply (Hnone a);
        rewrite (Permutation_length Hp), ?(count_occ_str_perm a _ _ Hp);
        simpl; [lia|]. change (threshold 3) with 2.
      rewrite String.eqb_refl. destruct (b =? a); simpl; lia.
Qed.

Lemma wolf_kill_consensus_witness :
  roles_registered scenario_kill classic_registry = true
  /\ exists state' evs,
       resolve_night scenario_kill classic_registry hash0 0
       = Ok (state', evs)
       /\ result_kills evs = ["vil1"].
Proof.
  split; [reflexivity|].
  destruct (wolf_kill_consensus scenario_kill classic_registry hash0 0
              eq_refl) as [state' [evs [Hres H]]].
  exists state', evs. split; [exact Hres|].
  destruct H as [_ [_ [_ [_ [Hsame _]]]]].
  apply (Hsame "vil1"); [reflexivity | simpl; tauto].
Defined.

(* ================================================================== *)
(** * The events of a night                                             *)
(* ================================================================== *)

(** "Exactly one elimination for every adopted, unprotected target" does
    not hold where the target names no living player: a lone wolf names
    the villager that is already dead, the target is adopted and reported,
    and no [EliminationEvent] is emitted. *)
Lemma elimination_for_every_unprotected_target_counterexample :
  ~ (forall (state : GameState) (reg : RoleRegistry) (str_hash : string -> Z)
            (rnd : nat) (state' : GameState) (evs : list GameEvent)
            (t : string),
        resolve_night state reg str_hash rnd = Ok (state', evs) ->
        In t (adopted_targets evs) ->
        ~ In t (submitted_protect_targets state) ->
        exists d ph md rl,
          elimination_events evs
          = [EliminationEvent d ph md t rl "wolf_kill"]).
Proof.
  intros H.
  destruct (H dead_target_state classic_registry hash0 0 _ _ "vil1" eq_refl)
    as [d [ph [md [rl Hev]]]].
  - simpl. now left.
  - simpl. tauto.
  - discriminate Hev.
Qed.

(** C3 (amended) -- Night-resolution events.  [resolve_night] always
    returns a [NightResultEvent] as the first of its events, and no other
    one, also when nothing happened (empty lists and no further event).
    When a kill target is adopted by the wolves' consensus: if no protect
    action targeted it and it names a living player of the state, exactly
    one [EliminationEvent] is emitted, for that target and with cause
    "wolf_kill"; if a protect action targeted it, no [EliminationEvent] is
    emitted and the target is in both the protected and the saved list. *)
Theorem night_result_events :
  forall (state : GameState) (reg : RoleRegistry) (str_hash : string -> Z)
         (rnd : nat),
    roles_registered state reg = true ->
    exists state' kills protected saved rest,
      resolve_night state reg str_hash rnd
      = Ok (state',
            NightResultEvent (day state) DAWN [] kills protected saved
            :: rest)
      /\ Forall (fun e => is_night_result e = false) rest
      /\ (night_actions state = [] ->
          kills = [] /\ protected = [] /\ saved = [] /\ rest = [])
      /\ (forall t, In t protected
                    <-> In t (submitted_protect_targets state))
      /\ forall t, In t (kills ++ saved) ->
           (~ In t (submitted_protect_targets state) ->
            is_living_player state t = true ->
            exists rl,
              elimination_events rest
              = [EliminationEvent (day state) DAWN [] t rl "wolf_kill"])
           /\ (In t (submitted_protect_targets state) ->
               elimination_events rest = []
               /\ In t protected /\ In t saved).
Proof.
  intros state reg str_hash rnd Hreg.
  destruct (resolve_night_facts state reg str_hash rnd Hreg)
    as [state' [kills [protected [saved [rest
         [Hres [_ [Hprot [Hone Hcase]]]]]]]]].
  exists state', kills, protected, saved, rest.
  split; [exact Hres|]. split; [exact Hone|].
  split.
  { intros Hempty. unfold resolve_night in Hres. rewrite Hempty in Hres.
    simpl in Hres. inversion Hres. auto. }
  split; [exact Hprot|].
  intros t Hin.
  destruct (consensus (submitted_kill_targets state)) as [t0|].
  - destruct Hcase as [Hs Hk].
    assert (t = t0).
    { destruct (in_dec string_dec t0 (submitted_protect_targets state))
        as [Hp|Hp].
      - destruct (Hs Hp) as [-> [-> _]]. destruct Hin as [<-|[]]. reflexivity.
      - destruct (Hk Hp) as [-> [-> _]]. destruct Hin as [<-|[]]. reflexivity. }
    subst t0. split.
    + intros Hnot Hlive. destruct (Hk Hnot) as [_ [_ [_ Hp]]].
      unfold is_living_player in Hlive.
      destruct (get_player state t) as [p|]; [|discriminate].
      rewrite Hlive in Hp. exists (role p). tauto.
    + intros Hp. destruct (Hs Hp) as [_ [-> [Helim _]]].
      split; [exact Helim|]. split; [now apply Hprot | now left].
  - destruct Hcase as [-> [-> _]]. contradiction.
Qed.

Lemma night_result_events_witness :
  roles_registered scenario_A classic_registry = true
  /\ exists state' kills protected saved rest,
       resolve_night scenario_A classic_registry hash0 0
       = Ok (state',
             NightResultEvent (day scenario_A) DAWN [] kills protected saved
             :: rest)
       /\ In "vil1" protected /\ In "vil1" saved.
Proof.
  split; [reflexivity|].
  destruct (night_result_events scenario_A classic_registry hash0 0 eq_refl)
    as [state' [kills [protected [saved [rest [Hres [_ [_ [_ H]]]]]]]]].
  exists state', kills, protected, saved, rest. split; [exact Hres|].
  assert (Hin : In "vil1" (kills ++ saved)).
  { vm_compute in Hres. inversion Hres. simpl. now left. }
  destruct (H "vil1" Hin) as [_ Hsaved].
  apply Hsaved. simpl. now left.
Defined.

(** C10 -- The unprotected target that is no living player.  When the
    target adopted by the wolves' consensus is unprotected and does not
    name a living player of the state (unknown id, or already dead),
    [resolve_night] emits no [EliminationEvent] and leaves the players,
    hence every [is_alive] flag, as they were, and the target still
    stands in the [kills] list of the [NightResultEvent]. *)
Theorem unprotected_dead_target_is_still_reported :
  forall (state : GameState) (reg : RoleRegistry) (str_hash : string -> Z)
         (rnd : nat),
    roles_registered state reg = true ->
    exists state' evs,
      resolve_night state reg str_hash rnd = Ok (state', evs)
      /\ forall t,
           In t (adopted_targets evs) ->
           ~ In t (submitted_protect_targets state) ->
           is_living_player state t = false ->
           elimination_events evs = []
           /\ players state' = players state
           /\ map is_alive (players state') = map is_alive (players state)
           /\ result_kills evs = [t].
Proof.
  intros state reg str_hash rnd Hreg.
  destruct (resolve_night_facts state reg str_hash rnd Hreg)
    as [state' [kills [protected [saved [rest
         [Hres [_ [Hprot [Hone Hcase]]]]]]]]].
  eexists state', _. split; [exact Hres|].
  unfold adopted_targets, result_kills, result_saved.
  change (elimination_events
            (NightResultEvent (day state) DAWN [] kills protected saved
             :: rest))
    with (elimination_events rest).
  intros t Hin Hnot Hdead.
  destruct (consensus (submitted_kill_targets state)) as [t0|].
  - destruct Hcase as [Hs Hk].
    assert (t = t0).
    { destruct (in_dec string_dec t0 (submitted_protect_targets state))
        as [Hp|Hp].
      - destruct (Hs Hp) as [-> [-> _]]. destruct Hin as [<-|[]]. reflexivity.
      - destruct (Hk Hp) as [-> [-> _]]. destruct Hin as [<-|[]]. reflexivity. }
    subst t0. destruct (Hk Hnot) as [-> [_ [_ Hp]]].
    unfold is_living_player in Hdead.
    destruct (get_player state t) as [p|].
    + rewrite Hdead in Hp. destruct Hp as [-> ->]. auto.
    + destruct Hp as [-> ->]. auto.
  - destruct Hcase as [-> [-> _]]. contradiction.
Qed.

Lemma unprotected_dead_target_is_still_reported_witness :
  roles_registered dead_target_state classic_registry = true
  /\ exists state' evs,
       resolve_night dead_target_state classic_registry hash0 0
       = Ok (state', evs)
       /\ elimination_events evs = []
       /\ result_kills evs = ["vil1"].
Proof.
  split; [reflexivity|].
  destruct (unprotected_dead_target_is_still_reported dead_target_state
              classic_registry hash0 0 eq_refl) as [state' [evs [Hres H]]].
  exists state', evs. split; [exact Hres|].
  assert (Hin : In "vil1" (adopted_targets evs)).
  { vm_compute in Hres. inversion Hres. simpl. now left. }
  destruct (H "vil1" Hin) as [Helim [_ [_ Hkills]]];
    [simpl; tauto | reflexivity | auto].
Defined.

(* ================================================================== *)
(** * The victory checker                                               *)
(* ================================================================== *)

(** C2 -- Victory checker.  With W living werewolf-team players and V
    living village-team players: when W = 0, [check_victory] returns a
    village win whose winners are all players of team "village", alive or
    dead; otherwise, when W >= V, a werewolf win whose winners are all
    players of team "werewolf"; otherwise [None].  The cases exclude one
    another and cover all counts, so the winning team is a function of the
    two counts, and a state without players yields a village win. *)
Theorem victory_law :
  forall state : GameState,
    let W := List.length (alive_wolves state) in
    let V := List.length (alive_villagers state) in
    let villagers_all :=
      map player_id (filter (fun p => team p =? "village") (players state)) in
    let wolves_all :=
      map player_id (filter (fun p => team p =? "werewolf") (players state)) in
    let village_wins := W = 0 in
    let wolves_win := W <> 0 /\ V <= W in
    let game_goes_on := W <> 0 /\ W < V in
    W = List.length
          (filter (fun p => is_alive p && (team p =? "werewolf"))
             (players state))
    /\ V = List.length
             (filter (fun p => is_alive p && (team p =? "village"))
                (players state))
    /\ (village_wins ->
        check_victory state
        = Some (GameEndEvent (day state) (phase state) [] "village"
                  villagers_all "All werewolves have been eliminated."))
    /\ (wolves_win ->
        check_victory state
        = Some (GameEndEvent (day state) (phase state) [] "werewolf"
                  wolves_all "Werewolves equal or outnumber the villagers."))
    /\ (game_goes_on -> check_victory state = None)
    /\ (village_wins \/ wolves_win \/ game_goes_on)
    /\ ~ (village_wins /\ wolves_win)
    /\ ~ (village_wins /\ game_goes_on)
    /\ ~ (wolves_win /\ game_goes_on)
    /\ winning_team_of (check_victory state)
       = (if (W =? 0)%nat then Some "village"
          else if (V <=? W)%nat then Some "werewolf" else None)
    /\ (players state = [] ->
        check_victory state
        = Some (GameEndEvent (day state) (phase state) [] "village" []
                  "All werewolves have been eliminated.")).
Proof.
  intros state W V villagers_all wolves_all village_wins wolves_win
    game_goes_on.
  assert (Hfilter : forall (f g : PlayerSlot -> bool) l,
             filter g (filter f l) = filter (fun p => f p && g p) l).
  { intros f g l. induction l as [|p l IH]; simpl; [reflexivity|].
    destruct (f p); simpl; [destruct (g p)|]; now rewrite IH. }
  split; [unfold W, alive_wolves, get_alive_players; now rewrite Hfilter|].
  split; [unfold V, alive_villagers, get_alive_players; now rewrite Hfilter|].
  unfold check_victory, get_players_by_team.
  fold villagers_all wolves_all.
  subst village_wins wolves_win game_goes_on W V.
  destruct (alive_wolves state) as [|w ws] eqn:Hw.
  - simpl. refine (conj _ (conj _ (conj _ (conj _ (conj _ (conj _
             (conj _ (conj _ _)))))))); try reflexivity; try lia.
    intros Hp. unfold villagers_all. now rewrite Hp.
  - simpl List.length.
    assert (Hsome : players state <> []).
    { intros Hp. unfold alive_wolves, get_alive_players in Hw.
      rewrite Hp in Hw. discriminate. }
    destruct (Nat.leb_spec (List.length (alive_villagers state))
                (S (List.length ws))) as [Hle|Hgt];
      refine (conj _ (conj _ (conj _ (conj _ (conj _ (conj _
                (conj _ (conj _ _))))))));
      try reflexivity; try lia; try contradiction.
Qed.

(** The unordered conditions "W = 0" and "W >= V" meet where nobody of
    either team is alive; the village win has precedence there.  With one
    wolf against two villagers neither holds and the game goes on. *)
Lemma victory_conditions_overlap :
  List.length (alive_wolves GameState_default) = 0
  /\ List.length (alive_villagers GameState_default)
     <= List.length (alive_wolves GameState_default)
  /\ check_victory GameState_default
     = Some (GameEndEvent 0 SETUP [] "village" []
               "All werewolves have been eliminated.")
  /\ check_victory ongoing_state = None.
Proof.
  repeat split; simpl; lia.
Qed.

(* ================================================================== *)
(** * The per-player view                                               *)
(* ================================================================== *)

Section View.

Variable state : GameState.
Variable X : string.

Let v : GameStateView := mkGameStateView state X.

Lemma view_alive_players_nth (i : nat) :
  nth_error (view_alive_players v) i
  = option_map (fun p => if player_id p =? X then p else scrub p)
      (nth_error (get_alive_players state) i).
Proof.
  unfold view_alive_players. simpl. apply nth_error_map.
Qed.

Lemma view_events_In (e : GameEvent) :
  In e (view_events v) <->
  In e (events state) /\ event_visible X (view_is_wolf v) e = true.
Proof.
  unfold view_events. simpl. apply filter_In.
Qed.

End View.

(** C4 -- View projection boundary.  For every state and player X, the
    [alive_players] of X's view lists the living players in order, X's own
    entry in full and every other entry with role and team replaced by
    "unknown" and an empty metadata; [all_players] holds the triples
    (player_id, name, is_alive) of all players and nothing else; and
    [events] holds, in log order, a [PrivateRevealEvent] only when it is
    addressed to X, a [SpeechEvent] of channel "wolf" only when X's own
    team is "werewolf", and every other event of the log. *)
Theorem view_projection_boundary :
  forall (state : GameState) (X : string),
    let v := mkGameStateView state X in
    List.length (view_alive_players v)
    = List.length (get_alive_players state)
    /\ (forall i p,
          nth_error (get_alive_players state) i = Some p ->
          exists q,
            nth_error (view_alive_players v) i = Some q
            /\ player_id q = player_id p /\ name q = name p
            /\ is_alive q = true
            /\ (player_id p = X -> q = p)
            /\ (player_id p <> X ->
                role q = "unknown" /\ team q = "unknown"
                /\ metadata q = []))
    /\ view_all_players v
       = map (fun p => (player_id p, name p, is_alive p)) (players state)
    /\ (exists keep, view_events v = filter keep (events state))
    /\ (forall e, In e (view_events v) -> In e (events state))
    /\ (forall e, In e (events state) ->
          match e with
          | PrivateRevealEvent _ _ _ pid _ =>
              In e (view_events v) <-> pid = X
          | SpeechEvent _ _ _ _ _ channel =>
              if channel =? "wolf" then
                In e (view_events v) <->
                exists me, get_player state X = Some me
                           /\ team me = "werewolf"
              else In e (view_events v)
          | _ => In e (view_events v)
          end).
Proof.
  intros state X v.
  split; [unfold view_alive_players; now rewrite length_map|].
  split.
  { intros i p Hp. subst v. rewrite view_alive_players_nth, Hp. simpl.
    assert (Halive : is_alive p = true).
    { apply nth_error_In in Hp. unfold get_alive_players in Hp.
      apply filter_In in Hp. tauto. }
    destruct (String.eqb_spec (player_id p) X) as [E|Hne].
    - exists p. repeat split; auto; contradiction.
    - exists (scrub p). repeat split; auto. intros; contradiction. }
  split; [reflexivity|].
  split; [eexists; reflexivity|].
  split; [intros e He; subst v; now apply view_events_In in He|].
  intros e He. subst v.
  assert (Hwolf : view_is_wolf (mkGameStateView state X) = true <->
                  exists me, get_player state X = Some me
                             /\ team me = "werewolf").
  { unfold view_is_wolf. simpl. destruct (get_player state X) as [me|].
    - rewrite String.eqb_eq. split.
      + intros H. now exists me.
      + intros [me' [Hme Ht]]. now inversion Hme; subst.
    - split; [discriminate | intros [me [Hme _]]; discriminate]. }
  destruct e; try (apply view_events_In; now split).
  - destruct (String.eqb_spec channel "wolf") as [E|Hne].
    + subst channel. rewrite view_events_In. cbn [event_visible].
      rewrite String.eqb_refl, <- Hwolf. tauto.
    + apply view_events_In. split; [exact He|]. simpl.
      now destruct (String.eqb_spec channel "wolf").
  - rewrite view_events_In. simpl. rewrite String.eqb_eq. tauto.
Qed.

(** The view of X is the same in two states whose other players differ
    only in role, team and metadata. *)
Lemma view_hides_roles (X : string) (st1 st2 : GameState) :
  Forall2
    (fun p1 p2 =>
       player_id p1 = player_id p2 /\ name p1 = name p2
       /\ is_alive p1 = is_alive p2 /\ (player_id p1 = X -> p1 = p2))
    (players st1) (players st2) ->
  view_alive_players (mkGameStateView st1 X)
  = view_alive_players (mkGameStateView st2 X)
  /\ view_all_players (mkGameStateView st1 X)
     = view_all_players (mkGameStateView st2 X).
Proof.
  unfold view_alive_players, view_all_players, get_alive_players. simpl.
  induction 1 as [|p1 p2 ps1 ps2 [Hid [Hname [Halive Hown]]] _ [IH1 IH2]];
    simpl; [auto|].
  rewrite Hid, Hname, Halive, IH2. split; [|reflexivity].
  destruct (is_alive p2) eqn:E; [|exact IH1]. simpl. rewrite IH1, Hid.
  destruct (String.eqb_spec (player_id p2) X) as [HX|_].
  - rewrite Hown; [reflexivity | congruence].
  - unfold scrub. now rewrite Hid, Hname, Halive, E.
Qed.

(* ================================================================== *)
(** * The frame of the state updates                                    *)
(* ================================================================== *)

Section Frame.

Lemma kill_slot_identity (pid : string) (p : PlayerSlot) :
  player_id (kill_slot pid p) = player_id p
  /\ name (kill_slot pid p) = name p
  /\ role (kill_slot pid p) = role p
  /\ team (kill_slot pid p) = team p
  /\ metadata (kill_slot pid p) = metadata p
  /\ is_alive (kill_slot pid p)
     = (is_alive p && negb (player_id p =? pid))%bool.
Proof.
  unfold kill_slot. destruct (player_id p =? pid); simpl;
    rewrite ?andb_false_r, ?andb_true_r; auto 10.
Qed.

(** The store only grows: an update never writes into an existing dict. *)
Lemma obj_update_store (st : Store) (o : GameStateObj) (u : update) :
  exists fresh, fst (obj_update st o u) = st ++ fresh.
Proof.
  destruct u; simpl; try (exists []; now rewrite app_nil_r);
    eexists; reflexivity.
Qed.

Lemma read_state_grow (st fresh : Store) (o : GameStateObj) :
  o_night_actions o < List.length st ->
  read_state (st ++ fresh) o = read_state st o.
Proof.
  intros H. unfold read_state. now rewrite app_nth1.
Qed.

(** The object operations compute the update of the value. *)
Lemma obj_update_refines (st : Store) (o : GameStateObj) (u : update) :
  o_night_actions o < List.length st ->
  read_state (fst (obj_update st o u)) (snd (obj_update st o u))
  = apply_update (read_state st o) u
  /\ o_night_actions (snd (obj_update st o u))
     < List.length (fst (obj_update st o u)).
Proof.
  intros H. destruct u; simpl; unfold read_state; simpl;
    try (split; [reflexivity | assumption]);
    rewrite app_nth2, Nat.sub_diag, length_app by lia; simpl;
    (split; [reflexivity | lia]).
Qed.

End Frame.

(** C8 -- State-update frame invariant.  For every state and every update
    operation, the players keep their number and order and every player
    keeps player_id, name, role, team (and metadata); an [is_alive] flag
    can only fall, and only through [with_player_killed] for the named
    player; the event log is only appended to; the other fields change
    only through their own operation; and the snapshot the operation was
    called on is not modified: in the object store, every snapshot that
    existed before the call denotes the same value after it. *)
Theorem state_update_frame :
  forall (s : GameState) (u : update),
    let s' := apply_update s u in
    List.length (players s') = List.length (players s)
    /\ map player_id (players s') = map player_id (players s)
    /\ map name (players s') = map name (players s)
    /\ map role (players s') = map role (players s)
    /\ map team (players s') = map team (players s)
    /\ map metadata (players s') = map metadata (players s)
    /\ (forall i p',
          nth_error (players s') i = Some p' ->
          exists p,
            nth_error (players s) i = Some p
            /\ (is_alive p' = true -> is_alive p = true)
            /\ (is_alive p' <> is_alive p ->
                u = WithPlayerKilled (player_id p)))
    /\ (exists appended, events s' = events s ++ appended)
    /\ ((forall e, u <> WithEvent e) -> events s' = events s)
    /\ ((forall pid, u <> WithPlayerKilled pid) -> players s' = players s)
    /\ ((forall pid a, u <> WithNightAction pid a) ->
        u <> ClearNightActions -> night_actions s' = night_actions s)
    /\ ((forall d, u <> WithDay d) -> day s' = day s)
    /\ ((forall ph, u <> WithPhase ph) -> phase s' = phase s)
    /\ (forall (st : Store) (o other : GameStateObj),
          o_night_actions o < List.length st ->
          o_night_actions other < List.length st ->
          read_state st o = s ->
          read_state (fst (obj_update st o u)) (snd (obj_update st o u)) = s'
          /\ read_state (fst (obj_update st o u)) o = s
          /\ read_state (fst (obj_update st o u)) other
             = read_state st other).
Proof.
  intros s u s'.
  assert (Hkill : forall (B : Type) (f : PlayerSlot -> B) pid l,
             (forall p, f (kill_slot pid p) = f p) ->
             map f (map (kill_slot pid) l) = map f l).
  { intros B f pid l Hf. rewrite map_map. apply map_ext. exact Hf. }
  assert (Hstore : forall (st : Store) (o other : GameStateObj),
             o_night_actions o < List.length st ->
             o_night_actions other < List.length st ->
             read_state st o = s ->
             read_state (fst (obj_update st o u)) (snd (obj_update st o u))
             = s'
             /\ read_state (fst (obj_update st o u)) o = s
             /\ read_state (fst (obj_update st o u)) other
                = read_state st other).
  { intros st o other Ho Hother Hs.
    destruct (obj_update_refines st o u Ho) as [Href _].
    destruct (obj_update_store st o u) as [fresh Hfresh].
    rewrite Href, Hfresh, !read_state_grow, Hs by assumption. auto. }
  assert (Hsame : forall i p',
             players s' = players s ->
             nth_error (players s') i = Some p' ->
             exists p,
               nth_error (players s) i = Some p
               /\ (is_alive p' = true -> is_alive p = true)
               /\ (is_alive p' <> is_alive p ->
                   u = WithPlayerKilled (player_id p))).
  { intros i p' Heq Hp'. rewrite Heq in Hp'. exists p'.
    split; [exact Hp'|]. split; [auto|]. intros H. now contradiction H. }
  destruct u; subst s'; cbn [apply_update] in *;
    unfold with_phase, with_day, with_player_killed, with_night_action,
      with_event, clear_night_actions in *; cbn [players events day phase
      night_actions] in *;
    repeat match goal with
           | |- _ /\ _ => split
           end;
    try reflexivity; try (exists []; now rewrite app_nil_r);
    try (eexists; reflexivity);
    try (intros; exact (Hsame _ _ eq_refl ltac:(eassumption)));
    try exact Hstore;
    try (intros H; try intros H'; solve [reflexivity
                                        | exfalso; eapply H; reflexivity
                                        | exfalso; apply H'; reflexivity]).
  - now rewrite length_map.
  - apply Hkill. intros p. apply kill_slot_identity.
  - apply Hkill. intros p. apply kill_slot_identity.
  - apply Hkill. intros p. apply kill_slot_identity.
  - apply Hkill. intros p. apply kill_slot_identity.
  - apply Hkill. intros p. apply kill_slot_identity.
  - intros i p' Hp'. rewrite nth_error_map in Hp'.
    destruct (nth_error (players s) i) as [p|]; [|discriminate].
    simpl in Hp'. inversion Hp'; subst p'. exists p.
    split; [reflexivity|].
    destruct (kill_slot_identity pid p) as [_ [_ [_ [_ [_ Halive]]]]].
    rewrite Halive. split.
    + intros H. apply andb_prop in H. tauto.
    + intros H. destruct (String.eqb_spec (player_id p) pid) as [->|Hne];
        [reflexivity|].
      simpl in H. rewrite andb_true_r in H. now contradiction H.
Qed.

(* ================================================================== *)
(** * Phase transitions                                                 *)
(* ================================================================== *)

Lemma _transition_events (s : GameState) (new_phase : Phase) :
  events (_transition s new_phase)
  = events s ++ [PhaseChangeEvent (day s) new_phase [] (phase s) new_phase]
  /\ phase (_transition s new_phase) = new_phase
  /\ day (_transition s new_phase) = day s
  /\ players (_transition s new_phase) = players s
  /\ night_actions (_transition s new_phase) = night_actions s.
Proof.
  unfold _transition. simpl. auto.
Qed.

Lemma _end_game_events (s : GameState) (result : GameEvent) :
  events (_end_game s result)
  = events s
    ++ [PhaseChangeEvent (day s) GAME_OVER [] GAME_OVER GAME_OVER; result]
  /\ phase (_end_game s result) = GAME_OVER.
Proof.
  unfold _end_game. simpl. now rewrite <- app_assoc.
Qed.

(** Every game that comes to its end, by a victory at dawn, by a victory
    after the vote or by the day limit, is closed by [_end_game]: the last
    two events of its log are a [PhaseChangeEvent] from GAME_OVER to
    GAME_OVER and the result. *)
Lemma run_days_ends_in_game_over
  (run_night run_discussion run_vote : GameState -> result GameState)
  (dawn : Z -> GameState -> result GameState) (max_days : Z)
  (remaining : nat) (day0 : Z) (s final : GameState) (result : GameEvent) :
  run_days run_night run_discussion run_vote dawn max_days remaining day0 s
  = Ok (final, result) ->
  phase final = GAME_OVER
  /\ exists log d,
       events final
       = log ++ [PhaseChangeEvent d GAME_OVER [] GAME_OVER GAME_OVER; result].
Proof.
  revert day0 s. induction remaining as [|remaining IH]; intros day0 s H.
  - simpl in H. inversion H; subst.
    split; [apply _end_game_events|].
    eexists _, _. apply _end_game_events.
  - cbn [run_days] in H.
    destruct (run_night _) as [s1|]; [|discriminate]. cbn [bind] in H.
    destruct (dawn _ _) as [s2|]; [|discriminate]. cbn [bind] in H.
    destruct (check_victory s2) as [r|].
    { inversion H; subst. split; [apply _end_game_events|].
      eexists _, _. apply _end_game_events. }
    destruct (run_discussion _) as [s3|]; [|discriminate]. cbn [bind] in H.
    destruct (run_vote _) as [s4|]; [|discriminate]. cbn [bind] in H.
    destruct (check_victory _) as [r|].
    { inversion H; subst. split; [apply _end_game_events|].
      eexists _, _. apply _end_game_events. }
    exact (IH _ _ H).
Qed.

(** A game of one wolf against one villager is over at the first dawn:
    its log records the transition from DAWN to GAME_OVER as a change
    from GAME_OVER to GAME_OVER. *)
Example game_over_at_first_dawn :
  exists setup final result,
    _setup_players classic_registry [("werewolf", 1); ("villager", 1)]
      ["p1"; "p2"] = Ok setup
    /\ run silent_night silent abstaining_vote
         (fun _ => run_dawn classic_registry hash0 0) 5 setup
       = Ok (final, result)
    /\ events final
       = [PhaseChangeEvent 0 SETUP [] SETUP NIGHT;
          PhaseChangeEvent 1 NIGHT [] SETUP NIGHT;
          PhaseChangeEvent 1 DAWN [] NIGHT DAWN;
          NightResultEvent 1 DAWN [] [] [] [];
          PhaseChangeEvent 1 GAME_OVER [] GAME_OVER GAME_OVER;
          result].
Proof.
  eexists _, _, _. split; [reflexivity|]. split; reflexivity.
Qed.

(** C7 -- Phase-transition events, at the final transition.  A game that
    the wolves win at dawn of day 3 is finalized by [_end_game] from a
    state whose phase is DAWN; the [PhaseChangeEvent] appended for the
    transition to GAME_OVER carries old_phase = GAME_OVER, not DAWN, while
    [_transition] from the same state records DAWN as the old phase. *)
Theorem end_game_old_phase :
  phase wolves_won_at_dawn = DAWN
  /\ (exists result,
        check_victory wolves_won_at_dawn = Some result
        /\ events (_end_game wolves_won_at_dawn result)
           = [PhaseChangeEvent 3 GAME_OVER [] GAME_OVER GAME_OVER; result])
  /\ events (_transition wolves_won_at_dawn DAY_DISCUSSION)
     = [PhaseChangeEvent 3 DAY_DISCUSSION [] DAWN DAY_DISCUSSION].
Proof.
  split; [reflexivity|]. split; [|reflexivity].
  eexists. split; reflexivity.
Qed.

(* ================================================================== *)
(** * The day vote                                                      *)
(* ================================================================== *)

Section DayVote.

Lemma vote_tally_Counter (votes : dict (option string)) :
  vote_tally votes = Counter (cast_targets votes).
Proof.
  unfold vote_tally, Counter, cast_targets.
  generalize (@nil (string * nat)).
  induction (dict_values votes) as [|v vs IH]; intros c; simpl;
    [reflexivity|].
  destruct v as [t|]; simpl; apply IH.
Qed.

Lemma cast_targets_count (t : string) (votes : dict (option string)) :
  count_occ_str t (cast_targets votes) = votes_for t votes.
Proof.
  unfold cast_targets, votes_for, dict_values.
  induction votes as [|[voter [x|]] votes IH]; simpl; try exact IH;
    [reflexivity|].
  destruct (x =? t); simpl; now rewrite IH.
Qed.

(** The items of the tally are the named targets with the number of
    voters naming them. *)
Lemma vote_tally_In (votes : dict (option string)) (t : string) (n : nat) :
  In (t, n) (vote_tally votes) <-> n = votes_for t votes /\ 1 <= n.
Proof.
  now rewrite vote_tally_Counter, Counter_In, cast_targets_count.
Qed.

(** What the [if tally:] block decides. *)
Lemma decide_vote_facts (tie_breaker : string) (rnd : nat)
  (votes : dict (option string)) :
  exists eliminated_id tie,
    decide_vote tie_breaker rnd (vote_tally votes) = Ok (eliminated_id, tie)
    /\ ((forall t, votes_for t votes = 0) ->
        eliminated_id = None /\ tie = false)
    /\ forall t,
         1 <= votes_for t votes ->
         (forall u, votes_for u votes <= votes_for t votes) ->
         exists tied,
           NoDup tied /\ In t tied
           /\ (forall c, In c tied
                         <-> votes_for c votes = votes_for t votes)
           /\ tie = negb (List.length tied =? 1)%nat
           /\ eliminated_id
              = if (List.length tied =? 1)%nat then Some t
                else if tie_breaker =? "no_elimination" then None
                else if tie_breaker =? "random" then
                  nth_error tied (rnd mod List.length tied)
                else None.
Proof.
  rewrite vote_tally_Counter.
  destruct (cast_targets votes) as [|x l] eqn:Hcast.
  - exists None, false. split; [reflexivity|]. split; [auto|].
    intros t Ht. rewrite <- cast_targets_count, Hcast in Ht. simpl in Ht. lia.
  - destruct (most_common_Counter x l) as [b [m [Hbest [Hm [Hpos Hmax]]]]].
    pose proof (Counter_nonempty x l) as Hne.
    unfold decide_vote.
    destruct (Counter (x :: l)) as [|it items] eqn:Htally; [contradiction|].
    rewrite <- Htally in *. rewrite Hbest. cbn [bind snd].
    set (tied := top_targets (Counter (x :: l)) m).
    assert (Hnd : NoDup tied) by apply top_targets_NoDup, Counter_wf.
    assert (Htied : forall c, In c tied <-> votes_for c votes = m).
    { intros c. unfold tied. rewrite top_targets_In, Counter_In.
      rewrite <- Hcast, cast_targets_count. split; [intros [H _]|]; auto. }
    assert (Hm' : m = votes_for b votes).
    { now rewrite <- cast_targets_count, Hcast. }
    assert (Hmax' : forall u, votes_for u votes <= m).
    { intros u. rewrite <- cast_targets_count, Hcast. apply Hmax. }
    assert (Hsome : exists e tie,
               (if (List.length tied =? 1)%nat
                then c <- index0 tied ;; Ok (Some c, false)
                else if tie_breaker =? "no_elimination" then Ok (None, true)
                else if tie_breaker =? "random"
                     then c <- random_choice rnd tied ;; Ok (Some c, true)
                     else Ok (None, true))
               = Ok (e, tie)
               /\ tie = negb (List.length tied =? 1)%nat
               /\ (forall t, In t tied ->
                   e = if (List.length tied =? 1)%nat then Some t
                       else if tie_breaker =? "no_elimination" then None
                       else if tie_breaker =? "random" then
                         nth_error tied (rnd mod List.length tied)
                       else None)).
    { destruct (Nat.eqb_spec (List.length tied) 1) as [Hone|Hmany].
      - destruct tied as [|c [|c' tied']]; try discriminate.
        exists (Some c), false. simpl. repeat split.
        intros t [<-|[]]. reflexivity.
      - destruct (tie_breaker =? "no_elimination");
          [exists None, true; auto|].
        destruct (tie_breaker =? "random"); [|exists None, true; auto].
        unfold random_choice.
        assert (Hlen : List.length tied <> 0).
        { assert (In b tied) by (apply Htied; auto).
          destruct tied; [contradiction | discriminate]. }
        pose proof (Nat.mod_upper_bound rnd _ Hlen) as Hlt.
        apply nth_error_Some in Hlt.
        destruct (nth_error tied (rnd mod List.length tied)) as [c|];
          [|contradiction].
        exists (Some c), true. auto. }
    destruct Hsome as [e [tie [Hd [Htie He]]]].
    exists e, tie. split; [exact Hd|]. split.
    + intros Hall. specialize (Hall b). lia.
    + intros t Ht Htop. exists tied.
      assert (Htm : votes_for t votes = m).
      { specialize (Htop b). specialize (Hmax' t). lia. }
      split; [exact Hnd|]. split; [now apply Htied|].
      split; [intros c; rewrite Htied; lia|].
      split; [exact Htie|]. apply He. now apply Htied.
Qed.

End DayVote.


(** Scenario C: A and B tie with two votes each; nobody is removed. *)
Example scenario_C_tie :
  forall state : GameState,
    exists state',
      run_vote_tally "no_elimination" 0 state scenario_C_votes = Ok state'
      /\ last (events state') (BaseEvent 0 SETUP [])
         = VoteResultEvent (day state) DAY_VOTE []
             [("A", 2); ("B", 2); ("C", 1)] None true.
Proof.
  intros state. eexists. split; [reflexivity|].
  simpl. rewrite last_last. reflexivity.
Qed.

(* ================================================================== *)
(** * Determinism                                                       *)
(* ================================================================== *)


(* ================================================================== *)
(** * The information boundary of the briefings                         *)
(* ================================================================== *)

Section Briefings.

Variable X : string.
Variables st1 st2 : GameState.

Lemma alive_ids_hidden (pack_known : bool) (ps1 ps2 : list PlayerSlot) :
  Forall2 (same_but_hidden pack_known) ps1 ps2 ->
  map player_id (filter is_alive ps1) = map player_id (filter is_alive ps2).
Proof.
  induction 1 as [|p1 p2 ps1 ps2 [Hid [Halive _]] _ IH]; simpl;
    [reflexivity|].
  rewrite Halive. destruct (is_alive p2); simpl; now rewrite ?Hid, IH.
Qed.

Lemma all_ids_hidden (pack_known : bool) (ps1 ps2 : list PlayerSlot) :
  Forall2 (same_but_hidden pack_known) ps1 ps2 ->
  map (fun p => (player_id p, is_alive p)) ps1
  = map (fun p => (player_id p, is_alive p)) ps2.
Proof.
  induction 1 as [|p1 p2 ps1 ps2 [Hid [Halive _]] _ IH]; simpl;
    [reflexivity|].
  now rewrite Hid, Halive, IH.
Qed.

(** The pack is hidden from nobody who is in it. *)
Lemma pack_ids_hidden (keep : string -> bool) (ps1 ps2 : list PlayerSlot) :
  Forall2 (same_but_hidden true) ps1 ps2 ->
  map player_id
    (filter (fun w => (team w =? "werewolf") && keep (player_id w))
       (filter is_alive ps1))
  = map player_id
      (filter (fun w => (team w =? "werewolf") && keep (player_id w))
         (filter is_alive ps2)).
Proof.
  induction 1 as [|p1 p2 ps1 ps2 [Hid [Halive Hpack]] _ IH]; simpl;
    [reflexivity|].
  rewrite Halive. destruct (is_alive p2); simpl; [|exact IH].
  rewrite (Hpack eq_refl), Hid.
  destruct ((team p2 =? "werewolf") && keep (player_id p2))%bool; simpl;
    now rewrite ?Hid, IH.
Qed.

Lemma flat_map_visible {B : Type} (f : GameEvent -> list B)
  (evs : list GameEvent) :
  (forall e, event_visible X false e = false -> f e = []) ->
  flat_map f evs = flat_map f (filter (event_visible X false) evs).
Proof.
  intros Hf. induction evs as [|e evs IH]; simpl; [reflexivity|].
  destruct (event_visible X false e) eqn:E; simpl; rewrite IH;
    [reflexivity|].
  now rewrite (Hf e E).
Qed.

Hypothesis same_day : day st1 = day st2.
Hypothesis same_visible :
  filter (event_visible X false) (events st1)
  = filter (event_visible X false) (events st2).

Lemma public_day_events_hidden (b : BriefingBuilder) :
  _get_public_day_events b st1 X = _get_public_day_events b st2 X.
Proof.
  unfold _get_public_day_events.
  assert (Hvis : forall st e, event_visible X false e = false ->
                              day_event_text b st X e = []).
  { intros st e He. unfold day_event_text.
    destruct (negb (event_day e =? day st)%Z); [reflexivity|].
    destruct e; simpl in He; try discriminate; try reflexivity.
    now rewrite He. }
  rewrite (flat_map_visible _ (events st1) (Hvis st1)),
    (flat_map_visible _ (events st2) (Hvis st2)), same_visible.
  apply flat_map_ext. intros e. unfold day_event_text. now rewrite same_day.
Qed.

Lemma discussion_speeches_hidden :
  _get_discussion_speeches st1 = _get_discussion_speeches st2.
Proof.
  unfold _get_discussion_speeches.
  assert (Hvis : forall st e, event_visible X false e = false ->
                              discussion_speech st e = []).
  { intros st e He. destruct e; simpl in He; try discriminate;
      try reflexivity.
    match type of He with
    | (if ?c =? "wolf" then _ else _) = false =>
        destruct (String.eqb_spec c "wolf") as [E|_]; [|discriminate]
    end.
    simpl. rewrite E. simpl. now rewrite andb_false_r. }
  rewrite (flat_map_visible _ (events st1) (Hvis st1)),
    (flat_map_visible _ (events st2) (Hvis st2)), same_visible.
  apply flat_map_ext. intros e. unfold discussion_speech.
  now rewrite same_day.
Qed.

Variable pack_known : bool.
Hypothesis same_players :
  Forall2 (same_but_hidden pack_known) (players st1) (players st2).

Lemma alive_names_hidden (b : BriefingBuilder) :
  alive_names b st1 = alive_names b st2.
Proof.
  unfold alive_names, get_alive_players.
  rewrite <- !(map_map player_id (_name b)).
  now rewrite (alive_ids_hidden pack_known _ _ same_players).
Qed.

Lemma all_players_hidden (b : BriefingBuilder) :
  map (fun p => (_name b (player_id p), is_alive p)) (players st1)
  = map (fun p => (_name b (player_id p), is_alive p)) (players st2).
Proof.
  rewrite <- !(map_map (fun p => (player_id p, is_alive p))
                 (fun ia => (_name b (fst ia), snd ia))).
  now rewrite (all_ids_hidden pack_known _ _ same_players).
Qed.

(** The text layer reads no role and no team from the state. *)
Lemma builder_hidden (b : BriefingBuilder) (rng : Rng) (kb : string) :
  (forall role_name ability description allies msgs,
      build_night_briefing b rng st1 X kb role_name ability description
        allies msgs
      = build_night_briefing b rng st2 X kb role_name ability description
          allies msgs)
  /\ (forall allies prior,
        build_wolf_chat_briefing b rng st1 X kb allies prior
        = build_wolf_chat_briefing b rng st2 X kb allies prior)
  /\ (forall role_name speeches,
        build_discussion_briefing b rng st1 X kb role_name speeches
        = build_discussion_briefing b rng st2 X kb role_name speeches)
  /\ (forall role_name targets,
        build_vote_briefing b rng st1 X kb role_name targets
        = build_vote_briefing b rng st2 X kb role_name targets)
  /\ (forall summary,
        build_reflection_briefing b rng st1 X kb summary
        = build_reflection_briefing b rng st2 X kb summary).
Proof.
  repeat split; intros;
    unfold build_night_briefing, build_wolf_chat_briefing,
      build_discussion_briefing, build_vote_briefing,
      build_reflection_briefing;
    rewrite ?(alive_names_hidden b), ?(all_players_hidden b), ?same_day,
      ?(public_day_events_hidden b), ?discussion_speeches_hidden;
    reflexivity.
Qed.

End Briefings.

Section ModeratorBriefings.

Lemma filter_by_id_hidden (pack_known : bool) (keep : string -> bool)
  (ps1 ps2 : list PlayerSlot) :
  Forall2 (same_but_hidden pack_known) ps1 ps2 ->
  map player_id (filter (fun p => keep (player_id p)) (filter is_alive ps1))
  = map player_id
      (filter (fun p => keep (player_id p)) (filter is_alive ps2)).
Proof.
  induction 1 as [|p1 p2 ps1 ps2 [Hid [Halive _]] _ IH]; simpl;
    [reflexivity|].
  rewrite Halive. destruct (is_alive p2); simpl; [|exact IH].
  rewrite Hid. destruct (keep (player_id p2)); simpl; now rewrite ?Hid, IH.
Qed.

Lemma wolf_names_by_id (name_of : string -> string) (pack : list PlayerSlot)
  (d : dict string) :
  fold_left (fun d w => dict_set (player_id w) (name_of (player_id w)) d)
    pack d
  = fold_left (fun d pid => dict_set pid (name_of pid) d)
      (map player_id pack) d.
Proof.
  revert d. induction pack as [|w pack IH]; intros d; simpl;
    [reflexivity | apply IH].
Qed.

Lemma alive_wolves_ids_hidden (ps1 ps2 : list PlayerSlot) :
  Forall2 (same_but_hidden true) ps1 ps2 ->
  map player_id (filter (fun p => team p =? "werewolf") (filter is_alive ps1))
  = map player_id
      (filter (fun p => team p =? "werewolf") (filter is_alive ps2)).
Proof.
  induction 1 as [|p1 p2 ps1 ps2 [Hid [Halive Hpack]] _ IH]; simpl;
    [reflexivity|].
  rewrite Halive. destruct (is_alive p2); simpl; [|exact IH].
  rewrite (Hpack eq_refl).
  destruct (team p2 =? "werewolf"); simpl; now rewrite ?Hid, IH.
Qed.

End ModeratorBriefings.

(** The briefings a wolf receives name the teams of the others: on the
    first night, with no reveal and no elimination in the log, the
    wolf-chat briefing of Ann lists the living villager Cy under "Alive
    villager-side players" (the text contains Cy's team string
    "village"), her night briefing lists Bob as a wolf ally and contains
    Bob's role and team string "werewolf", and the wolf-chat text changes
    when nothing but Cy's role and team changes. *)
Lemma wolf_briefings_tell_teams_counterexample :
  "v1" <> "w1"
  /\ get_player pack_state "v1" = Some Cy
  /\ is_alive Cy = true /\ team Cy = "village"
  /\ events pack_state = []
  /\ (exists text,
        wolf_chat_briefing_for pack_moderator rng0 pack_state Ann "" []
        = Some text
        /\ contains "Alive villager-side players: Cy, Dee" text = true
        /\ contains (team Cy) text = true)
  /\ (exists text,
        night_briefing_for pack_moderator rng0 pack_state Ann "" []
        = Ok (Some text)
        /\ contains "Your wolf allies: Bob" text = true
        /\ get_player pack_state "w2" = Some Bob
        /\ contains (role Bob) text = true /\ contains (team Bob) text = true)
  /\ wolf_chat_briefing_for pack_moderator rng0 pack_state Ann "" []
     <> wolf_chat_briefing_for pack_moderator rng0 pack_state_cy_wolf Ann
          "" [].
Proof.
  split; [discriminate|]. split; [reflexivity|]. split; [reflexivity|].
  split; [reflexivity|]. split; [reflexivity|].
  split; [eexists; split; [reflexivity | split; reflexivity]|].
  split; [eexists; split; [reflexivity | repeat split; reflexivity]|].
  vm_compute. discriminate.
Qed.

(** C5 (amended) -- Information boundary of the briefing text.  The text
    of every briefing built for a player X (night, wolf chat, discussion,
    vote, reflection) is the same in any two states that differ only in
    what is hidden from X: the name, role, team and metadata fields of the
    player slots, the private reveals addressed to others and the wolves'
    private speeches; for a werewolf X the two states must also have the
    same players in the pack, which the ally list and the list of
    villager-side players show to X by design. *)
Theorem briefing_information_boundary :
  forall (m : Moderator) (rng : Rng) (st1 st2 : GameState)
         (player : PlayerSlot) (kb_summary : string),
    differ_only_in_hidden (player_id player) (team player =? "werewolf")
      st1 st2 ->
    (forall msgs,
        night_briefing_for m rng st1 player kb_summary msgs
        = night_briefing_for m rng st2 player kb_summary msgs)
    /\ (team player = "werewolf" ->
        forall prior,
          wolf_chat_briefing_for m rng st1 player kb_summary prior
          = wolf_chat_briefing_for m rng st2 player kb_summary prior)
    /\ (forall speeches,
          discussion_briefing_for m rng st1 player kb_summary speeches
          = discussion_briefing_for m rng st2 player kb_summary speeches)
    /\ vote_briefing_for m rng st1 player kb_summary
       = vote_briefing_for m rng st2 player kb_summary
    /\ (forall summary,
          build_reflection_briefing (briefing_builder m) rng st1
            (player_id player) kb_summary summary
          = build_reflection_briefing (briefing_builder m) rng st2
              (player_id player) kb_summary summary).
Proof.
  intros m rng st1 st2 player kb [Hday [Hvis Hplayers]].
  destruct (builder_hidden (player_id player) st1 st2 Hday Hvis _ Hplayers
              (briefing_builder m) rng kb)
    as [Hnight [Hchat [Hdisc [Hvote Hrefl]]]].
  refine (conj _ (conj _ (conj _ (conj _ Hrefl)))).
  - intros msgs. unfold night_briefing_for.
    destruct (RoleRegistry_get (role_registry m) (role player)) as [r|];
      [|reflexivity].
    cbn [bind].
    destruct (filter (fun a => Phase_eqb (ability_phase a) NIGHT)
                (abilities r)) as [|ability _]; [reflexivity|].
    rewrite Hnight.
    destruct (team player =? "werewolf") eqn:Hwolf; [|reflexivity].
    unfold get_alive_players.
    rewrite <- !(map_map player_id (Moderator_name m)).
    now rewrite (pack_ids_hidden
                   (fun pid => negb (pid =? player_id player)) _ _ Hplayers).
  - intros Hwolf prior. apply String.eqb_eq in Hwolf.
    rewrite Hwolf in Hplayers.
    unfold wolf_chat_briefing_for, alive_wolves, get_alive_players.
    rewrite !wolf_names_by_id.
    rewrite <- (length_map player_id
                  (filter (fun p => team p =? "werewolf")
                     (filter is_alive (players st1)))).
    rewrite <- (length_map player_id
                  (filter (fun p => team p =? "werewolf")
                     (filter is_alive (players st2)))).
    rewrite (alive_wolves_ids_hidden _ _ Hplayers), Hchat. reflexivity.
  - intros speeches. unfold discussion_briefing_for.
    destruct (RoleRegistry_get (role_registry m) (role player));
      [|reflexivity].
    cbn [bind]. now rewrite Hdisc.
  - unfold vote_briefing_for.
    destruct (RoleRegistry_get (role_registry m) (role player));
      [|reflexivity].
    cbn [bind]. rewrite Hvote. unfold get_alive_players.
    rewrite <- !(map_map player_id (Moderator_name m)).
    now rewrite (filter_by_id_hidden _
                   (fun pid => negb (pid =? player_id player)) _ _ Hplayers).
Qed.

Lemma briefing_information_boundary_witness :
  differ_only_in_hidden (player_id Dee) (team Dee =? "werewolf")
    pack_state pack_state_cy_wolf
  /\ night_briefing_for pack_moderator rng0 pack_state Dee "" []
     = night_briefing_for pack_moderator rng0 pack_state_cy_wolf Dee "" [].
Proof.
  assert (H : differ_only_in_hidden (player_id Dee) (team Dee =? "werewolf")
                pack_state pack_state_cy_wolf).
  { split; [reflexivity|]. split; [reflexivity|].
    repeat constructor; discriminate. }
  split; [exact H|].
  destruct (briefing_information_boundary pack_moderator rng0 pack_state
              pack_state_cy_wolf Dee "" H) as [Hnight _].
  apply Hnight.
Defined.

(* ================================================================== *)
(** * Lookups and updates of the state                                  *)
(* ================================================================== *)

Section StateOperations.

Lemma find_player_In (ps : list PlayerSlot) (pid : string) (p : PlayerSlot) :
  find_player ps pid = Some p -> In p ps /\ player_id p = pid.
Proof.
  induction ps as [|q ps IH]; simpl; [discriminate|].
  destruct (String.eqb_spec (player_id q) pid) as [E|_].
  - intros H. inversion H; subst. auto.
  - intros H. destruct (IH H). auto.
Qed.

Lemma find_player_None (ps : list PlayerSlot) (pid : string) :
  find_player ps pid = None <-> ~ In pid (map player_id ps).
Proof.
  induction ps as [|q ps IH]; simpl; [tauto|].
  destruct (String.eqb_spec (player_id q) pid) as [E|Hne].
  - split; [discriminate | intros H; exfalso; auto].
  - rewrite IH. tauto.
Qed.

Lemma find_player_map_kill (ps : list PlayerSlot) (pid q : string) :
  find_player (map (kill_slot pid) ps) q
  = if q =? pid then option_map (kill_slot pid) (find_player ps q)
    else find_player ps q.
Proof.
  induction ps as [|p ps IH]; simpl; [now destruct (q =? pid)|].
  destruct (kill_slot_identity pid p) as [Hid _]. rewrite Hid, IH.
  destruct (String.eqb_spec (player_id p) q) as [E|Hne].
  - destruct (String.eqb_spec q pid) as [E'|Hne']; [reflexivity|].
    unfold kill_slot. destruct (String.eqb_spec (player_id p) pid);
      [congruence | reflexivity].
  - now destruct (q =? pid).
Qed.

Lemma map_kill_absent (ps : list PlayerSlot) (pid : string) :
  ~ In pid (map player_id ps) -> map (kill_slot pid) ps = ps.
Proof.
  induction ps as [|p ps IH]; simpl; [reflexivity|].
  intros H. rewrite IH by tauto. unfold kill_slot.
  destruct (String.eqb_spec (player_id p) pid); [exfalso; auto | reflexivity].
Qed.

Lemma kill_slot_twice (pid : string) (p : PlayerSlot) :
  kill_slot pid (kill_slot pid p) = kill_slot pid p.
Proof.
  unfold kill_slot. destruct (player_id p =? pid) eqn:E; simpl;
    now rewrite E.
Qed.

Lemma kill_slot_comm (a b : string) (p : PlayerSlot) :
  kill_slot a (kill_slot b p) = kill_slot b (kill_slot a p).
Proof.
  unfold kill_slot.
  destruct (player_id p =? a) eqn:Ea, (player_id p =? b) eqn:Eb; simpl;
    rewrite ?Ea, ?Eb; reflexivity.
Qed.

End StateOperations.

(** X1 -- Killing and looking up.  After [with_player_killed(pid)] the
    lookup of [pid] returns the same slot marked dead, the lookup of any
    other id is unchanged, and killing an id that names no player returns
    a state equal to the original (no error is raised). *)
Theorem kill_then_lookup :
  forall (s : GameState) (pid q : string),
    (forall p, get_player s pid = Some p ->
       get_player (with_player_killed s pid) pid
       = Some (mkPlayerSlot (player_id p) (name p) (role p) (team p) false
                 (metadata p)))
    /\ (get_player s pid = None ->
        get_player (with_player_killed s pid) pid = None
        /\ with_player_killed s pid = s)
    /\ (q <> pid ->
        get_player (with_player_killed s pid) q = get_player s q).
Proof.
  intros s pid q. unfold get_player, with_player_killed. cbn [players].
  refine (conj _ (conj _ _)).
  - intros p Hp. rewrite find_player_map_kill, String.eqb_refl, Hp. simpl.
    apply find_player_In in Hp. destruct Hp as [_ Hid].
    unfold kill_slot. apply String.eqb_eq in Hid. now rewrite Hid.
  - intros Hnone. rewrite find_player_map_kill, String.eqb_refl, Hnone.
    split; [reflexivity|].
    apply find_player_None in Hnone. rewrite (map_kill_absent _ _ Hnone).
    now destruct s.
  - intros Hne. rewrite find_player_map_kill.
    now destruct (String.eqb_spec q pid).
Qed.

(** X2 -- Killing twice, killing in any order.  [with_player_killed] is
    idempotent, two kills commute, and the ids of the living players
    after the kill are those of before without the killed id. *)
Theorem kill_is_idempotent_and_commutes :
  forall (s : GameState) (a b : string),
    with_player_killed (with_player_killed s a) a = with_player_killed s a
    /\ with_player_killed (with_player_killed s a) b
       = with_player_killed (with_player_killed s b) a
    /\ get_alive_player_ids (with_player_killed s a)
       = filter (fun i => negb (i =? a)) (get_alive_player_ids s).
Proof.
  intros s a b. unfold with_player_killed, get_alive_player_ids.
  cbn [players day phase events night_actions].
  refine (conj _ (conj _ _)).
  - f_equal. rewrite map_map. apply map_ext, kill_slot_twice.
  - f_equal. rewrite !map_map. apply map_ext. intros p.
    apply kill_slot_comm.
  - induction (players s) as [|p ps IH]; simpl; [reflexivity|].
    destruct (kill_slot_identity a p) as [Hid [_ [_ [_ [_ Halive]]]]].
    rewrite Halive.
    destruct (is_alive p); simpl; [|exact IH].
    destruct (player_id p =? a); simpl; [exact IH|].
    now rewrite Hid, IH.
Qed.

(** X3 -- Recording night actions.  After [with_night_action(pid, a)]
    the dict maps [pid] to [a] and every other id to what it mapped to
    before; a new id is appended at the end, a known id keeps its place;
    the keys stay distinct; [clear_night_actions] leaves no entry. *)
Theorem night_action_recorded :
  forall (s : GameState) (pid q : string) (a : Action),
    let s' := with_night_action s pid a in
    dict_get pid (night_actions s') = Some a
    /\ (q <> pid ->
        dict_get q (night_actions s') = dict_get q (night_actions s))
    /\ (dict_get pid (night_actions s) = None ->
        night_actions s' = night_actions s ++ [(pid, a)])
    /\ (dict_get pid (night_actions s) <> None ->
        dict_keys (night_actions s') = dict_keys (night_actions s))
    /\ (NoDup (dict_keys (night_actions s)) ->
        NoDup (dict_keys (night_actions s')))
    /\ night_actions (clear_night_actions s') = [].
Proof.
  intros s pid q a s'. subst s'. unfold with_night_action, dict_keys.
  cbn [night_actions clear_night_actions].
  assert (Hkeys : forall d : dict Action,
             dict_get pid d <> None ->
             map fst (dict_set pid a d) = map fst d).
  { induction d as [|[k v] d IH]; simpl; [congruence|].
    destruct (String.eqb_spec k pid) as [->|Hne]; simpl; [reflexivity|].
    intros H. now rewrite IH. }
  assert (Happ : forall d : dict Action,
             dict_get pid d = None -> dict_set pid a d = d ++ [(pid, a)]).
  { induction d as [|[k v] d IH]; simpl; [reflexivity|].
    destruct (String.eqb_spec k pid) as [->|Hne]; [discriminate|].
    intros H. now rewrite IH. }
  refine (conj _ (conj _ (conj _ (conj _ (conj _ _))))).
  - induction (night_actions s) as [|[k v] d IH]; simpl.
    + now rewrite String.eqb_refl.
    + destruct (String.eqb_spec k pid) as [->|Hne]; simpl.
      * now rewrite String.eqb_refl.
      * destruct (String.eqb_spec k pid); [contradiction | exact IH].
  - intros Hne. induction (night_actions s) as [|[k v] d IH]; simpl.
    + destruct (String.eqb_spec pid q); [congruence | reflexivity].
    + destruct (String.eqb_spec k pid) as [->|Hk]; simpl.
      * destruct (String.eqb_spec pid q); [congruence | reflexivity].
      * now rewrite IH.
  - apply Happ.
  - apply Hkeys.
  - intros Hnd.
    destruct (dict_get pid (night_actions s)) as [v|] eqn:E.
    + rewrite Hkeys by congruence. exact Hnd.
    + rewrite (Happ _ E), map_app. simpl.
      apply (Permutation_NoDup (l := pid :: map fst (night_actions s))).
      * apply Permutation_cons_append.
      * constructor; [|exact Hnd].
        clear Hnd. induction (night_actions s) as [|[k v] d IH]; simpl;
          [tauto|].
        simpl in E. destruct (String.eqb_spec k pid) as [->|Hk];
          [discriminate|].
        intros [H|H]; [contradiction | now apply IH].
  - reflexivity.
Qed.

(** X4 -- The view of the log only grows.  Among the update operations
    only [with_event] changes the events a player sees, and it changes
    them by appending the new event when it is visible to the player:
    what a player has seen is never withdrawn or rewritten. *)
Theorem view_of_the_log_only_grows :
  forall (s : GameState) (X : string) (u : update),
    view_events (mkGameStateView (apply_update s u) X)
    = view_events (mkGameStateView s X)
      ++ match u with
         | WithEvent e =>
             if event_visible X (view_is_wolf (mkGameStateView s X)) e
             then [e] else []
         | _ => []
         end.
Proof.
  intros s X u.
  assert (Hwolf : view_is_wolf (mkGameStateView (apply_update s u) X)
                  = view_is_wolf (mkGameStateView s X)).
  { unfold view_is_wolf, get_player. cbn [_state _player_id].
    destruct u; try reflexivity. cbn [apply_update with_player_killed players].
    rewrite find_player_map_kill.
    destruct (X =? pid); [|reflexivity].
    destruct (find_player (players s) X) as [p|]; [|reflexivity]. simpl.
    now destruct (kill_slot_identity pid p) as [_ [_ [_ [-> _]]]]. }
  unfold view_events. rewrite Hwolf. cbn [_state _player_id].
  destruct u; cbn [apply_update with_phase with_day with_player_killed
                     with_night_action with_event clear_night_actions events];
    rewrite ?app_nil_r; try reflexivity.
  rewrite filter_app. reflexivity.
Qed.

(** X5 -- The owner of a view.  [my_player] raises [ValueError] exactly
    when the id of the view names no player; otherwise it returns the
    first slot with that id, in full, and when that slot is alive it is an
    entry of [alive_players], with its role and team. *)
Theorem my_player_of_the_view :
  forall (s : GameState) (X : string),
    let v := mkGameStateView s X in
    (~ In X (map player_id (players s)) <->
     exists message, view_my_player v = Raise (ValueError message))
    /\ (forall p, view_my_player v = Ok p ->
          player_id p = X /\ In p (players s)
          /\ (is_alive p = true -> In p (view_alive_players v))).
Proof.
  intros s X v. subst v. unfold view_my_player, get_player.
  cbn [_state _player_id]. split.
  - rewrite <- find_player_None.
    destruct (find_player (players s) X) as [p|]; split.
    + discriminate.
    + intros [m H]. discriminate.
    + intros _. eexists. reflexivity.
    + reflexivity.
  - intros p Hp.
    destruct (find_player (players s) X) as [p'|] eqn:E; [|discriminate].
    inversion Hp; subst p'. apply find_player_In in E.
    destruct E as [Hin Hid]. split; [exact Hid|]. split; [exact Hin|].
    intros Halive. unfold view_alive_players, get_alive_players.
    cbn [_state _player_id]. apply in_map_iff. exists p. split.
    + apply String.eqb_eq in Hid. now rewrite Hid.
    + apply filter_In. auto.
Qed.

(* ================================================================== *)
(** * More on the night resolver                                        *)
(* ================================================================== *)

Section NightDetails.

Variable state : GameState.
Variable reg : RoleRegistry.

Lemma build_night_actions_reveals (items : dict Action)
  (built : list NightAction) :
  build_night_actions state reg items = Ok built ->
  flat_map (reveal_of state) built = investigation_reveals_in state items.
Proof.
  revert built. induction items as [|[pid action] items IH]; intros built;
    simpl.
  - intros H. now inversion H.
  - destruct action as [| | |actor md ab target|]; simpl;
      try (now apply IH).
    destruct (get_player state pid) as [p|].
    + destruct (RoleRegistry_get reg (role p)); [|discriminate]. simpl.
      destruct (build_night_actions state reg items) as [rest|];
        [|discriminate].
      simpl. intros H. inversion H; subst. simpl.
      unfold reveal_of at 1. simpl.
      destruct (ab =? "investigate"); simpl; now rewrite (IH rest).
    + destruct (ab =? "investigate"); now apply IH.
Qed.

Lemma walk_events_eq (nas : list NightAction) (w : Walk) :
  w_events (fold_left (walk_step state) nas w)
  = w_events w ++ flat_map (reveal_of state) nas.
Proof.
  revert w. induction nas as [|na nas IH]; intros w; simpl.
  - now rewrite app_nil_r.
  - rewrite IH. unfold walk_step, reveal_of, reveal_to.
    destruct (String.eqb_spec (na_ability na) "protect") as [E|_].
    + rewrite E. reflexivity.
    + destruct (String.eqb_spec (na_ability na) "kill") as [E|_].
      * rewrite E. reflexivity.
      * destruct (na_ability na =? "investigate"); [|reflexivity].
        destruct (get_player state (na_target_id na)); simpl;
          [now rewrite <- app_assoc | reflexivity].
Qed.

Lemma night_walk_reveals (w : Walk) :
  night_walk state reg = Ok w ->
  Permutation (w_events w) (investigation_reveals state)
  /\ Forall (fun e => is_private_reveal e = true
                      /\ event_day e = day state /\ event_phase e = DAWN)
       (w_events w).
Proof.
  unfold night_walk.
  destruct (build_night_actions state reg (night_actions state))
    as [built|] eqn:Hb; [|discriminate].
  simpl. intros H. inversion H; subst w. unfold walk.
  rewrite walk_events_eq. simpl. split.
  - unfold investigation_reveals.
    rewrite <- (build_night_actions_reveals _ built Hb).
    apply Permutation_flat_map. symmetry. apply stable_sort_perm.
  - apply Forall_forall. intros e He. apply in_flat_map in He.
    destruct He as [na [_ He]]. unfold reveal_of, reveal_to in He.
    destruct (na_ability na =? "investigate"); [|contradiction].
    destruct (get_player state (na_target_id na)); [|contradiction].
    destruct He as [<-|[]]. auto.
Qed.

(** The first lookup that fails is the error of the whole resolution. *)
Lemma build_night_actions_raises (items : dict Action) :
  roles_registered_in state reg items = false ->
  exists r pid p,
    build_night_actions state reg items = Raise (KeyError r)
    /\ dict_get r reg = None
    /\ In pid (dict_keys items)
    /\ get_player state pid = Some p /\ role p = r.
Proof.
  induction items as [|[pid action] items IH]; simpl; [discriminate|].
  intros H. apply andb_false_iff in H.
  destruct action as [| | |actor md ab target|]; simpl in *;
    try (destruct H as [H|H]; [discriminate|];
         destruct (IH H) as [r [q [p [Hr [Hreg [Hin Hp]]]]]];
         exists r, q, p; auto).
  destruct (get_player state pid) as [p|] eqn:Hp.
  - unfold RoleRegistry_get.
    destruct (dict_get (role p) reg) as [rl|] eqn:Hrole.
    + destruct H as [H|H]; [discriminate|].
      destruct (IH H) as [r [q [p' [Hr [Hreg [Hin Hp']]]]]].
      exists r, q, p'. simpl. rewrite Hr. auto.
    + exists (role p), pid, p. auto.
  - destruct H as [H|H]; [discriminate|].
    destruct (IH H) as [r [q [p [Hr [Hreg [Hin Hp']]]]]].
    exists r, q, p. auto.
Qed.

Lemma build_night_actions_idle (items : dict Action) :
  forallb (fun entry => negb (acts_at_night state entry)) items = true ->
  build_night_actions state reg items = Ok [].
Proof.
  induction items as [|[pid action] items IH]; simpl; [reflexivity|].
  intros H. apply andb_prop in H. destruct H as [Hhd Htl].
  unfold acts_at_night in Hhd. simpl in Hhd.
  destruct action; try (now apply IH).
  destruct (get_player state pid); [discriminate | now apply IH].
Qed.

End NightDetails.

(** X6 -- Investigations.  [resolve_night] emits one [PrivateRevealEvent]
    for every recorded "investigate" action of a player of the state
    whose target is a player of the state, addressed to the investigator
    and naming the target's name, id and role as they are in the state
    before the night; no other private reveal is emitted, and an
    investigation of an unknown id earns nothing. *)
Theorem investigations_are_revealed :
  forall (state : GameState) (reg : RoleRegistry) (str_hash : string -> Z)
         (rnd : nat),
    roles_registered state reg = true ->
    exists state' evs,
      resolve_night state reg str_hash rnd = Ok (state', evs)
      /\ Permutation (filter is_private_reveal evs)
           (investigation_reveals state).
Proof.
  intros state reg str_hash rnd Hreg.
  destruct (night_walk_ok state reg Hreg) as [w [Hw [_ [_ Hrev]]]].
  rewrite (resolve_night_outcome state reg str_hash rnd w Hw).
  destruct (night_outcome_facts state str_hash w
              (consensus (submitted_kill_targets state)) Hrev)
    as [kills [saved [Hevs _]]].
  destruct (night_outcome state str_hash w
              (consensus (submitted_kill_targets state)))
    as [state' evs].
  cbn [fst snd] in Hevs. exists state', evs. split; [reflexivity|].
  rewrite Hevs. cbn [filter is_private_reveal]. rewrite filter_app.
  assert (Hnone : filter is_private_reveal (elimination_events evs) = []).
  { unfold elimination_events. clear.
    induction evs as [|e evs IH]; simpl; [reflexivity|].
    destruct e; simpl; auto. }
  assert (Hall : filter is_private_reveal (w_events w) = w_events w).
  { clear -Hrev. induction Hrev as [|e l He _ IH]; simpl; [reflexivity|].
    now rewrite He, IH. }
  rewrite Hnone, Hall, app_nil_r.
  apply (night_walk_reveals state reg w Hw).
Qed.

Lemma investigations_are_revealed_witness :
  roles_registered scenario_kill classic_registry = true
  /\ exists state' evs,
       resolve_night scenario_kill classic_registry hash0 0
       = Ok (state', evs)
       /\ Permutation (filter is_private_reveal evs)
            [PrivateRevealEvent 1 DAWN [] "seer1"
               "Wolf2 (wolf2) is a werewolf."].
Proof.
  split; [reflexivity|].
  exact (investigations_are_revealed scenario_kill classic_registry hash0 0
           eq_refl).
Defined.

(** X7 -- A night kills at most one player, never a protected one.
    After [resolve_night] either the players are unchanged, or the slots
    of exactly one id are marked dead, and that id named a living player
    and was the target of no protect action; the slot of every protected
    id is what it was. *)
Theorem a_night_kills_at_most_one :
  forall (state : GameState) (reg : RoleRegistry) (str_hash : string -> Z)
         (rnd : nat),
    roles_registered state reg = true ->
    exists state' evs,
      resolve_night state reg str_hash rnd = Ok (state', evs)
      /\ (players state' = players state
          \/ exists t,
               is_living_player state t = true
               /\ ~ In t (submitted_protect_targets state)
               /\ players state' = map (kill_slot t) (players state))
      /\ forall t, In t (submitted_protect_targets state) ->
                   get_player state' t = get_player state t.
Proof.
  intros state reg str_hash rnd Hreg.
  destruct (resolve_night_facts state reg str_hash rnd Hreg)
    as [state' [kills [protected [saved [rest
         [Hres [_ [_ [_ Hcase]]]]]]]]].
  eexists state', _. split; [exact Hres|].
  assert (Hplayers :
            players state' = players state
            \/ exists t,
                 is_living_player state t = true
                 /\ ~ In t (submitted_protect_targets state)
                 /\ players state' = map (kill_slot t) (players state)).
  { destruct (consensus (submitted_kill_targets state)) as [t|];
      [|left; tauto].
    destruct Hcase as [Hs Hk].
    destruct (in_dec string_dec t (submitted_protect_targets state))
      as [Hp|Hp]; [left; now apply Hs|].
    destruct (Hk Hp) as [_ [_ [_ Hcase]]].
    destruct (get_player state t) as [p|] eqn:Hg; [|left; tauto].
    destruct (is_alive p) eqn:Halive; [|left; tauto].
    right. exists t. destruct Hcase as [_ Hcase].
    unfold is_living_player. rewrite Hg.
    split; [exact Halive|]. split; [exact Hp | exact Hcase]. }
  split; [exact Hplayers|].
  intros t Ht. unfold get_player.
  destruct Hplayers as [->|[v [_ [Hv ->]]]]; [reflexivity|].
  rewrite find_player_map_kill.
  destruct (String.eqb_spec t v) as [->|_]; [contradiction | reflexivity].
Qed.

Lemma a_night_kills_at_most_one_witness :
  roles_registered scenario_A classic_registry = true
  /\ exists state' evs,
       resolve_night scenario_A classic_registry hash0 0 = Ok (state', evs)
       /\ get_player state' "vil1" = get_player scenario_A "vil1".
Proof.
  split; [reflexivity|].
  destruct (a_night_kills_at_most_one scenario_A classic_registry hash0 0
              eq_refl) as [state' [evs [Hres [_ Hprot]]]].
  exists state', evs. split; [exact Hres|].
  apply Hprot. simpl. now left.
Defined.

Lemma emitted_frame (s : GameState) (evs : list GameEvent) :
  day (fst (emitted s evs)) = day s
  /\ phase (fst (emitted s evs)) = phase s
  /\ players (fst (emitted s evs)) = players s
  /\ night_actions (fst (emitted s evs)) = night_actions s
  /\ events (fst (emitted s evs)) = events s ++ snd (emitted s evs).
Proof.
  unfold emitted. cbn [fst snd]. rewrite fold_with_event. simpl. tauto.
Qed.

(** X8 -- The frame of a night.  [resolve_night] leaves the day, the
    phase and the recorded night actions of the state as they are (the
    actions are not consumed), appends exactly the events it returns to
    the log, and stamps every event with the day of the state and the
    phase DAWN. *)
Theorem night_frame :
  forall (state : GameState) (reg : RoleRegistry) (str_hash : string -> Z)
         (rnd : nat) (state' : GameState) (evs : list GameEvent),
    resolve_night state reg str_hash rnd = Ok (state', evs) ->
    day state' = day state
    /\ phase state' = phase state
    /\ night_actions state' = night_actions state
    /\ events state' = events state ++ evs
    /\ Forall (fun e => event_day e = day state /\ event_phase e = DAWN) evs.
Proof.
  intros state reg str_hash rnd state' evs Hres.
  assert (Hreg : roles_registered state reg = true).
  { apply (resolve_night_returns state reg str_hash rnd). eauto. }
  destruct (night_walk_ok state reg Hreg) as [w [Hw _]].
  destruct (night_walk_reveals state reg w Hw) as [_ Hrev].
  rewrite (resolve_night_outcome state reg str_hash rnd w Hw) in Hres.
  inversion Hres as [Hout]. clear Hres.
  assert (Hstamp : Forall (fun e => event_day e = day state
                                    /\ event_phase e = DAWN) (w_events w)).
  { eapply Forall_impl; [|exact Hrev]. simpl. tauto. }
  assert (Hfst : state' = fst (night_outcome state str_hash w
                   (consensus (submitted_kill_targets state))))
    by now rewrite Hout.
  assert (Hsnd : evs = snd (night_outcome state str_hash w
                   (consensus (submitted_kill_targets state))))
    by now rewrite Hout.
  clear Hout. subst state' evs. unfold night_outcome.
  destruct (consensus (submitted_kill_targets state)) as [t|];
    [destruct (mem t (w_protected w));
     [|destruct (get_player state t) as [p|];
       [destruct (is_alive p)|]]|];
    match goal with
    | |- context [emitted ?s ?l] =>
        destruct (emitted_frame s l) as [Hd [Hp [_ [Hn He]]]];
        rewrite Hd, Hp, Hn, He
    end;
    cbn [day phase night_actions events with_player_killed emitted snd];
    (split; [reflexivity|]); (split; [reflexivity|]);
    (split; [reflexivity|]); (split; [reflexivity|]);
    (constructor; [split; reflexivity|]); try exact Hstamp.
  apply Forall_app. split; [exact Hstamp|].
  constructor; [split; reflexivity | constructor].
Qed.

Lemma night_frame_witness :
  exists state' evs,
    resolve_night scenario_kill classic_registry hash0 0 = Ok (state', evs)
    /\ night_actions state' = night_actions scenario_kill
    /\ events state' = events scenario_kill ++ evs.
Proof.
  eexists _, _. split; [reflexivity|].
  destruct (night_frame scenario_kill classic_registry hash0 0 _ _ eq_refl)
    as [_ [_ [Hna [Hev _]]]].
  split; [exact Hna | exact Hev].
Defined.

(** X9 -- An unregistered role.  When an acting player of the state has
    a role the registry does not know, [resolve_night] raises the
    [KeyError] of the registry for the role of such a player, and returns
    neither a state nor an event. *)
Theorem unregistered_role_raises :
  forall (state : GameState) (reg : RoleRegistry) (str_hash : string -> Z)
         (rnd : nat),
    roles_registered state reg = false ->
    exists r pid p,
      resolve_night state reg str_hash rnd = Raise (KeyError r)
      /\ dict_get r reg = None
      /\ In pid (dict_keys (night_actions state))
      /\ get_player state pid = Some p /\ role p = r.
Proof.
  intros state reg str_hash rnd Hreg.
  destruct (build_night_actions_raises state reg _ Hreg)
    as [r [pid [p [Hr H]]]].
  exists r, pid, p. split; [|exact H].
  unfold resolve_night. now rewrite Hr.
Qed.

Lemma unregistered_role_raises_witness :
  roles_registered jester_state classic_registry = false
  /\ exists r,
       resolve_night jester_state classic_registry hash0 0
       = Raise (KeyError r)
       /\ dict_get r classic_registry = None.
Proof.
  split; [reflexivity|].
  destruct (unregistered_role_raises jester_state classic_registry hash0 0
              eq_refl) as [r [pid [p [Hr [Hreg _]]]]].
  exists r. split; [exact Hr | exact Hreg].
Defined.

(** X10 -- A night without abilities.  When no recorded entry is an
    ability action of a player of the state (only [NoAction]s, other
    actions, or actions under ids that name no player), [resolve_night]
    consults no role, so it returns with any registry, and it returns the
    state with one more event, the empty [NightResultEvent]. *)
Theorem idle_night_resolves_to_nothing :
  forall (state : GameState) (reg : RoleRegistry) (str_hash : string -> Z)
         (rnd : nat),
    forallb (fun entry => negb (acts_at_night state entry))
      (night_actions state) = true ->
    resolve_night state reg str_hash rnd
    = Ok (with_event state (NightResultEvent (day state) DAWN [] [] [] []),
          [NightResultEvent (day state) DAWN [] [] [] []]).
Proof.
  intros state reg str_hash rnd H. unfold resolve_night.
  now rewrite (build_night_actions_idle state reg _ H).
Qed.

Lemma idle_night_resolves_to_nothing_witness :
  forallb (fun entry => negb (acts_at_night idle_night entry))
    (night_actions idle_night) = true
  /\ resolve_night idle_night [] hash0 0
     = Ok (with_event idle_night (NightResultEvent 1 DAWN [] [] [] []),
           [NightResultEvent 1 DAWN [] [] [] []]).
Proof.
  split; [reflexivity|].
  exact (idle_night_resolves_to_nothing idle_night [] hash0 0 eq_refl).
Defined.

(* ================================================================== *)
(** * The vote result, the setup and the shuffle                        *)
(* ================================================================== *)

Section VoteResult.

Lemma get_player_with_event (s : GameState) (e : GameEvent) (t : string) :
  get_player (with_event s e) t = get_player s t.
Proof. reflexivity. Qed.

Lemma last_vote_result_snoc (s : GameState) (e x : GameEvent) :
  is_vote_result e = true -> is_vote_result x = false ->
  _last_vote_result (with_event (with_event s e) x) = Some e.
Proof.
  intros He Hx. unfold _last_vote_result. simpl.
  rewrite !rev_app_distr. simpl. now rewrite Hx, He.
Qed.

End VoteResult.


(** X12 -- The vote just tallied is the vote applied.  After [run_vote]
    has tallied the collected votes, the day-vote-result step of
    [Game.run] finds exactly the [VoteResultEvent] of this tally as the
    last vote result, never one of an earlier day, and applies it: a
    living player it names is dead afterwards, and when it names nobody
    the players are unchanged. *)
Theorem tallied_vote_is_applied :
  forall (tie_breaker : string) (rnd : nat) (state : GameState)
         (votes : dict (option string)) (s1 : GameState),
    run_vote_tally tie_breaker rnd state votes = Ok s1 ->
    exists eliminated_id tie,
      decide_vote tie_breaker rnd (vote_tally votes)
      = Ok (eliminated_id, tie)
      /\ _last_vote_result (_transition s1 DAY_VOTE_RESULT)
         = Some (VoteResultEvent (day state) DAY_VOTE [] (vote_tally votes)
                   eliminated_id tie)
      /\ match eliminated_id with
         | Some t =>
             is_living_player (day_vote_result_step s1) t = false
             /\ forall q, q <> t ->
                  get_player (day_vote_result_step s1) q = get_player state q
         | None => players (day_vote_result_step s1) = players state
         end.
Proof.
  intros tie_breaker rnd state votes s1. unfold run_vote_tally.
  destruct (decide_vote tie_breaker rnd (vote_tally votes)) as [[el tie]|]
    eqn:Hd; [|discriminate].
  cbn [bind fst snd]. rewrite fold_with_event. cbn [day].
  intros H. injection H as Hs1.
  exists el, tie. split; [reflexivity|].
  assert (Hlast :
            _last_vote_result (_transition s1 DAY_VOTE_RESULT)
            = Some (VoteResultEvent (day state) DAY_VOTE [] (vote_tally votes)
                      el tie)).
  { rewrite <- Hs1. unfold _transition.
    unfold _last_vote_result. simpl. rewrite !rev_app_distr. reflexivity. }
  split; [exact Hlast|].
  unfold day_vote_result_step. rewrite Hlast.
  assert (Hplayers : players (_transition s1 DAY_VOTE_RESULT)
                     = players state) by (now rewrite <- Hs1).
  destruct el as [t|]; [|exact Hplayers].
  unfold run_vote_result, is_living_player, get_player.
  rewrite Hplayers.
  fold (get_player state t).
  destruct (get_player state t) as [target|] eqn:Hg.
  - destruct (is_alive target) eqn:Ha.
    + cbn [players with_event with_player_killed]. rewrite Hplayers.
      split.
      * pose proof (find_player_killed (players state) t) as Hk.
        now destruct (find_player (map (kill_slot t) (players state)) t).
      * intros q Hq. rewrite find_player_map_kill.
        destruct (String.eqb_spec q t); [contradiction | reflexivity].
    + rewrite Hplayers. unfold get_player in Hg. rewrite Hg. auto.
  - rewrite Hplayers. unfold get_player in Hg. rewrite Hg. auto.
Qed.

Lemma tallied_vote_is_applied_witness :
  exists s1,
    run_vote_tally "random" 1 (five_player_state []) tied_day_votes = Ok s1
    /\ is_living_player (day_vote_result_step s1) "wolf1" = false.
Proof.
  eexists. split; [reflexivity|].
  destruct (tallied_vote_is_applied "random" 1 (five_player_state [])
              tied_day_votes _ eq_refl) as [el [tie [Hd [_ Hcase]]]].
  vm_compute in Hd. inversion Hd; subst el tie. exact (proj1 Hcase).
Defined.

Section Setup.

Lemma config_role_list_ok (reg : RoleRegistry) (roles : list (string * nat))
  (rl : list (string * string)) :
  config_role_list reg roles = Ok rl ->
  map fst rl = roles_in_order roles
  /\ Forall (fun rt => exists r, dict_get (fst rt) reg = Some r
                                 /\ snd rt = role_team r) rl.
Proof.
  revert rl. induction roles as [|[rn c] roles IH]; intros rl; simpl.
  - intros H. inversion H. split; [reflexivity | constructor].
  - unfold RoleRegistry_get.
    destruct (dict_get rn reg) as [r|] eqn:Hr; [|discriminate]. simpl.
    destruct (config_role_list reg roles) as [rest|]; [|discriminate].
    simpl. intros H. inversion H; subst rl. clear H.
    destruct (IH rest eq_refl) as [Hm Hf].
    unfold roles_in_order in *. simpl. rewrite map_app, Hm. split.
    + f_equal. clear. induction c; simpl; [reflexivity | now f_equal].
    + apply Forall_app. split; [|exact Hf].
      apply Forall_forall. intros rt Hin. apply repeat_spec in Hin.
      subst rt. exists r. auto.
Qed.

Lemma config_role_list_raises (reg : RoleRegistry)
  (roles : list (string * nat)) (e : exn) :
  config_role_list reg roles = Raise e ->
  exists rn, e = KeyError rn /\ In rn (map fst roles)
             /\ dict_get rn reg = None.
Proof.
  induction roles as [|[rn c] roles IH]; simpl; [discriminate|].
  unfold RoleRegistry_get.
  destruct (dict_get rn reg) as [r|] eqn:Hr; simpl.
  - destruct (config_role_list reg roles) as [rest|e']; simpl;
      [discriminate|].
    intros H. inversion H; subst e'.
    destruct (IH eq_refl) as [rn' [He [Hin Hnone]]]. exists rn'. auto.
  - intros H. inversion H. exists rn. auto.
Qed.

Lemma skipn_nth {A : Type} (d : A) (l : list A) (k : nat) :
  match skipn k l with
  | [] => nth k l d = d /\ skipn (S k) l = []
  | y :: rest => nth k l d = y /\ skipn (S k) l = rest
  end.
Proof.
  revert k. induction l as [|a l IH]; intros k.
  - rewrite skipn_nil. now destruct k.
  - destruct k as [|k]; [now simpl|]. exact (IH k).
Qed.

Lemma nth_by_index {A : Type} (d : A) (l : list A) (ids : list string)
  (k : nat) :
  map (fun ip => nth (fst ip) l d) (combine (seq k (List.length ids)) ids)
  = firstn (List.length ids) (skipn k l)
    ++ repeat d (List.length ids - List.length (skipn k l)).
Proof.
  revert k. induction ids as [|x ids IH]; intros k; [reflexivity|].
  cbn [List.length seq combine map fst]. rewrite IH.
  pose proof (skipn_nth d l k) as H.
  destruct (skipn k l) as [|y rest]; destruct H as [Hn Hs]; rewrite Hn, Hs.
  - rewrite firstn_nil. simpl. now rewrite Nat.sub_0_r.
  - reflexivity.
Qed.

Lemma ids_by_index (ids : list string) (k : nat) :
  map snd (combine (seq k (List.length ids)) ids) = ids.
Proof.
  revert k. induction ids as [|x ids IH]; intros k; [reflexivity|].
  simpl. now rewrite IH.
Qed.

End Setup.

(** X13 -- The seating.  [_setup_players] either raises the [KeyError] of
    a role of the config the registry does not know, or returns the state
    of day 0 in phase SETUP with an empty log and one living slot per
    agent, in the order of the agents, whose name is the agent's id.  The
    roles are those of the config written out in order, each with the
    team of its registered role: agents beyond the role list are
    villagers of the village, and roles beyond the number of agents are
    dropped without an error. *)
Theorem setup_seats_agents_in_order :
  forall (reg : RoleRegistry) (roles : list (string * nat))
         (player_ids : list string),
    match _setup_players reg roles player_ids with
    | Ok st =>
        day st = 0%Z /\ phase st = SETUP /\ events st = []
        /\ night_actions st = []
        /\ map player_id (players st) = player_ids
        /\ map name (players st) = player_ids
        /\ Forall (fun p => is_alive p = true /\ metadata p = [])
             (players st)
        /\ exists rl,
             config_role_list reg roles = Ok rl
             /\ map fst rl = roles_in_order roles
             /\ Forall (fun rt => exists r, dict_get (fst rt) reg = Some r
                                            /\ snd rt = role_team r) rl
             /\ map (fun p => (role p, team p)) (players st)
                = firstn (List.length player_ids) rl
                  ++ repeat ("villager", "village")
                       (List.length player_ids - List.length rl)
    | Raise e =>
        exists rn, e = KeyError rn /\ In rn (map fst roles)
                   /\ dict_get rn reg = None
    end.
Proof.
  intros reg roles player_ids. unfold _setup_players.
  destruct (config_role_list reg roles) as [rl|e] eqn:Hrl; simpl;
    [|now apply (config_role_list_raises reg roles)].
  destruct (config_role_list_ok reg roles rl Hrl) as [Hm Hf].
  repeat (split; [reflexivity|]).
  split.
  { rewrite map_map. rewrite <- (ids_by_index player_ids 0) at 3.
    apply map_ext. intros [i x]. simpl.
    now destruct (nth i rl ("villager", "village")). }
  split.
  { rewrite map_map. rewrite <- (ids_by_index player_ids 0) at 3.
    apply map_ext. intros [i x]. simpl.
    now destruct (nth i rl ("villager", "village")). }
  split.
  { apply Forall_forall. intros p Hp. apply in_map_iff in Hp.
    destruct Hp as [[i x] [<- _]]. simpl.
    now destruct (nth i rl ("villager", "village")). }
  exists rl. split; [reflexivity|]. split; [exact Hm|].
  split; [exact Hf|].
  rewrite map_map.
  pose proof (nth_by_index ("villager", "village") rl player_ids 0) as Hn.
  cbn [skipn] in Hn. rewrite <- Hn.
  apply map_ext. intros [i x]. simpl.
  now destruct (nth i rl ("villager", "village")).
Qed.

Section Shuffle.

Lemma replace_nth_count (i : nat) (v a : string) (x : list string) :
  (i < List.length x)%nat ->
  (count_occ string_dec (replace_nth i v x) a
   + (if string_dec (nth i x "") a then 1 else 0)
   = count_occ string_dec x a + (if string_dec v a then 1 else 0))%nat.
Proof.
  revert i. induction x as [|y x IH]; intros i Hi; simpl in Hi; [lia|].
  destruct i as [|i]; simpl.
  - destruct (string_dec v a), (string_dec y a); lia.
  - specialize (IH i ltac:(lia)).
    destruct (string_dec y a); lia.
Qed.

Lemma replace_nth_length (i : nat) (v : string) (x : list string) :
  List.length (replace_nth i v x) = List.length x.
Proof.
  revert i. induction x as [|y x IH]; intros i; [now destruct i|].
  destruct i; simpl; [reflexivity | now rewrite IH].
Qed.

Lemma nth_replace_nth (i j : nat) (v : string) (x : list string) :
  (i < List.length x)%nat ->
  nth j (replace_nth i v x) "" = if (i =? j)%nat then v else nth j x "".
Proof.
  revert i j. induction x as [|y x IH]; intros i j Hi; simpl in Hi; [lia|].
  destruct i as [|i], j as [|j]; simpl; try reflexivity.
  apply IH. lia.
Qed.

Lemma swap_items_perm (x : list string) (i j : nat) :
  (i < List.length x)%nat -> (j < List.length x)%nat ->
  Permutation (swap_items x i j) x.
Proof.
  intros Hi Hj. apply (Permutation_count_occ string_dec). intros a.
  unfold swap_items.
  pose proof (replace_nth_count i (nth j x "") a x Hi) as E1.
  pose proof (replace_nth_count j (nth i x "") a
                (replace_nth i (nth j x "") x)) as E2.
  rewrite replace_nth_length in E2. specialize (E2 Hj).
  rewrite (nth_replace_nth i j _ x Hi) in E2.
  assert (Hnth : (if (i =? j)%nat then nth j x "" else nth j x "")
                 = nth j x "") by now destruct (i =? j)%nat.
  rewrite Hnth in E2.
  destruct (string_dec (nth i x "") a), (string_dec (nth j x "") a); lia.
Qed.

Lemma shuffle_loop_perm (i : nat) (rng : Rng) (x : list string) :
  (i < List.length x)%nat -> Permutation (shuffle_loop rng i x) x.
Proof.
  revert rng x. induction i as [|i IH]; intros rng x Hi; simpl;
    [reflexivity|].
  assert (Hj : (rng 0%nat mod S (S i) < List.length x)%nat).
  { pose proof (Nat.mod_upper_bound (rng 0%nat) (S (S i))). lia. }
  pose proof (swap_items_perm x (S i) _ Hi Hj) as Hswap.
  transitivity (swap_items x (S i) (rng 0%nat mod S (S i))%nat);
    [|exact Hswap].
  apply IH. rewrite (Permutation_length Hswap). lia.
Qed.

End Shuffle.

(** X14 -- The shuffle.  [_shuffle] returns the names it was given in
    some order: every name as often as before, none added, and so as many
    as before, whatever the generator draws; with randomization off it
    returns the list itself and draws nothing. *)
Theorem shuffle_is_a_permutation :
  forall (self : BriefingBuilder) (rng : Rng) (names : list string),
    Permutation (fst (_shuffle self rng names)) names
    /\ List.length (fst (_shuffle self rng names)) = List.length names
    /\ (forall n, In n (fst (_shuffle self rng names)) <-> In n names)
    /\ (_randomize_names self = false ->
        _shuffle self rng names = (names, rng)).
Proof.
  intros self rng names.
  assert (Hperm : Permutation (fst (_shuffle self rng names)) names).
  { unfold _shuffle, random_shuffle.
    destruct (_randomize_names self); [|reflexivity]. simpl.
    destruct names as [|n names]; [reflexivity|].
    apply shuffle_loop_perm. simpl. lia. }
  split; [exact Hperm|].
  split; [exact (Permutation_length Hperm)|].
  split.
  - intros n. split; apply Permutation_in; [|symmetry]; exact Hperm.
  - intros Hoff. unfold _shuffle. now rewrite Hoff.
Qed.

(** X15 -- A save is not announced.  Of the events of one night, the
    day-event text of a briefing shows the night result only when it
    reports a kill, and then as the one line that names the killed
    target: the text never says that somebody was saved, and a night on
    which the doctor saved the target gives no line at all. *)
Theorem saves_are_not_announced :
  forall (state : GameState) (reg : RoleRegistry) (str_hash : string -> Z)
         (rnd : nat),
    roles_registered state reg = true ->
    exists state' evs,
      resolve_night state reg str_hash rnd = Ok (state', evs)
      /\ forall (b : BriefingBuilder) (st : GameState) (pid : string)
                (e : GameEvent),
           In e evs -> is_night_result e = true ->
           day_event_text b st pid e = []
           \/ exists t,
                consensus (submitted_kill_targets state) = Some t
                /\ ~ In t (submitted_protect_targets state)
                /\ day_event_text b st pid e
                   = [("Night results: " ++ _name b t ++ " killed.")%string].
Proof.
  intros state reg str_hash rnd Hreg.
  destruct (resolve_night_facts state reg str_hash rnd Hreg)
    as [state' [kills [protected [saved [rest
         [Hres [_ [_ [Hrest Hcase]]]]]]]]].
  eexists state', _. split; [exact Hres|].
  intros b st pid e [<-|Hin] Hnr.
  2:{ rewrite Forall_forall in Hrest. rewrite (Hrest e Hin) in Hnr.
      discriminate. }
  unfold day_event_text. cbn [event_day].
  destruct (negb (day state =? day st)%Z); [now left|].
  destruct (consensus (submitted_kill_targets state)) as [t|].
  - destruct Hcase as [Hs Hk].
    destruct (in_dec string_dec t (submitted_protect_targets state))
      as [Hp|Hp].
    + destruct (Hs Hp) as [-> _]. now left.
    + destruct (Hk Hp) as [-> [-> _]]. right. exists t. auto.
  - destruct Hcase as [-> _]. now left.
Qed.

Lemma saves_are_not_announced_witness :
  roles_registered scenario_A classic_registry = true
  /\ exists state' evs,
       resolve_night scenario_A classic_registry hash0 0 = Ok (state', evs)
       /\ flat_map (day_event_text (briefing_builder pack_moderator)
                      state' "vil1")
            (filter is_night_result evs) = [].
Proof.
  split; [reflexivity|].
  destruct (saves_are_not_announced scenario_A classic_registry hash0 0
              eq_refl) as [state' [evs [Hres Htext]]].
  exists state', evs. split; [exact Hres|].
  set (b := briefing_builder pack_moderator).
  assert (Hall : forall e, In e (filter is_night_result evs) ->
                           day_event_text b state' "vil1" e = []).
  { intros e He. apply filter_In in He. destruct He as [Hin Hnr].
    destruct (Htext b state' "vil1" e Hin Hnr) as [H|[t [Ht [Hp _]]]];
      [exact H|].
    exfalso. vm_compute in Ht. inversion Ht; subst t.
    apply Hp. vm_compute. now left. }
  induction (filter is_night_result evs) as [|e l IH]; [reflexivity|].
  simpl. rewrite (Hall e) by now left. apply IH.
  intros e' He'. apply Hall. now right.
Defined.

(* ================================================================== *)
(** * The phase runners of the moderator                                *)
(* ================================================================== *)

Section Loops.

Context {A B : Type}.

Lemma foldM_cons (f : A -> B -> result A) (b : B) (l : list B) (a a' : A) :
  foldM f (b :: l) a = Ok a' ->
  exists a1, f a b = Ok a1 /\ foldM f l a1 = Ok a'.
Proof.
  simpl. destruct (f a b) as [a1|]; [|discriminate].
  intros H. exists a1. auto.
Qed.

(** A property kept by every turn is kept by the loop. *)
Lemma foldM_inv (P : A -> Prop) (f : A -> B -> result A) (l : list B)
  (a a' : A) :
  P a ->
  (forall x b y, In b l -> P x -> f x b = Ok y -> P y) ->
  foldM f l a = Ok a' -> P a'.
Proof.
  revert a. induction l as [|b l IH]; intros a Ha Hstep H.
  - simpl in H. inversion H. now subst.
  - destruct (foldM_cons f b l a a' H) as [a1 [H1 H2]].
    apply (IH a1); [| |exact H2].
    + apply (Hstep a b a1); [now left | exact Ha | exact H1].
    + intros x c y Hc. apply Hstep. now right.
Qed.

(** A loop whose turns return under a property they keep returns. *)
Lemma foldM_returns (P : A -> Prop) (f : A -> B -> result A) (l : list B)
  (a : A) :
  P a ->
  (forall x b, In b l -> P x -> exists y, f x b = Ok y /\ P y) ->
  exists a', foldM f l a = Ok a' /\ P a'.
Proof.
  revert a. induction l as [|b l IH]; intros a Ha Hstep.
  - exists a. auto.
  - destruct (Hstep a b (or_introl eq_refl) Ha) as [a1 [H1 Ha1]].
    simpl. rewrite H1. simpl. apply IH; [exact Ha1|].
    intros x c Hc. apply Hstep. now right.
Qed.

End Loops.

Section Enumerate.

Context {A : Type}.

Lemma combine_seq_In (l : list A) (k i : nat) (x : A) :
  In (i, x) (combine (seq k (List.length l)) l) -> In x l.
Proof. apply in_combine_r. Qed.

Lemma combine_seq_covers (l : list A) (k : nat) (x : A) :
  In x l -> exists i, In (i, x) (combine (seq k (List.length l)) l).
Proof.
  revert k. induction l as [|y l IH]; intros k; [contradiction|].
  intros [->|Hin].
  - exists k. now left.
  - destruct (IH (S k) Hin) as [i Hi]. exists i. now right.
Qed.

Lemma enumerate_In (l : list A) (it : nat * A) :
  In it (enumerate l) -> In (snd it) l.
Proof. destruct it as [i x]. apply combine_seq_In. Qed.

Lemma enumerate_covers (l : list A) (x : A) :
  In x l -> exists it, In it (enumerate l) /\ snd it = x.
Proof.
  intros Hin. destruct (combine_seq_covers l 0 x Hin) as [i Hi].
  exists (i, x). auto.
Qed.

Lemma enumerate_length (l : list A) :
  List.length (enumerate l) = List.length l.
Proof.
  unfold enumerate. rewrite length_combine, length_seq. lia.
Qed.

End Enumerate.

Section Dicts.

Context {V : Type}.

Lemma dict_get_set (k q : string) (v : V) (d : dict V) :
  dict_get q (dict_set k v d)
  = if k =? q then Some v else dict_get q d.
Proof.
  induction d as [|[k' v'] d IH]; simpl; [reflexivity|].
  destruct (String.eqb_spec k' k) as [E|Hne]; simpl.
  - rewrite E. now destruct (k =? q).
  - rewrite IH. destruct (String.eqb_spec k' q) as [E'|_]; [|reflexivity].
    destruct (String.eqb_spec k q); [congruence | reflexivity].
Qed.

Lemma dict_set_keys (k q : string) (v : V) (d : dict V) :
  In q (dict_keys (dict_set k v d)) <-> q = k \/ In q (dict_keys d).
Proof.
  unfold dict_keys. induction d as [|[k' v'] d IH]; simpl.
  - split; [intros [E|[]]; auto | intros [E|[]]; auto].
  - destruct (String.eqb_spec k' k) as [E|Hne]; simpl.
    + rewrite E. intuition congruence.
    + rewrite IH. tauto.
Qed.

Lemma dict_set_NoDup (k : string) (v : V) (d : dict V) :
  NoDup (dict_keys d) -> NoDup (dict_keys (dict_set k v d)).
Proof.
  unfold dict_keys. induction d as [|[k' v'] d IH]; simpl; intros Hnd.
  - constructor; [tauto | constructor].
  - inversion Hnd as [|? ? Hnotin Hnd']; subst.
    destruct (String.eqb_spec k' k) as [E|Hne]; simpl.
    + rewrite <- E. now constructor.
    + constructor; [|now apply IH].
      intros Hin. apply (dict_set_keys k k' v d) in Hin.
      destruct Hin as [E|Hin]; [congruence | contradiction].
Qed.

Lemma dict_get_key (k : string) (d : dict V) :
  In k (dict_keys d) <-> exists v, dict_get k d = Some v.
Proof.
  unfold dict_keys. induction d as [|[k' v'] d IH]; simpl.
  - split; [tauto | intros [v H]; discriminate].
  - destruct (String.eqb_spec k' k) as [E|Hne].
    + split; [intros _; now exists v' | now left].
    + rewrite <- IH. tauto.
Qed.

End Dicts.

Section NightRunner.

Variable self : Moderator.
Variable tb : Table.

Lemma alive_player_id (state : GameState) (p : PlayerSlot) :
  In p (get_alive_players state) ->
  In (player_id p) (get_alive_player_ids state).
Proof. intros H. unfold get_alive_player_ids. now apply in_map. Qed.

Lemma nonempty_str (s : string) : is_empty_str s = false -> s <> "".
Proof. destruct s; [discriminate | congruence]. Qed.

(** One turn of the wolf chat: nothing, or one speech of the wolf. *)
Lemma wolf_chat_turn_facts (wolf_names : dict string) (s s' : GameState)
  (msgs msgs' : list string) (it : nat * PlayerSlot) :
  wolf_chat_turn self tb wolf_names (s, msgs) it = Ok (s', msgs') ->
  (s' = s /\ msgs' = msgs)
  \/ (tool_factory tb = true /\ In (player_id (snd it)) (agents tb)
      /\ exists content said_by,
           content <> ""
           /\ s' = with_event s
                     (SpeechEvent (day s) NIGHT [] (player_id (snd it))
                        content "wolf")
           /\ msgs' = msgs ++ [(said_by ++ ": " ++ content)%string]).
Proof.
  destruct it as [turn wolf]. unfold wolf_chat_turn. cbn [snd].
  destruct (mem (player_id wolf) (agents tb)) eqn:Hag; cbn [negb];
    [|intros H; inversion H; auto].
  destruct (tool_factory tb); cbn [negb]; [|intros H; inversion H; auto].
  destruct (build_wolf_chat_toolkit tb s (player_id wolf)) as [tk|];
    [|discriminate].
  cbn [bind].
  destruct (run_phase tb (day s) WolfChat turn (player_id wolf) _)
    as [[| a md content| | |]|]; try (intros H; inversion H; now auto).
  destruct (is_empty_str content) eqn:Hc; [intros H; inversion H; auto|].
  destruct (dict_getitem (player_id wolf) wolf_names) as [said|];
    [|discriminate].
  cbn [bind]. intros H. inversion H. right.
  split; [reflexivity|]. split; [now apply mem_In|].
  exists content, said. split; [now apply nonempty_str | auto].
Qed.

Lemma wolf_chat_fold_facts (wolf_names : dict string)
  (l : list (nat * PlayerSlot)) (acc acc' : GameState * list string) :
  foldM (wolf_chat_turn self tb wolf_names) l acc = Ok acc' ->
  day (fst acc') = day (fst acc)
  /\ phase (fst acc') = phase (fst acc)
  /\ players (fst acc') = players (fst acc)
  /\ night_actions (fst acc') = night_actions (fst acc)
  /\ exists chat,
       events (fst acc') = events (fst acc) ++ chat
       /\ Forall (fun e => exists it content,
                    In it l
                    /\ e = SpeechEvent (day (fst acc)) NIGHT []
                             (player_id (snd it)) content "wolf"
                    /\ content <> ""
                    /\ In (player_id (snd it)) (agents tb)) chat
       /\ (List.length chat <= List.length l)%nat
       /\ List.length (snd acc') = (List.length (snd acc) + List.length chat)%nat
       /\ (tool_factory tb = false -> chat = []).
Proof.
  revert acc. induction l as [|it l IH]; intros [s msgs] H.
  - simpl in H. inversion H; subst. cbn [fst snd].
    repeat (split; [reflexivity|]). exists []. rewrite app_nil_r.
    repeat split; auto; simpl; lia.
  - destruct (foldM_cons _ it l _ _ H) as [[s1 msgs1] [H1 H2]].
    destruct (IH _ H2) as [Hd [Hp [Hpl [Hna [chat [Hev [Hall [Hlen
                             [Hmsgs Hoff]]]]]]]]].
    cbn [fst snd] in *.
    apply wolf_chat_turn_facts in H1.
    destruct H1 as [[-> ->]|[Htf [Hag [content [said [Hc [-> ->]]]]]]].
    + repeat (split; [assumption|]). exists chat.
      split; [exact Hev|]. split.
      { eapply Forall_impl; [|exact Hall]. simpl.
        intros e [it' [c [Hin Hrest]]]. exists it', c. auto. }
      split; [simpl; lia|]. auto.
    + cbn [day phase players night_actions events with_event] in *.
      repeat (split; [assumption|]).
      exists (SpeechEvent (day s) NIGHT [] (player_id (snd it)) content
                "wolf" :: chat).
      split; [rewrite Hev, <- app_assoc; reflexivity|]. split.
      { constructor.
        - exists it, content. split; [now left|]. split; [reflexivity|].
          split; [exact Hc | exact Hag].
        - eapply Forall_impl; [|exact Hall]. simpl.
          intros e [it' [c [Hin Hrest]]]. exists it', c. auto. }
      split; [simpl; lia|]. split.
      { rewrite Hmsgs, length_app. simpl. lia. }
      intros Hoff'. congruence.
Qed.

(** One turn of the night loop: the role of the player is registered,
    and the turn records an entry exactly for a player with a night
    ability and an agent. *)
Lemma night_turn_facts (msgs : list string) (s s' : GameState)
  (it : nat * PlayerSlot) :
  night_turn self tb msgs s it = Ok s' ->
  dict_get (role (snd it)) (role_registry self) <> None
  /\ ((s' = s
       /\ (has_night_ability (role_registry self) (snd it) = false
           \/ ~ In (player_id (snd it)) (agents tb)))
      \/ (has_night_ability (role_registry self) (snd it) = true
          /\ In (player_id (snd it)) (agents tb)
          /\ (tool_factory tb = true ->
              In (player_id (snd it)) (knowledge_bases tb))
          /\ exists a,
               s' = with_night_action s (player_id (snd it)) a
               /\ night_entry (player_id (snd it)) a
               /\ (tool_factory tb = false ->
                   a = NoAction (player_id (snd it)) [] "no_ability_used"))).
Proof.
  destruct it as [turn player]. unfold night_turn, night_briefing_for.
  unfold has_night_ability, night_abilities, RoleRegistry_get. cbn [snd].
  destruct (dict_get (role player) (role_registry self)) as [r|];
    [|discriminate].
  cbn [bind]. intros H0. split; [discriminate|]. revert H0.
  destruct (filter (fun a => Phase_eqb (ability_phase a) NIGHT)
              (abilities r)) as [|ability rest].
  { intros H. inversion H. left. auto. }
  cbn [bind].
  destruct (mem (player_id player) (agents tb)) eqn:Hag; cbn [negb].
  2:{ intros H. inversion H. left. split; [reflexivity|]. right.
      now apply mem_false_In. }
  apply mem_In in Hag.
  assert (Hrec : forall a,
             night_entry (player_id player)
               (recorded_night_action (player_id player) a)).
  { intros a. unfold night_entry.
    destruct a; simpl; eauto 10. }
  destruct (tool_factory tb).
  - unfold _build_common_tools.
    destruct (mem (player_id player) (knowledge_bases tb)) eqn:Hkb;
      [|discriminate].
    cbn [bind].
    destruct (run_phase tb (day s) NightAbility turn (player_id player) _)
      as [a|]; cbn [bind]; intros H; injection H as <-; right;
      (split; [reflexivity|]); (split; [exact Hag|]);
      (split; [intros _; now apply mem_In|]);
      eexists; (split; [reflexivity|]);
      (split; [first [apply Hrec | right; reflexivity]|]);
      discriminate.
  - cbn [bind]. intros H. injection H as <-. right.
    split; [reflexivity|]. split; [exact Hag|]. split; [discriminate|].
    eexists. split; [reflexivity|].
    split; [right; reflexivity | reflexivity].
Qed.

Lemma night_fold_facts (msgs : list string) (l : list (nat * PlayerSlot))
  (s s' : GameState) :
  foldM (night_turn self tb msgs) l s = Ok s' ->
  day s' = day s /\ phase s' = phase s /\ players s' = players s
  /\ events s' = events s
  /\ Forall (fun it => dict_get (role (snd it)) (role_registry self) <> None)
       l
  /\ (forall pid, In pid (dict_keys (night_actions s)) ->
                  In pid (dict_keys (night_actions s')))
  /\ (NoDup (dict_keys (night_actions s)) ->
      NoDup (dict_keys (night_actions s')))
  /\ (forall pid a,
         dict_get pid (night_actions s') = Some a ->
         dict_get pid (night_actions s) = Some a
         \/ (In pid (agents tb)
             /\ (exists it, In it l /\ player_id (snd it) = pid
                            /\ has_night_ability (role_registry self)
                                 (snd it) = true)
             /\ night_entry pid a
             /\ (tool_factory tb = false ->
                 a = NoAction pid [] "no_ability_used")))
  /\ (forall it, In it l ->
                 has_night_ability (role_registry self) (snd it) = true ->
                 In (player_id (snd it)) (agents tb) ->
                 In (player_id (snd it)) (dict_keys (night_actions s'))).
Proof.
  revert s. induction l as [|it l IH]; intros s H.
  - simpl in H. inversion H; subst.
    repeat (split; [reflexivity|]). split; [constructor|].
    split; [auto|]. split; [auto|]. split; [auto|].
    intros it [].
  - destruct (foldM_cons _ it l _ _ H) as [s1 [H1 H2]].
    destruct (IH _ H2) as [Hd [Hp [Hpl [Hev [Hreg [Hkeys [Hnd
                             [Hget Hcov]]]]]]]].
    destruct (night_turn_facts msgs s s1 it H1) as [Hr Hcase].
    assert (Hframe : day s1 = day s /\ phase s1 = phase s
                     /\ players s1 = players s /\ events s1 = events s).
    { destruct Hcase as [[-> _]|[_ [_ [_ [a [-> _]]]]]]; auto. }
    destruct Hframe as [Hd1 [Hp1 [Hpl1 Hev1]]].
    split; [congruence|]. split; [congruence|]. split; [congruence|].
    split; [congruence|]. split; [now constructor|].
    destruct Hcase as [[-> Hskip]|[Hab [Hag [_ [a [-> [Hent Hoff]]]]]]].
    + split; [exact Hkeys|]. split; [exact Hnd|]. split.
      * intros pid a Ha. destruct (Hget pid a Ha)
          as [Hold|[Hag [[it' [Hin Hit']] Hrest]]]; [now left|].
        right. split; [exact Hag|]. split; [|exact Hrest].
        exists it'. split; [now right | exact Hit'].
      * intros it' [<-|Hin] Hab Hag; [|now apply Hcov].
        destruct Hskip as [Hno|Hno]; [congruence | contradiction].
    + cbn [night_actions with_night_action] in *.
      split.
      { intros pid Hin. apply Hkeys. apply dict_set_keys. now right. }
      split.
      { intros Hnd0. apply Hnd. now apply dict_set_NoDup. }
      split.
      * intros pid a' Ha. destruct (Hget pid a' Ha)
          as [Hold|[Hag' [[it' [Hin Hit']] Hrest]]].
        -- rewrite dict_get_set in Hold.
           destruct (String.eqb_spec (player_id (snd it)) pid) as [E|_];
             [|now left].
           inversion Hold; subst a'. right. rewrite <- E.
           split; [exact Hag|]. split; [|split; [exact Hent | exact Hoff]].
           exists it. split; [now left | auto].
        -- right. split; [exact Hag'|]. split; [|exact Hrest].
           exists it'. split; [now right | exact Hit'].
      * intros it' [<-|Hin] Hab' Hag'; [|now apply Hcov].
        apply Hkeys. apply dict_set_keys. now left.
Qed.

End NightRunner.

Section RunNight.

Variable self : Moderator.
Variable tb : Table.

(** [run_night] in its two parts: the chat of the pack on the cleared
    state, then the loop over the living players. *)
Lemma run_night_parts (state state' : GameState) :
  run_night self tb state = Ok state' ->
  exists s1 msgs chat,
    day s1 = day state /\ phase s1 = phase state
    /\ players s1 = players state /\ night_actions s1 = []
    /\ events s1 = events state ++ chat
    /\ Forall (fun e => exists w content,
                 In w (alive_wolves state)
                 /\ In (player_id w) (agents tb) /\ content <> ""
                 /\ e = SpeechEvent (day state) NIGHT [] (player_id w)
                          content "wolf") chat
    /\ (List.length chat <= List.length (alive_wolves state))%nat
    /\ (allow_wolf_chat self = false
        \/ (List.length (alive_wolves state) < 2)%nat
        \/ tool_factory tb = false -> chat = [])
    /\ foldM (night_turn self tb msgs) (enumerate (get_alive_players s1)) s1
       = Ok state'.
Proof.
  unfold run_night.
  assert (Hquiet : forall st,
             foldM (night_turn self tb [])
               (enumerate (get_alive_players (clear_night_actions state)))
               (clear_night_actions state) = Ok st ->
             exists s1 msgs chat,
               day s1 = day state /\ phase s1 = phase state
               /\ players s1 = players state /\ night_actions s1 = []
               /\ events s1 = events state ++ chat
               /\ Forall (fun e => exists w content,
                            In w (alive_wolves state)
                            /\ In (player_id w) (agents tb) /\ content <> ""
                            /\ e = SpeechEvent (day state) NIGHT []
                                     (player_id w) content "wolf") chat
               /\ (List.length chat <= List.length (alive_wolves state))%nat
               /\ (allow_wolf_chat self = false
                   \/ (List.length (alive_wolves state) < 2)%nat
                   \/ tool_factory tb = false -> chat = [])
               /\ foldM (night_turn self tb msgs)
                    (enumerate (get_alive_players s1)) s1 = Ok st).
  { intros st H. exists (clear_night_actions state), [], [].
    simpl. rewrite app_nil_r. repeat split; auto. lia. }
  destruct (allow_wolf_chat self) eqn:Hallow; [|now apply Hquiet].
  change (filter (fun p => team p =? "werewolf")
            (get_alive_players (clear_night_actions state)))
    with (alive_wolves state).
  destruct (2 <=? List.length (alive_wolves state))%nat eqn:Hpack;
    [|now apply Hquiet].
  clear Hquiet.
  destruct (_run_wolf_chat self tb (clear_night_actions state)
              (alive_wolves state)) as [[s1 msgs]|] eqn:Hchat;
    [|discriminate].
  cbn [bind]. intros Hfold.
  unfold _run_wolf_chat in Hchat.
  destruct (wolf_chat_fold_facts self tb _ _ _ _ Hchat)
    as [Hd [Hp [Hpl [Hna [chat [Hev [Hall [Hlen [_ Hoff]]]]]]]]].
  cbn [fst snd day phase players night_actions events clear_night_actions]
    in *.
  exists s1, msgs, chat.
  repeat (split; [assumption|]). split.
  { eapply Forall_impl; [|exact Hall]. simpl.
    intros e [it [content [Hin [-> [Hc Hag]]]]].
    exists (snd it), content. split; [now apply enumerate_In | auto]. }
  split; [now rewrite enumerate_length in Hlen|].
  split; [|exact Hfold].
  intros [H|[H|H]]; [discriminate | | now apply Hoff].
  apply Nat.leb_le in Hpack. lia.
Qed.

End RunNight.





Section RunDiscussion.

Variable self : Moderator.
Variable tb : Table.

Lemma discussion_turn_facts (round : nat) (s s' : GameState)
  (sp sp' : list (string * string)) (it : nat * PlayerSlot) :
  discussion_turn self tb round (s, sp) it = Ok (s', sp') ->
  (s' = s /\ sp' = sp)
  \/ (tool_factory tb = true /\ In (player_id (snd it)) (agents tb)
      /\ exists content,
           content <> ""
           /\ s' = with_event s
                     (SpeechEvent (day s) DAY_DISCUSSION []
                        (player_id (snd it)) content "public")
           /\ sp' = sp ++ [(Moderator_name self (player_id (snd it)),
                            content)]).
Proof.
  destruct it as [turn player]. unfold discussion_turn. cbn [snd].
  destruct (is_alive player); cbn [negb]; [|intros H; inversion H; auto].
  destruct (mem (player_id player) (agents tb)) eqn:Hag; cbn [negb];
    [|intros H; inversion H; auto].
  destruct (tool_factory tb); cbn [negb]; [|intros H; inversion H; auto].
  destruct (discussion_briefing_for self _ s player _ sp) as [briefing|];
    [|discriminate].
  cbn [bind].
  destruct (_build_common_tools tb (player_id player)) as [tk|];
    [|discriminate].
  cbn [bind].
  destruct (run_phase tb (day s) (Discussion round) turn (player_id player)
              briefing)
    as [[| a md content| | |]|]; try (intros H; inversion H; now auto).
  destruct (is_empty_str content) eqn:Hc; [intros H; inversion H; auto|].
  intros H. inversion H. right.
  split; [reflexivity|]. split; [now apply mem_In|].
  exists content. split; [now apply nonempty_str | auto].
Qed.

Lemma discussion_turns_facts (round : nat) (l : list (nat * PlayerSlot))
  (acc acc' : GameState * list (string * string)) :
  foldM (discussion_turn self tb round) l acc = Ok acc' ->
  day (fst acc') = day (fst acc)
  /\ phase (fst acc') = phase (fst acc)
  /\ players (fst acc') = players (fst acc)
  /\ night_actions (fst acc') = night_actions (fst acc)
  /\ exists speeches,
       events (fst acc') = events (fst acc) ++ speeches
       /\ Forall (fun e => exists it content,
                    In it l
                    /\ In (player_id (snd it)) (agents tb) /\ content <> ""
                    /\ e = SpeechEvent (day (fst acc)) DAY_DISCUSSION []
                             (player_id (snd it)) content "public") speeches
       /\ (List.length speeches <= List.length l)%nat
       /\ (tool_factory tb = false -> speeches = []).
Proof.
  revert acc. induction l as [|it l IH]; intros [s sp] H.
  - simpl in H. inversion H; subst. cbn [fst snd].
    repeat (split; [reflexivity|]). exists []. rewrite app_nil_r.
    repeat split; auto.
  - destruct (foldM_cons _ it l _ _ H) as [[s1 sp1] [H1 H2]].
    destruct (IH _ H2) as [Hd [Hp [Hpl [Hna [speeches [Hev [Hall [Hlen
                             Hoff]]]]]]]].
    cbn [fst snd] in *.
    apply discussion_turn_facts in H1.
    destruct H1 as [[-> ->]|[Htf [Hag [content [Hc [-> ->]]]]]].
    + repeat (split; [assumption|]). exists speeches.
      split; [exact Hev|]. split.
      { eapply Forall_impl; [|exact Hall]. simpl.
        intros e [it' [c [Hin Hrest]]]. exists it', c. auto. }
      split; [simpl; lia | exact Hoff].
    + cbn [day phase players night_actions events with_event] in *.
      repeat (split; [assumption|]).
      exists (SpeechEvent (day s) DAY_DISCUSSION [] (player_id (snd it))
                content "public" :: speeches).
      split; [rewrite Hev, <- app_assoc; reflexivity|]. split.
      { constructor.
        - exists it, content. split; [now left|]. auto.
        - eapply Forall_impl; [|exact Hall]. simpl.
          intros e [it' [c [Hin Hrest]]]. exists it', c. auto. }
      split; [simpl; lia|].
      intros Hoff'. congruence.
Qed.

Lemma discussion_rounds_facts (state : GameState) (rs : list nat)
  (acc acc' : GameState * list (string * string)) :
  day (fst acc) = day state -> players (fst acc) = players state ->
  foldM (discussion_round self tb) rs acc = Ok acc' ->
  day (fst acc') = day state
  /\ phase (fst acc') = phase (fst acc)
  /\ players (fst acc') = players state
  /\ night_actions (fst acc') = night_actions (fst acc)
  /\ exists speeches,
       events (fst acc') = events (fst acc) ++ speeches
       /\ Forall (discussion_speech_of tb state) speeches
       /\ (List.length speeches
           <= List.length rs * List.length (get_alive_players state))%nat
       /\ (tool_factory tb = false -> speeches = []).
Proof.
  revert acc. induction rs as [|r rs IH]; intros acc Hday Hplayers H.
  - simpl in H. inversion H; subst.
    repeat (split; [auto|]). exists []. rewrite app_nil_r.
    repeat split; auto.
  - destruct (foldM_cons _ r rs _ _ H) as [acc1 [H1 H2]].
    unfold discussion_round in H1.
    destruct (discussion_turns_facts r _ _ _ H1)
      as [Hd1 [Hp1 [Hpl1 [Hna1 [sp1 [Hev1 [Hall1 [Hlen1 Hoff1]]]]]]]].
    assert (Halive : get_alive_players (fst acc) = get_alive_players state)
      by (unfold get_alive_players; now rewrite Hplayers).
    rewrite Halive in *. rewrite enumerate_length in Hlen1.
    destruct (IH acc1 ltac:(congruence) ltac:(congruence) H2)
      as [Hd [Hp [Hpl [Hna [sp [Hev [Hall [Hlen Hoff]]]]]]]].
    split; [exact Hd|]. split; [congruence|]. split; [exact Hpl|].
    split; [congruence|].
    exists (sp1 ++ sp). split; [rewrite Hev, Hev1, app_assoc; reflexivity|].
    split.
    { apply Forall_app. split; [|exact Hall].
      eapply Forall_impl; [|exact Hall1]. simpl.
      intros e [it [content [Hin [Hag [Hc ->]]]]].
      exists (snd it), content. rewrite Hday.
      split; [now apply enumerate_In | auto]. }
    split; [rewrite length_app; simpl; lia|].
    intros Hoff'. now rewrite (Hoff1 Hoff'), (Hoff Hoff').
Qed.

End RunDiscussion.



Section RunVote.

Variable self : Moderator.
Variable tb : Table.

Lemma dict_set_values {V : Type} (Q : V -> Prop) (k : string) (v : V)
  (d : dict V) :
  Forall (fun kv => Q (snd kv)) d -> Q v ->
  Forall (fun kv => Q (snd kv)) (dict_set k v d).
Proof.
  intros Hd Hv. induction Hd as [|[k' v'] d Hk Hd' IH]; simpl.
  - constructor; [exact Hv | constructor].
  - destruct (k' =? k); constructor; auto.
Qed.

Lemma vote_tally_abstentions (votes : dict (option string)) :
  Forall (fun kv => snd kv = None) votes -> vote_tally votes = [].
Proof.
  intros Hall. unfold vote_tally, dict_values.
  generalize (@nil (string * nat)).
  induction Hall as [|[k v] votes Hk _ IH]; intros tally; simpl in *;
    [reflexivity|].
  subst v. apply IH.
Qed.

Lemma vote_turn_facts (state : GameState) (votes votes' : dict (option string))
  (it : nat * PlayerSlot) :
  vote_turn self tb state votes it = Ok votes' ->
  (votes' = votes /\ ~ In (player_id (snd it)) (agents tb))
  \/ (In (player_id (snd it)) (agents tb)
      /\ exists target,
           votes' = dict_set (player_id (snd it)) target votes
           /\ (tool_factory tb = false -> target = None)).
Proof.
  destruct it as [turn player]. unfold vote_turn. cbn [snd].
  destruct (mem (player_id player) (agents tb)) eqn:Hag; cbn [negb].
  2:{ intros H. inversion H. left. split; [reflexivity|].
      now apply mem_false_In. }
  apply mem_In in Hag. destruct (tool_factory tb).
  - destruct (vote_briefing_for self _ state player _) as [briefing|];
      [|discriminate].
    cbn [bind].
    destruct (_build_common_tools tb (player_id player)) as [tk|];
      [|discriminate].
    cbn [bind].
    destruct (run_phase tb (day state) Vote turn (player_id player) briefing)
      as [a|]; cbn [bind]; intros H; injection H as <-; right;
      (split; [exact Hag|]); eexists; (split; [reflexivity|]);
      discriminate.
  - cbn [bind]. intros H. injection H as <-. right.
    split; [exact Hag|]. eexists. split; [reflexivity|]. reflexivity.
Qed.

Lemma vote_fold_facts (state : GameState) (l : list (nat * PlayerSlot))
  (votes votes' : dict (option string)) :
  foldM (vote_turn self tb state) l votes = Ok votes' ->
  (NoDup (dict_keys votes) -> NoDup (dict_keys votes'))
  /\ (forall pid,
         In pid (dict_keys votes')
         <-> In pid (dict_keys votes)
             \/ (In pid (agents tb)
                 /\ exists it, In it l /\ player_id (snd it) = pid))
  /\ (tool_factory tb = false ->
      Forall (fun kv => snd kv = None) votes ->
      Forall (fun kv => snd kv = None) votes').
Proof.
  revert votes. induction l as [|it l IH]; intros votes H.
  - simpl in H. inversion H; subst. split; [auto|]. split; [|auto].
    intros pid. split; [now left|].
    intros [Hin|[_ [it [[] _]]]]. exact Hin.
  - destruct (foldM_cons _ it l _ _ H) as [votes1 [H1 H2]].
    destruct (IH _ H2) as [Hnd [Hkeys Hnone]].
    destruct (vote_turn_facts state votes votes1 it H1)
      as [[-> Hno]|[Hag [target [-> Hoff]]]].
    + split; [exact Hnd|]. split; [|exact Hnone].
      intros pid. rewrite Hkeys. split.
      * intros [Hin|[Hag [it' [Hin Hid]]]]; [now left|].
        right. split; [exact Hag|]. exists it'. split; [now right | auto].
      * intros [Hin|[Hag [it' [[<-|Hin] Hid]]]]; [now left| |].
        -- subst pid. contradiction.
        -- right. split; [exact Hag|]. now exists it'.
    + split; [intros Hnd0; apply Hnd; now apply dict_set_NoDup|].
      split.
      * intros pid. rewrite Hkeys, dict_set_keys. split.
        -- intros [[->|Hin]|[Hag' [it' [Hin Hid]]]].
           ++ right. split; [exact Hag|]. exists it. split; [now left|auto].
           ++ now left.
           ++ right. split; [exact Hag'|]. exists it'.
              split; [now right | auto].
        -- intros [Hin|[Hag' [it' [[<-|Hin] Hid]]]].
           ++ left. now right.
           ++ left. left. auto.
           ++ right. split; [exact Hag'|]. now exists it'.
      * intros Htf Hall. apply Hnone; [exact Htf|].
        apply (dict_set_values (fun v => v = None)); [exact Hall|].
        now apply Hoff.
Qed.

End RunVote.



Section RunnersReturn.

Variable self : Moderator.
Variable tb : Table.

Lemma find_player_NoDup (ps : list PlayerSlot) (p : PlayerSlot) :
  NoDup (map player_id ps) -> In p ps ->
  find_player ps (player_id p) = Some p.
Proof.
  induction ps as [|q ps IH]; simpl; [contradiction|].
  intros Hnd Hin. inversion Hnd as [|? ? Hnotin Hnd']; subst.
  destruct Hin as [->|Hin]; [now rewrite String.eqb_refl|].
  destruct (String.eqb_spec (player_id q) (player_id p)) as [E|_];
    [|now apply IH].
  exfalso. apply Hnotin. rewrite E. now apply in_map.
Qed.

Lemma wolf_names_cover (name_of : string -> string)
  (pack : list PlayerSlot) (d : dict string) (k : string) :
  In k (dict_keys d) \/ In k (map player_id pack) ->
  In k (dict_keys
          (fold_left
             (fun d w => dict_set (player_id w) (name_of (player_id w)) d)
             pack d)).
Proof.
  revert d. induction pack as [|w pack IH]; intros d; simpl.
  - intros [H|[]]. exact H.
  - intros H. apply IH. rewrite dict_set_keys. intuition congruence.
Qed.

Lemma build_common_tools_returns (pid : string) :
  (forall q, In q (agents tb) -> In q (knowledge_bases tb)) ->
  mem pid (agents tb) = true -> _build_common_tools tb pid = Ok tt.
Proof.
  intros Hkb Hag. unfold _build_common_tools.
  apply mem_In in Hag. apply Hkb in Hag. apply mem_In in Hag.
  now rewrite Hag.
Qed.

Lemma run_wolf_chat_returns (state s : GameState) :
  table_ready self tb state -> players s = players state ->
  exists r, _run_wolf_chat self tb s (alive_wolves state) = Ok r
            /\ players (fst r) = players state.
Proof.
  intros [_ [Hkb Hnd]] Hs. unfold _run_wolf_chat.
  apply (foldM_returns
           (fun acc : GameState * list string =>
              players (fst acc) = players state)); [exact Hs|].
  intros [s1 msgs] [turn w] Hin Hpl. cbn [fst] in Hpl.
  apply enumerate_In in Hin. cbn [snd] in Hin.
  unfold wolf_chat_turn.
  destruct (mem (player_id w) (agents tb)) eqn:Hag; cbn [negb];
    [|eexists; split; [reflexivity | exact Hpl]].
  destruct (tool_factory tb); cbn [negb];
    [|eexists; split; [reflexivity | exact Hpl]].
  assert (Hw : In w (players state) /\ (team w =? "werewolf") = true).
  { unfold alive_wolves, get_alive_players in Hin.
    apply filter_In in Hin. destruct Hin as [Hin Hteam].
    apply filter_In in Hin. tauto. }
  destruct Hw as [Hw Hteam].
  unfold build_wolf_chat_toolkit, get_player.
  rewrite Hpl, (find_player_NoDup _ w Hnd Hw), Hteam.
  rewrite (build_common_tools_returns _ Hkb Hag). cbn [bind].
  destruct (run_phase tb (day s1) WolfChat turn (player_id w) _)
    as [[| a md content| | |]|];
    try (eexists; split; [reflexivity | exact Hpl]).
  destruct (is_empty_str content);
    [eexists; split; [reflexivity | exact Hpl]|].
  unfold dict_getitem.
  assert (Hkey : In (player_id w)
                   (dict_keys
                      (fold_left
                         (fun d w0 =>
                            dict_set (player_id w0)
                              (Moderator_name self (player_id w0)) d)
                         (alive_wolves state) []))).
  { apply wolf_names_cover. right. now apply in_map. }
  apply dict_get_key in Hkey. destruct Hkey as [n Hn]. rewrite Hn.
  cbn [bind]. eexists. split; [reflexivity | exact Hpl].
Qed.

Lemma run_night_returns (state : GameState) :
  table_ready self tb state ->
  exists state', run_night self tb state = Ok state'.
Proof.
  intros Hready. pose proof Hready as [Hreg [Hkb Hnd]]. unfold run_night.
  assert (Hloop : forall s msgs,
             players s = players state ->
             exists state',
               foldM (night_turn self tb msgs)
                 (enumerate (get_alive_players s)) s = Ok state').
  { intros s msgs Hs.
    destruct (foldM_returns (fun _ : GameState => True)
                (night_turn self tb msgs)
                (enumerate (get_alive_players s)) s I) as [s' [H _]];
      [|now exists s'].
    intros x [turn p] Hin _. apply enumerate_In in Hin. cbn [snd] in Hin.
    unfold get_alive_players in Hin. rewrite Hs in Hin.
    rewrite Forall_forall in Hreg. specialize (Hreg p Hin).
    unfold night_turn, night_briefing_for, RoleRegistry_get.
    destruct (dict_get (role p) (role_registry self)) as [r|];
      [|contradiction].
    cbn [bind].
    destruct (filter (fun a => Phase_eqb (ability_phase a) NIGHT)
                (abilities r)); [eexists; split; [reflexivity | exact I]|].
    cbn [bind].
    destruct (mem (player_id p) (agents tb)) eqn:Hag; cbn [negb];
      [|eexists; split; [reflexivity | exact I]].
    destruct (tool_factory tb).
    - rewrite (build_common_tools_returns _ Hkb Hag). cbn [bind].
      destruct (run_phase tb (day x) NightAbility turn (player_id p) _);
        cbn [bind]; eexists; split; reflexivity || exact I.
    - cbn [bind]. eexists. split; [reflexivity | exact I]. }
  destruct (allow_wolf_chat self); [|cbn [bind]; now apply Hloop].
  change (filter (fun p => team p =? "werewolf")
            (get_alive_players (clear_night_actions state)))
    with (alive_wolves state).
  destruct (2 <=? List.length (alive_wolves state))%nat;
    [|cbn [bind]; now apply Hloop].
  destruct (run_wolf_chat_returns state (clear_night_actions state) Hready
              eq_refl) as [[s1 msgs] [Hchat Hpl]].
  rewrite Hchat. cbn [bind]. now apply Hloop.
Qed.

Lemma run_discussion_returns (rounds : Z) (state : GameState) :
  table_ready self tb state ->
  exists state', run_discussion self tb rounds state = Ok state'.
Proof.
  intros [Hreg [Hkb Hnd]]. unfold run_discussion.
  destruct (foldM_returns
              (fun acc : GameState * list (string * string) =>
                 players (fst acc) = players state)
              (discussion_round self tb) (seq 0 (Z.to_nat rounds))
              (state, []) eq_refl) as [acc [H _]].
  2:{ rewrite H. cbn [bind]. now eexists. }
  intros acc r _ Hacc. unfold discussion_round.
  apply (foldM_returns
           (fun acc : GameState * list (string * string) =>
              players (fst acc) = players state)); [exact Hacc|].
  intros [s sp] [turn p] Hin Hpl. cbn [fst] in Hpl.
  apply enumerate_In in Hin. cbn [snd] in Hin.
  unfold get_alive_players in Hin. rewrite Hacc in Hin.
  rewrite Forall_forall in Hreg. specialize (Hreg p Hin).
  unfold discussion_turn.
  destruct (is_alive p); cbn [negb];
    [|eexists; split; [reflexivity | exact Hpl]].
  destruct (mem (player_id p) (agents tb)) eqn:Hag; cbn [negb];
    [|eexists; split; [reflexivity | exact Hpl]].
  destruct (tool_factory tb); cbn [negb];
    [|eexists; split; [reflexivity | exact Hpl]].
  unfold discussion_briefing_for, RoleRegistry_get.
  destruct (dict_get (role p) (role_registry self)) as [rl|];
    [|contradiction].
  cbn [bind]. rewrite (build_common_tools_returns _ Hkb Hag). cbn [bind].
  destruct (run_phase tb (day s) (Discussion r) turn (player_id p) _)
    as [[| a md content| | |]|];
    try (eexists; split; [reflexivity | exact Hpl]).
  destruct (is_empty_str content);
    eexists; (split; [reflexivity | exact Hpl]).
Qed.

Lemma run_vote_returns (tie_breaker : string) (state : GameState) :
  table_ready self tb state ->
  exists state', run_vote self tb tie_breaker state = Ok state'.
Proof.
  intros [Hreg [Hkb Hnd]]. unfold run_vote, collect_votes.
  destruct (foldM_returns (fun _ : dict (option string) => True)
              (vote_turn self tb state)
              (enumerate (get_alive_players state)) [] I)
    as [votes [H _]].
  - intros votes [turn p] Hin _. apply enumerate_In in Hin.
    cbn [snd] in Hin. rewrite Forall_forall in Hreg.
    specialize (Hreg p Hin). unfold vote_turn.
    destruct (mem (player_id p) (agents tb)) eqn:Hag; cbn [negb];
      [|eexists; split; [reflexivity | exact I]].
    destruct (tool_factory tb).
    + unfold vote_briefing_for, RoleRegistry_get.
      destruct (dict_get (role p) (role_registry self)) as [rl|];
        [|contradiction].
      cbn [bind]. rewrite (build_common_tools_returns _ Hkb Hag).
      cbn [bind].
      destruct (run_phase tb (day state) Vote turn (player_id p) _);
        cbn [bind]; eexists; split; reflexivity || exact I.
    + cbn [bind]. eexists. split; [reflexivity | exact I].
  - rewrite H. cbn [bind]. unfold run_vote_tally.
    destruct (decide_vote_facts tie_breaker (vote_draw tb (day state)) votes)
      as [el [tie [Hd _]]].
    rewrite Hd. cbn [bind]. now eexists.
Qed.

End RunnersReturn.

(** X20 -- The runners return.  When every living player has a
    registered role, every agent has a knowledge base and no two players
    share an id, [run_night], [run_discussion] and [run_vote] return a
    state, whatever the agents answer or raise: no answer of an agent
    makes a phase fail. *)
Theorem no_agent_breaks_a_phase :
  forall (self : Moderator) (tb : Table) (rounds : Z) (tie_breaker : string)
         (state : GameState),
    table_ready self tb state ->
    (exists state', run_night self tb state = Ok state')
    /\ (exists state', run_discussion self tb rounds state = Ok state')
    /\ (exists state', run_vote self tb tie_breaker state = Ok state').
Proof.
  intros self tb rounds tie_breaker state Hready.
  split; [now apply run_night_returns|].
  split; [now apply run_discussion_returns | now apply run_vote_returns].
Qed.

Lemma no_agent_breaks_a_phase_witness :
  table_ready pack_moderator pack_table pack_state
  /\ exists state', run_night pack_moderator pack_table pack_state = Ok state'.
Proof.
  assert (Hready : table_ready pack_moderator pack_table pack_state).
  { split; [|split].
    - repeat constructor; discriminate.
    - intros pid H. exact H.
    - simpl. repeat constructor; simpl; intuition discriminate. }
  split; [exact Hready|].
  exact (proj1 (no_agent_breaks_a_phase pack_moderator pack_table 2
                  "random" pack_state Hready)).
Defined.

(* ================================================================== *)
(** * A whole game                                                      *)
(* ================================================================== *)

Section Evolution.

Lemma same_seat_refl (p : PlayerSlot) : same_seat p p.
Proof. unfold same_seat. auto 10. Qed.

Lemma same_seat_trans (p q r : PlayerSlot) :
  same_seat p q -> same_seat q r -> same_seat p r.
Proof.
  unfold same_seat. intros [H1 [H2 [H3 [H4 [H5 H6]]]]]
    [G1 [G2 [G3 [G4 [G5 G6]]]]].
  repeat split; try congruence. auto.
Qed.

Lemma seats_refl (ps : list PlayerSlot) : Forall2 same_seat ps ps.
Proof. induction ps; constructor; auto using same_seat_refl. Qed.

Lemma seats_trans (a b c : list PlayerSlot) :
  Forall2 same_seat a b -> Forall2 same_seat b c -> Forall2 same_seat a c.
Proof.
  intros Hab. revert c. induction Hab as [|p q a b Hpq _ IH]; intros c Hbc.
  - inversion Hbc. constructor.
  - inversion Hbc as [|? r ? c' Hqr Hbc']; subst. constructor.
    + exact (same_seat_trans p q r Hpq Hqr).
    + now apply IH.
Qed.

Lemma seats_kill (ps : list PlayerSlot) (t : string) :
  Forall2 same_seat ps (map (kill_slot t) ps).
Proof.
  induction ps as [|p ps IH]; simpl; constructor; [|exact IH].
  destruct (kill_slot_identity t p) as [H1 [H2 [H3 [H4 [H5 H6]]]]].
  unfold same_seat. repeat split; try assumption.
  rewrite H6. intros H. apply andb_prop in H. tauto.
Qed.

Lemma evolves_refl (s : GameState) : evolves s s.
Proof.
  split; [apply seats_refl|]. exists []. now rewrite app_nil_r.
Qed.

Lemma evolves_trans (a b c : GameState) :
  evolves a b -> evolves b c -> evolves a c.
Proof.
  intros [Hab [l Hl]] [Hbc [m Hm]]. split; [now apply (seats_trans _ (players b))|].
  exists (l ++ m). now rewrite Hm, Hl, app_assoc.
Qed.

Lemma evolves_same_players (s s' : GameState) :
  players s' = players s -> (exists l, events s' = events s ++ l) ->
  evolves s s'.
Proof.
  intros Hp Hl. split; [rewrite Hp; apply seats_refl | exact Hl].
Qed.

Lemma seats_ids (a b : list PlayerSlot) :
  Forall2 same_seat a b -> map player_id b = map player_id a.
Proof.
  induction 1 as [|p q a b [Hid _] _ IH]; simpl; [reflexivity|].
  now rewrite Hid, IH.
Qed.

Lemma seats_alive (a b : list PlayerSlot) (q : PlayerSlot) :
  Forall2 same_seat a b -> In q (filter is_alive b) ->
  exists p, In p (filter is_alive a) /\ same_seat p q.
Proof.
  induction 1 as [|p q' a b Hpq _ IH]; simpl; [contradiction|].
  destruct (is_alive q') eqn:Hq.
  - destruct Hpq as [H1 [H2 [H3 [H4 [H5 H6]]]]]. rewrite (H6 Hq).
    intros [<-|Hin].
    + exists p. split; [now left|]. unfold same_seat. auto 10.
    + destruct (IH Hin) as [p' [Hp' Hs]]. exists p'. split; [now right|auto].
  - intros Hin. destruct (IH Hin) as [p' [Hp' Hs]]. exists p'.
    split; [|exact Hs]. destruct (is_alive p); [now right | exact Hp'].
Qed.

End Evolution.

Section Steps.

Variable self : Moderator.
Variable tb : Table.

Lemma run_night_step (s s' : GameState) :
  run_night self tb s = Ok s' ->
  day s' = day s /\ phase s' = phase s /\ players s' = players s
  /\ exists l, events s' = events s ++ l.
Proof.
  intros Hrun.
  destruct (run_night_parts self tb s s' Hrun)
    as [s1 [msgs [chat [Hd [Hp [Hpl [_ [Hev [_ [_ [_ Hfold]]]]]]]]]]].
  destruct (night_fold_facts self tb msgs _ _ _ Hfold)
    as [Hd' [Hp' [Hpl' [Hev' _]]]].
  split; [congruence|]. split; [congruence|]. split; [congruence|].
  exists chat. congruence.
Qed.

Lemma night_outcome_step (state : GameState) (h : string -> Z) (w : Walk)
  (agreed : option string) :
  day (fst (night_outcome state h w agreed)) = day state
  /\ phase (fst (night_outcome state h w agreed)) = phase state
  /\ night_actions (fst (night_outcome state h w agreed))
     = night_actions state
  /\ evolves state (fst (night_outcome state h w agreed)).
Proof.
  unfold night_outcome.
  destruct agreed as [t|];
    [destruct (mem t (w_protected w));
     [|destruct (get_player state t) as [p|];
       [destruct (is_alive p)|]]|];
    match goal with
    | |- context [emitted ?s ?l] =>
        destruct (emitted_frame s l) as [Hd [Hp [Hpl [Hn He]]]];
        rewrite Hd, Hp, Hn
    end;
    cbn [day phase night_actions with_player_killed];
    (split; [reflexivity|]); (split; [reflexivity|]);
    (split; [reflexivity|]);
    (split; [rewrite Hpl | eexists; exact He]);
    first [apply seats_refl | apply seats_kill].
Qed.

Lemma run_dawn_step (reg : RoleRegistry) (h : string -> Z) (rnd : nat)
  (s s' : GameState) :
  run_dawn reg h rnd s = Ok s' ->
  day s' = day s /\ phase s' = phase s /\ evolves s s'.
Proof.
  unfold run_dawn.
  destruct (resolve_night s reg h rnd) as [r|] eqn:Hres; [|discriminate].
  cbn [bind]. intros H. injection H as <-.
  assert (Hreg : roles_registered s reg = true).
  { apply (resolve_night_returns s reg h rnd). eauto. }
  destruct (night_walk_ok s reg Hreg) as [w [Hw _]].
  rewrite (resolve_night_outcome s reg h rnd w Hw) in Hres.
  injection Hres as <-.
  destruct (night_outcome_step s h w (consensus (submitted_kill_targets s)))
    as [Hd [Hp [_ He]]].
  auto.
Qed.

Lemma run_discussion_step (rounds : Z) (s s' : GameState) :
  run_discussion self tb rounds s = Ok s' ->
  day s' = day s /\ phase s' = phase s /\ players s' = players s
  /\ exists l, events s' = events s ++ l.
Proof.
  unfold run_discussion.
  destruct (foldM (discussion_round self tb) (seq 0 (Z.to_nat rounds))
              (s, [])) as [acc|] eqn:Hfold; [|discriminate].
  cbn [bind]. intros H. injection H as <-.
  destruct (discussion_rounds_facts self tb s _ (s, []) acc
              eq_refl eq_refl Hfold)
    as [Hd [Hp [Hpl [_ [speeches [Hev _]]]]]].
  cbn [fst] in *. repeat (split; [assumption|]). now exists speeches.
Qed.

Lemma run_vote_step (tie_breaker : string) (s s' : GameState) :
  run_vote self tb tie_breaker s = Ok s' ->
  day s' = day s /\ phase s' = phase s /\ players s' = players s
  /\ exists l, events s' = events s ++ l.
Proof.
  unfold run_vote.
  destruct (collect_votes self tb s) as [votes|]; [|discriminate].
  cbn [bind]. unfold run_vote_tally.
  destruct (decide_vote tie_breaker (vote_draw tb (day s))
              (vote_tally votes)) as [d|]; [|discriminate].
  cbn [bind]. rewrite fold_with_event. intros H. injection H as <-.
  cbn [day phase players events with_event].
  repeat (split; [reflexivity|]). eexists. now rewrite <- app_assoc.
Qed.

Lemma run_vote_result_step (s : GameState) (e : GameEvent) :
  day (run_vote_result s e) = day s
  /\ phase (run_vote_result s e) = phase s
  /\ evolves s (run_vote_result s e).
Proof.
  unfold run_vote_result.
  destruct e as [| | | |d ph md tally [t|] tie| | | | | |];
    try (repeat split; try reflexivity; apply evolves_refl).
  destruct (get_player s t) as [target|];
    [|repeat split; try reflexivity; apply evolves_refl].
  destruct (is_alive target);
    [|repeat split; try reflexivity; apply evolves_refl].
  cbn [day phase with_event with_player_killed].
  split; [reflexivity|]. split; [reflexivity|].
  split; [apply seats_kill|]. now eexists.
Qed.

Lemma run_reflection_returns (s : GameState) (summary : string) :
  run_reflection self tb s summary = Ok s.
Proof.
  unfold run_reflection. destruct (tool_factory tb); [|reflexivity].
  cbn [negb]. generalize (get_alive_players s) as l.
  induction l as [|p l IH]; [reflexivity|]. simpl.
  destruct (mem (player_id p) (agents tb)); cbn [negb bind]; [|exact IH].
  unfold _build_common_tools.
  destruct (mem (player_id p) (knowledge_bases tb)); cbn [negb bind];
    exact IH.
Qed.

Lemma reflect_on_returns (s : GameState) (count : nat) :
  reflect_on self tb s count = Ok s.
Proof.
  unfold reflect_on. destruct (skipn count (events s)); [reflexivity|].
  apply run_reflection_returns.
Qed.

End Steps.

Section SessionGame.

Variable self : Moderator.
Variable tb : Table.
Variable str_hash : string -> Z.
Variable rounds : Z.
Variable tie_breaker : string.
Variable max_days : Z.

(** One day of the loop: it reaches a state of that day, in which the
    game is won and returned, or not won and carried to the next day. *)
Lemma game_day_step (remaining : nat) (d : Z) (state final : GameState)
  (ending : GameEvent) :
  game_days self tb str_hash rounds tie_breaker max_days (S remaining) d state = Ok (final, ending) ->
  exists s,
    evolves state s /\ day s = d
    /\ ((check_victory s = Some ending /\ final = s)
        \/ (check_victory s = None
            /\ game_days self tb str_hash rounds tie_breaker max_days remaining (d + 1)%Z s = Ok (final, ending))).
Proof.
  cbn [game_days].
  set (s0 := with_phase (with_day state d) NIGHT).
  destruct (run_night self tb s0) as [s1|] eqn:Hnight; [|discriminate].
  cbn [bind].
  destruct (run_dawn (role_registry self) str_hash (dawn_draw tb d)
              (with_phase s1 DAWN)) as [s2|] eqn:Hdawn; [|discriminate].
  cbn [bind].
  destruct (run_night_step self tb s0 s1 Hnight) as [Hd1 [_ [Hpl1 Hev1]]].
  destruct (run_dawn_step _ _ _ _ s2 Hdawn) as [Hd2 [_ He2]].
  assert (E2 : evolves state s2).
  { apply (evolves_trans _ (with_phase s1 DAWN)); [|exact He2].
    apply evolves_same_players; [exact Hpl1 | exact Hev1]. }
  assert (D2 : day s2 = d) by (rewrite Hd2; cbn [day with_phase]; now rewrite Hd1).
  destruct (check_victory s2) as [e|] eqn:Hv2.
  { intros H. injection H as <- <-. exists s2. auto. }
  rewrite reflect_on_returns. cbn [bind].
  destruct (run_discussion self tb rounds (with_phase s2 DAY_DISCUSSION))
    as [s3|] eqn:Hdisc; [|discriminate].
  cbn [bind].
  destruct (run_vote self tb tie_breaker (with_phase s3 DAY_VOTE))
    as [s4|] eqn:Hvote; [|discriminate].
  cbn [bind].
  destruct (run_discussion_step self tb rounds _ s3 Hdisc)
    as [Hd3 [_ [Hpl3 Hev3]]].
  destruct (run_vote_step self tb tie_breaker _ s4 Hvote)
    as [Hd4 [_ [Hpl4 Hev4]]].
  assert (E4 : evolves state s4).
  { apply (evolves_trans _ s2); [exact E2|].
    apply (evolves_trans _ s3);
      apply evolves_same_players; assumption. }
  assert (D4 : day s4 = d).
  { rewrite Hd4. cbn [day with_phase]. rewrite Hd3. exact D2. }
  set (s5 := match find is_vote_result (rev (events s4)) with
             | Some vote_result_event =>
                 run_vote_result (with_phase s4 DAY_VOTE_RESULT)
                   vote_result_event
             | None => s4
             end).
  assert (E5 : evolves state s5 /\ day s5 = d).
  { subst s5. destruct (find is_vote_result (rev (events s4))) as [ev|];
      [|auto].
    destruct (run_vote_result_step (with_phase s4 DAY_VOTE_RESULT) ev)
      as [Hd5 [_ He5]].
    split; [|now rewrite Hd5].
    apply (evolves_trans _ s4); [exact E4|].
    apply (evolves_trans _ (with_phase s4 DAY_VOTE_RESULT)); [|exact He5].
    apply evolves_same_players; [reflexivity|].
    exists []. simpl. now rewrite app_nil_r. }
  destruct E5 as [E5 D5].
  destruct (check_victory s5) as [e|] eqn:Hv5.
  { intros H. injection H as <- <-. exists s5. auto. }
  rewrite reflect_on_returns. cbn [bind]. intros H.
  exists s5. auto.
Qed.

Lemma game_days_facts (remaining : nat) (d : Z) (state final : GameState)
  (ending : GameEvent) :
  game_days self tb str_hash rounds tie_breaker max_days remaining d state = Ok (final, ending) ->
  evolves state final
  /\ ((check_victory final = Some ending
       /\ (d <= day final < d + Z.of_nat remaining)%Z)
      \/ (ending = draw max_days
          /\ ((remaining = 0%nat /\ final = state)
              \/ (check_victory final = None
                  /\ day final = (d + Z.of_nat remaining - 1)%Z)))).
Proof.
  revert d state. induction remaining as [|remaining IH]; intros d state H.
  - cbn [game_days] in H. injection H as <- <-.
    split; [apply evolves_refl|]. right. auto.
  - destruct (game_day_step remaining d state final ending H)
      as [s [Es [Ds [[Hv ->]|[Hv Hnext]]]]].
    + split; [exact Es|]. left. split; [exact Hv | lia].
    + destruct (IH _ _ Hnext) as [Ef Hcase].
      split; [exact (evolves_trans _ _ _ Es Ef)|].
      destruct Hcase as [[Hv' Hday]|[He [[Hz ->]|[Hv' Hday]]]].
      * left. split; [exact Hv' | lia].
      * right. split; [exact He|]. right. split; [exact Hv | subst; lia].
      * right. split; [exact He|]. right. split; [exact Hv' | lia].
Qed.

End SessionGame.

(** X21 -- A session game keeps its table.  Whatever the agents answer,
    when the game loop of a session returns, the state it has reached
    has the seats it started with -- same ids, names, roles, teams, in
    the same order -- no dead player has come back to life, and its log
    is the log it started with followed by new events.  The end it
    returns is the victory [check_victory] finds in that state, on a day
    between 1 and [max_days]; or it is the draw, and then no day was
    played at all or the last day, [max_days], ended without a winner. *)
Theorem session_game_keeps_the_table :
  forall (self : Moderator) (tb : Table) (str_hash : string -> Z)
         (rounds : Z) (tie_breaker : string) (max_days : Z)
         (state final : GameState) (ending : GameEvent),
    _run_game_loop self tb str_hash rounds tie_breaker max_days state
    = Ok (final, ending) ->
    evolves state final
    /\ ((check_victory final = Some ending
         /\ (1 <= day final <= max_days)%Z)
        \/ (ending = draw max_days
            /\ (((max_days <= 0)%Z /\ final = state)
                \/ (check_victory final = None
                    /\ day final = max_days)))).
Proof.
  intros self tb str_hash rounds tie_breaker max_days state final ending H.
  unfold _run_game_loop in H.
  destruct (game_days_facts self tb str_hash rounds tie_breaker max_days
              _ _ _ _ _ H) as [He Hcase].
  split; [exact He|].
  destruct Hcase as [[Hv Hday]|[Hd [[Hz ->]|[Hv Hday]]]].
  - left. split; [exact Hv | lia].
  - right. split; [exact Hd|]. left. split; [lia | reflexivity].
  - right. split; [exact Hd|].
    destruct (Z.to_nat max_days) eqn:Hn.
    + left. split; [lia|].
      unfold game_days in H. injection H as <- _. reflexivity.
    + right. split; [exact Hv | lia].
Qed.

Lemma session_game_keeps_the_table_witness :
  exists final ending,
    _run_game_loop pack_moderator pack_table hash0 2 "random" 3 pack_state
    = Ok (final, ending)
    /\ evolves pack_state final.
Proof.
  destruct (_run_game_loop pack_moderator pack_table hash0 2 "random" 3
              pack_state) as [[final ending]|e] eqn:Hrun.
  - exists final, ending. split; [reflexivity|].
    exact (proj1 (session_game_keeps_the_table pack_moderator pack_table
                    hash0 2 "random" 3 pack_state final ending Hrun)).
  - exfalso. vm_compute in Hrun. discriminate Hrun.
Defined.

Section SessionReturns.

Variable self : Moderator.
Variable tb : Table.

Lemma table_ready_players (s s' : GameState) :
  players s' = players s ->
  table_ready self tb s -> table_ready self tb s'.
Proof.
  unfold table_ready, get_alive_players. intros ->. auto.
Qed.

Lemma table_ready_evolves (s s' : GameState) :
  evolves s s' -> table_ready self tb s -> table_ready self tb s'.
Proof.
  intros [Hseats _] [Hreg [Hkb Hnd]]. split; [|split; [exact Hkb|]].
  - apply Forall_forall. intros q Hq.
    destruct (seats_alive _ _ q Hseats Hq) as [p [Hp [_ [_ [Hrole _]]]]].
    rewrite Forall_forall in Hreg. rewrite Hrole. now apply Hreg.
  - now rewrite (seats_ids _ _ Hseats).
Qed.

(** After a night at a ready table, every recorded actor has a registered
    role: the resolver will not raise. *)
Lemma night_registered (s s1 : GameState) :
  table_ready self tb s -> run_night self tb s = Ok s1 ->
  roles_registered (with_phase s1 DAWN) (role_registry self) = true.
Proof.
  intros [_ [_ Hnd]] Hrun.
  destruct (run_night_parts self tb s s1 Hrun)
    as [s0 [msgs [chat [_ [_ [Hpl [Hna [_ [_ [_ [_ Hfold]]]]]]]]]]].
  destruct (night_fold_facts self tb msgs _ _ _ Hfold)
    as [_ [_ [Hpl' [_ [_ [_ [_ [Hget _]]]]]]]].
  unfold roles_registered, roles_registered_in.
  cbn [night_actions with_phase]. apply forallb_forall.
  intros [pid a] Hin. cbn [fst snd].
  destruct a as [| | |actor md ab target|]; try reflexivity.
  unfold get_player. cbn [players with_phase].
  destruct (find_player (players s1) pid) as [p|] eqn:Hp; [|reflexivity].
  assert (Hkey : In pid (dict_keys (night_actions s1)))
    by (apply in_map_iff; now exists (pid, UseAbilityAction actor md ab target)).
  apply dict_get_key in Hkey. destruct Hkey as [a' Ha'].
  destruct (Hget pid a' Ha') as [Hold|[_ [[it [Hit [Hid Hab]]] _]]].
  { rewrite Hna in Hold. discriminate. }
  apply enumerate_In in Hit. unfold get_alive_players in Hit.
  apply filter_In in Hit. destruct Hit as [Hit _].
  rewrite Hpl in Hit. rewrite <- Hpl, <- Hpl' in Hnd.
  rewrite <- Hpl, <- Hpl' in Hit.
  pose proof (find_player_NoDup _ _ Hnd Hit) as Hfind.
  rewrite Hid, Hp in Hfind. injection Hfind as ->.
  unfold has_night_ability in Hab.
  destruct (dict_get (role (snd it)) (role_registry self));
    [reflexivity | discriminate].
Qed.

Lemma run_dawn_returns (reg : RoleRegistry) (h : string -> Z) (rnd : nat)
  (s : GameState) :
  roles_registered s reg = true -> exists s', run_dawn reg h rnd s = Ok s'.
Proof.
  intros Hreg. unfold run_dawn.
  destruct (proj2 (resolve_night_returns s reg h rnd) Hreg) as [r Hr].
  rewrite Hr. cbn [bind]. now eexists.
Qed.

Lemma game_days_returns (str_hash : string -> Z) (rounds : Z)
  (tie_breaker : string) (max_days : Z) (remaining : nat) (d : Z)
  (state : GameState) :
  table_ready self tb state ->
  exists final ending,
    game_days self tb str_hash rounds tie_breaker max_days remaining d state
    = Ok (final, ending).
Proof.
  revert d state. induction remaining as [|remaining IH];
    intros d state Hready.
  - simpl. now eexists _, _.
  - cbn [game_days].
    set (s0 := with_phase (with_day state d) NIGHT).
    assert (R0 : table_ready self tb s0)
      by (apply (table_ready_players state); [reflexivity | exact Hready]).
    destruct (run_night_returns self tb s0 R0) as [s1 Hnight].
    rewrite Hnight. cbn [bind].
    destruct (run_night_step self tb s0 s1 Hnight) as [_ [_ [Hpl1 _]]].
    destruct (run_dawn_returns (role_registry self) str_hash
                (dawn_draw tb d) _ (night_registered s0 s1 R0 Hnight))
      as [s2 Hdawn].
    rewrite Hdawn. cbn [bind].
    destruct (run_dawn_step _ _ _ _ s2 Hdawn) as [_ [_ He2]].
    assert (R2 : table_ready self tb s2).
    { apply (table_ready_evolves _ _ He2).
      apply (table_ready_players s0); [exact Hpl1 | exact R0]. }
    destruct (check_victory s2); [now eexists _, _|].
    rewrite reflect_on_returns. cbn [bind].
    assert (R2' : table_ready self tb (with_phase s2 DAY_DISCUSSION))
      by (apply (table_ready_players s2); [reflexivity | exact R2]).
    destruct (run_discussion_returns self tb rounds _ R2') as [s3 Hdisc].
    rewrite Hdisc. cbn [bind].
    destruct (run_discussion_step self tb rounds _ s3 Hdisc)
      as [_ [_ [Hpl3 _]]].
    assert (R3 : table_ready self tb (with_phase s3 DAY_VOTE))
      by (apply (table_ready_players s2); [exact Hpl3 | exact R2]).
    destruct (run_vote_returns self tb tie_breaker _ R3) as [s4 Hvote].
    rewrite Hvote. cbn [bind].
    destruct (run_vote_step self tb tie_breaker _ s4 Hvote)
      as [_ [_ [Hpl4 _]]].
    assert (R4 : table_ready self tb s4)
      by (apply (table_ready_players (with_phase s3 DAY_VOTE));
          [exact Hpl4 | exact R3]).
    set (s5 := match find is_vote_result (rev (events s4)) with
               | Some vote_result_event =>
                   run_vote_result (with_phase s4 DAY_VOTE_RESULT)
                     vote_result_event
               | None => s4
               end).
    assert (R5 : table_ready self tb s5).
    { subst s5. destruct (find is_vote_result (rev (events s4))) as [ev|];
        [|exact R4].
      destruct (run_vote_result_step (with_phase s4 DAY_VOTE_RESULT) ev)
        as [_ [_ He5]].
      apply (table_ready_evolves _ _ He5).
      apply (table_ready_players s4); [reflexivity | exact R4]. }
    destruct (check_victory s5); [now eexists _, _|].
    rewrite reflect_on_returns. cbn [bind]. now apply IH.
Qed.

End SessionReturns.

(** X22 -- A session game ends.  When every living player has a
    registered role, every agent has a knowledge base and no two players
    share an id, the game loop of a session returns an end, whatever the
    agents answer or raise and whatever is drawn: no phase of no day
    raises, and the loop stops after [max_days] days at the latest. *)
Theorem session_game_ends :
  forall (self : Moderator) (tb : Table) (str_hash : string -> Z)
         (rounds : Z) (tie_breaker : string) (max_days : Z)
         (state : GameState),
    table_ready self tb state ->
    exists final ending,
      _run_game_loop self tb str_hash rounds tie_breaker max_days state
      = Ok (final, ending).
Proof.
  intros self tb str_hash rounds tie_breaker max_days state Hready.
  unfold _run_game_loop. now apply game_days_returns.
Qed.

Lemma session_game_ends_witness :
  table_ready pack_moderator pack_table pack_state
  /\ exists final ending,
       _run_game_loop pack_moderator pack_table hash0 2 "random" 3 pack_state
       = Ok (final, ending).
Proof.
  assert (Hready : table_ready pack_moderator pack_table pack_state).
  { split; [|split].
    - repeat constructor; discriminate.
    - intros pid H. exact H.
    - simpl. repeat constructor; simpl; intuition discriminate. }
  split; [exact Hready|].
  exact (session_game_ends pack_moderator pack_table hash0 2 "random" 3
           pack_state Hready).
Defined.

Section SilentGame.

Variable self : Moderator.
Variable tb : Table.
Variable str_hash : string -> Z.
Variable rounds : Z.
Variable tie_breaker : string.
Variable max_days : Z.

Lemma dict_In_get {V : Type} (d : dict V) (k : string) (v : V) :
  NoDup (dict_keys d) -> In (k, v) d -> dict_get k d = Some v.
Proof.
  unfold dict_keys. induction d as [|[k' v'] d IH]; simpl; [contradiction|].
  intros Hnd Hin. inversion Hnd as [|? ? Hnotin Hnd']; subst.
  destruct Hin as [E|Hin].
  - injection E as -> ->. now rewrite String.eqb_refl.
  - destruct (String.eqb_spec k' k) as [->|_]; [|now apply IH].
    exfalso. apply Hnotin. apply in_map_iff. now exists (k, v).
Qed.

Lemma check_victory_players (s s' : GameState) :
  players s = players s' -> day s = day s' -> phase s = phase s' ->
  check_victory s = check_victory s'.
Proof.
  unfold check_victory, alive_wolves, alive_villagers, get_alive_players,
    get_players_by_team.
  now intros -> -> ->.
Qed.

Lemma check_victory_decision (s s' : GameState) :
  players s = players s' -> check_victory s = None ->
  check_victory s' = None.
Proof.
  unfold check_victory, alive_wolves, alive_villagers, get_alive_players.
  intros ->.
  destruct (filter (fun p => team p =? "werewolf")
              (filter is_alive (players s'))); [discriminate|].
  now destruct (_ <=? _)%nat.
Qed.

Lemma check_victory_is_end (s : GameState) (e : GameEvent) :
  check_victory s = Some e -> is_elimination e = false.
Proof.
  unfold check_victory. destruct (alive_wolves s).
  - intros H. now injection H as <-.
  - destruct (_ <=? _)%nat; [|discriminate].
    intros H. now injection H as <-.
Qed.

(** Without a tool factory the night records no ability and nobody
    speaks. *)
Lemma silent_night_step (s s1 : GameState) :
  run_night self (without_tool_factory tb) s = Ok s1 ->
  day s1 = day s /\ phase s1 = phase s /\ players s1 = players s
  /\ events s1 = events s
  /\ forall st,
       forallb (fun entry => negb (acts_at_night st entry))
         (night_actions s1) = true.
Proof.
  intros Hrun.
  destruct (run_night_parts self (without_tool_factory tb) s s1 Hrun)
    as [s0 [msgs [chat [Hd [Hp [Hpl [Hna [Hev [_ [_ [Hoff Hfold]]]]]]]]]]].
  destruct (night_fold_facts self (without_tool_factory tb) msgs _ _ _ Hfold)
    as [Hd' [Hp' [Hpl' [Hev' [_ [_ [Hnd [Hget _]]]]]]]].
  rewrite (Hoff (or_intror (or_intror eq_refl))), app_nil_r in Hev.
  split; [congruence|]. split; [congruence|]. split; [congruence|].
  split; [congruence|].
  intros st. apply forallb_forall. intros [pid a] Hin.
  rewrite Hna in Hnd, Hget.
  pose proof (dict_In_get _ pid a (Hnd (NoDup_nil _)) Hin) as Ha.
  destruct (Hget pid a Ha) as [Hold|[_ [_ [_ Hno]]]]; [discriminate|].
  rewrite (Hno eq_refl). reflexivity.
Qed.

Lemma silent_dawn_step (rnd : nat) (s s2 : GameState) :
  forallb (fun entry => negb (acts_at_night s entry)) (night_actions s)
  = true ->
  run_dawn (role_registry self) str_hash rnd s = Ok s2 ->
  s2 = with_event s (NightResultEvent (day s) DAWN [] [] [] []).
Proof.
  intros Hidle. unfold run_dawn, resolve_night.
  rewrite (build_night_actions_idle s (role_registry self) _ Hidle).
  simpl. intros H. now injection H as <-.
Qed.

Lemma silent_discussion_step (s s3 : GameState) :
  run_discussion self (without_tool_factory tb) rounds s = Ok s3 ->
  day s3 = day s /\ phase s3 = phase s /\ players s3 = players s
  /\ events s3 = events s.
Proof.
  unfold run_discussion.
  destruct (foldM (discussion_round self (without_tool_factory tb))
              (seq 0 (Z.to_nat rounds)) (s, [])) as [acc|] eqn:Hfold;
    [|discriminate].
  cbn [bind]. intros H. injection H as <-.
  destruct (discussion_rounds_facts self (without_tool_factory tb) s _ (s, []) acc
              eq_refl eq_refl Hfold)
    as [Hd [Hp [Hpl [_ [speeches [Hev [_ [_ Hoff]]]]]]]].
  cbn [fst] in *. rewrite (Hoff eq_refl), app_nil_r in Hev. auto.
Qed.

Lemma silent_vote_step (s s4 : GameState) :
  run_vote self (without_tool_factory tb) tie_breaker s = Ok s4 ->
  exists votes,
    s4 = with_event (fold_left with_event (vote_events s votes) s)
           (VoteResultEvent (day s) DAY_VOTE [] [] None false).
Proof.
  unfold run_vote.
  destruct (collect_votes self (without_tool_factory tb) s) as [votes|] eqn:Hvotes;
    [|discriminate].
  cbn [bind]. unfold collect_votes in Hvotes.
  destruct (vote_fold_facts self (without_tool_factory tb) s _ _ _ Hvotes)
    as [_ [_ Hnone]].
  specialize (Hnone eq_refl (Forall_nil _)).
  unfold run_vote_tally.
  rewrite (vote_tally_abstentions votes Hnone). cbn [decide_vote bind fst snd].
  rewrite fold_with_event. cbn [day].
  intros H. injection H as <-. exists votes. now rewrite fold_with_event.
Qed.

Lemma vote_events_no_elimination (s : GameState)
  (votes : dict (option string)) :
  elimination_events (vote_events s votes) = [].
Proof.
  unfold vote_events, elimination_events.
  induction votes as [|v votes IH]; [reflexivity | exact IH].
Qed.

Lemma silent_days (remaining : nat) (d : Z) (s final : GameState)
  (ending : GameEvent) :
  run_days (run_night self (without_tool_factory tb))
    (run_discussion self (without_tool_factory tb) rounds)
    (run_vote self (without_tool_factory tb) tie_breaker)
    (fun day s =>
       run_dawn (role_registry self) str_hash (dawn_draw tb day) s)
    max_days remaining d s = Ok (final, ending) ->
  elimination_events (events s) = [] ->
  players final = players s
  /\ elimination_events (events final) = []
  /\ ((remaining <> 0%nat
       /\ check_victory (at_first_dawn d s) = Some ending)
      \/ (ending
          = GameEndEvent (d + Z.of_nat remaining)
              (match remaining with
               | O => phase s
               | S _ => DAY_VOTE_RESULT
               end) [] "werewolf"
              (map player_id (get_players_by_team s "werewolf"))
              ("Game exceeded the maximum of " ++ str_of_Z max_days
               ++ " days.")
          /\ (remaining = 0%nat
              \/ check_victory (at_first_dawn d s) = None))).
Proof.
  revert d s. induction remaining as [|remaining IH]; intros d s H Hlog.
  - cbn [run_days] in H. injection H as <- <-.
    split; [reflexivity|]. split.
    + match goal with
      | |- context [_end_game s ?e] =>
          destruct (_end_game_events s e) as [Hev _]
      end.
      rewrite Hev, elimination_events_app, Hlog. reflexivity.
    + right. split; [|now left]. now rewrite Z.add_0_r.
  - cbn [run_days] in H.
    set (s0 := _transition (with_day s (d + 1)) NIGHT) in H.
    destruct (run_night self (without_tool_factory tb) s0) as [s1|] eqn:Hnight;
      [|discriminate].
    cbn [bind] in H.
    destruct (silent_night_step s0 s1 Hnight)
      as [Hd1 [Hp1 [Hpl1 [Hev1 Hidle]]]].
    destruct (run_dawn (role_registry self) str_hash (dawn_draw tb (d + 1))
                (_transition s1 DAWN)) as [s2|] eqn:Hdawn; [|discriminate].
    cbn [bind] in H.
    pose proof (silent_dawn_step (dawn_draw tb (d + 1)) (_transition s1 DAWN)
                  s2 (Hidle (_transition s1 DAWN)) Hdawn) as Hs2.
    assert (Hpl2 : players s2 = players s) by (subst s2; exact Hpl1).
    assert (Hday2 : day s2 = (d + 1)%Z)
      by (subst s2; cbn [day with_event _transition with_phase]; exact Hd1).
    assert (Hph2 : phase s2 = DAWN) by (subst s2; reflexivity).
    assert (Hlog2 : elimination_events (events s2) = []).
    { subst s2. cbn [events with_event _transition with_phase].
      rewrite Hev1. subst s0.
      cbn [events with_event _transition with_phase with_day].
      rewrite !elimination_events_app, Hlog. reflexivity. }
    assert (Hsame : check_victory s2 = check_victory (at_first_dawn d s)).
    { apply check_victory_players; assumption. }
    destruct (check_victory s2) as [e|] eqn:Hv2.
    { injection H as <- <-. split; [exact Hpl2|]. split.
      - destruct (_end_game_events s2 e) as [Hev _].
        rewrite Hev, elimination_events_app, Hlog2. simpl.
        now rewrite (check_victory_is_end s2 e Hv2).
      - left. split; [discriminate | now symmetry]. }
    destruct (run_discussion self (without_tool_factory tb) rounds
                (_transition s2 DAY_DISCUSSION)) as [s3|] eqn:Hdisc;
      [|discriminate].
    cbn [bind] in H.
    destruct (silent_discussion_step _ s3 Hdisc) as [Hd3 [_ [Hpl3 Hev3]]].
    cbn [day players events _transition with_event with_phase]
      in Hd3, Hpl3, Hev3.
    destruct (run_vote self (without_tool_factory tb) tie_breaker
                (_transition s3 DAY_VOTE)) as [s4|] eqn:Hvote;
      [|discriminate].
    cbn [bind] in H.
    destruct (silent_vote_step _ s4 Hvote) as [votes Hs4].
    set (vr := VoteResultEvent (day (_transition s3 DAY_VOTE)) DAY_VOTE []
                 [] None false) in Hs4.
    assert (Hlast : _last_vote_result (_transition s4 DAY_VOTE_RESULT)
                    = Some vr).
    { rewrite Hs4. apply last_vote_result_snoc; reflexivity. }
    rewrite Hlast in H. cbn [run_vote_result vr] in H.
    set (s5 := _transition s4 DAY_VOTE_RESULT) in H.
    assert (Hpl5 : players s5 = players s).
    { subst s5 s4. rewrite fold_with_event.
      cbn [players with_event _transition with_phase]. congruence. }
    assert (Hlog5 : elimination_events (events s5) = []).
    { subst s5 s4. rewrite fold_with_event.
      cbn [events with_event _transition with_phase].
      rewrite Hev3.
      rewrite !elimination_events_app, Hlog2, vote_events_no_elimination.
      reflexivity. }
    assert (Hv5 : check_victory s5 = None).
    { apply (check_victory_decision s2); [congruence | exact Hv2]. }
    rewrite Hv5 in H.
    destruct (IH _ _ H Hlog5) as [Hplf [Hlogf Hcase]].
    split; [congruence|]. split; [exact Hlogf|].
    right. destruct Hcase as [[_ Hwin]|[Hend _]].
    + exfalso.
      rewrite (check_victory_decision s2 (at_first_dawn (d + 1) s5)) in Hwin;
        [discriminate | | exact Hv2].
      cbn [players at_first_dawn]. congruence.
    + split; [|right; now rewrite <- Hsame].
      rewrite Hend. f_equal.
      * lia.
      * now destruct remaining.
      * unfold get_players_by_team. now rewrite Hpl5.
Qed.

End SilentGame.

(** X23 -- The game of [Game.run] is silent.  [Game.run] builds its
    moderator without a tool factory, so no agent is ever asked to act:
    whenever it returns, the players are those of the setup, all of them
    alive, and the log holds no elimination.  The end it declares is the
    victory the seating itself satisfies, found at the first dawn, or,
    when the seating satisfies none or no day is played, the default win
    of the werewolves after [max_days] days. *)
Theorem Game_run_eliminates_nobody :
  forall (self : Moderator) (tb : Table) (str_hash : string -> Z)
         (roles : list (string * nat)) (rounds : Z) (tie_breaker : string)
         (max_days : Z) (final : GameState) (ending : GameEvent),
    Game_run self tb str_hash roles rounds tie_breaker max_days
    = Ok (final, ending) ->
    exists setup,
      _setup_players (role_registry self) roles (agents tb) = Ok setup
      /\ players final = players setup
      /\ Forall (fun p => is_alive p = true) (players final)
      /\ elimination_events (events final) = []
      /\ (((0 < max_days)%Z
           /\ check_victory (mkGameState 1 DAWN (players setup) [] [])
              = Some ending)
          \/ (ending
              = days_used_up max_days
                  (with_phase setup
                     (if (0 <? max_days)%Z then DAY_VOTE_RESULT else SETUP))
              /\ ((max_days <= 0)%Z
                  \/ check_victory (mkGameState 1 DAWN (players setup) [] [])
                     = None))).
Proof.
  intros self tb str_hash roles rounds tie_breaker max_days final ending.
  unfold Game_run.
  destruct (_setup_players (role_registry self) roles (agents tb))
    as [setup|] eqn:Hsetup; [|discriminate].
  cbn [bind]. unfold run. intros Hrun.
  exists setup. split; [reflexivity|].
  assert (Hlog : events setup = [] /\ phase setup = SETUP
                 /\ Forall (fun p => is_alive p = true) (players setup)).
  { unfold _setup_players in Hsetup.
    destruct (config_role_list (role_registry self) roles) as [rl|];
      [|discriminate].
    cbn [bind] in Hsetup. injection Hsetup as <-.
    split; [reflexivity|]. split; [reflexivity|].
    apply Forall_forall. intros p Hp. apply in_map_iff in Hp.
    destruct Hp as [[i x] [<- _]]. simpl.
    now destruct (nth i rl ("villager", "village")). }
  destruct Hlog as [Hev [Hph Halive]].
  destruct (silent_days self tb str_hash rounds tie_breaker max_days
              _ _ _ _ _ Hrun) as [Hpl [Hlogf Hcase]].
  { cbn [events with_event]. now rewrite Hev. }
  cbn [players with_event] in Hpl.
  split; [exact Hpl|]. split; [now rewrite Hpl|]. split; [exact Hlogf|].
  destruct Hcase as [[Hpos Hwin]|[Hend Hnone]].
  - left. split; [lia | exact Hwin].
  - right. split.
    + rewrite Hend. unfold days_used_up. f_equal.
      * lia.
      * destruct (Z.to_nat max_days) eqn:Hn.
        -- replace (0 <? max_days)%Z with false
             by (symmetry; apply Z.ltb_ge; lia).
           exact Hph.
        -- replace (0 <? max_days)%Z with true
             by (symmetry; apply Z.ltb_lt; lia).
           reflexivity.
    + destruct Hnone as [Hz|Hnone]; [left; lia | right; exact Hnone].
Qed.

Lemma Game_run_eliminates_nobody_witness :
  exists final ending,
    Game_run pack_moderator pack_table hash0 small_config 2 "random" 2
    = Ok (final, ending)
    /\ Forall (fun p => is_alive p = true) (players final).
Proof.
  destruct (Game_run pack_moderator pack_table hash0 small_config 2 "random"
              2) as [[final ending]|e] eqn:Hrun.
  - exists final, ending. split; [reflexivity|].
    destruct (Game_run_eliminates_nobody pack_moderator pack_table hash0
                small_config 2 "random" 2 final ending Hrun)
      as [setup [_ [_ [Halive _]]]].
    exact Halive.
  - exfalso. vm_compute in Hrun. discriminate Hrun.
Defined.

Section Seating.

Lemma to_int_nonnil (z : Z) :
  Z.to_int z <> Decimal.Pos Decimal.Nil
  /\ Z.to_int z <> Decimal.Neg Decimal.Nil.
Proof.
  destruct z; simpl; split; try discriminate; intros H; injection H as H;
    now apply DecimalPos.Unsigned.to_uint_nonnil in H.
Qed.

(** [str] tells the integers apart. *)
Lemma str_of_Z_inj (a b : Z) : str_of_Z a = str_of_Z b -> a = b.
Proof.
  unfold str_of_Z. intros H.
  apply (f_equal NilZero.int_of_string) in H.
  destruct (to_int_nonnil a), (to_int_nonnil b).
  rewrite !NilZero.isi in H by assumption.
  injection H as H. apply (f_equal Z.of_int) in H.
  now rewrite !DecimalZ.of_to in H.
Qed.

Lemma assign_slots_facts (reg : RoleRegistry) (pairs : list (string * string))
  (i : nat) (slots : list PlayerSlot) :
  assign_slots reg i pairs = Ok slots ->
  map player_id slots
  = map (fun k => ("p" ++ str_of_Z (Z.of_nat (k + 1)))%string)
      (seq i (List.length pairs))
  /\ map role slots = map fst pairs
  /\ map name slots = map snd pairs
  /\ Forall (fun p => is_alive p = true /\ metadata p = []
                      /\ exists r, dict_get (role p) reg = Some r
                                   /\ team p = role_team r) slots.
Proof.
  revert i slots. induction pairs as [|[rn pn] pairs IH]; intros i slots;
    simpl.
  - intros H. injection H as <-. repeat split. constructor.
  - unfold RoleRegistry_get.
    destruct (dict_get rn reg) as [r|] eqn:Hr; [|discriminate]. cbn [bind].
    destruct (assign_slots reg (S i) pairs) as [rest|] eqn:Hrest;
      [|discriminate].
    cbn [bind]. intros H. injection H as <-.
    destruct (IH _ _ Hrest) as [Hids [Hroles [Hnames Hall]]].
    cbn [map player_id role name]. rewrite Hids, Hroles, Hnames.
    repeat split. constructor; [|exact Hall].
    cbn [is_alive metadata role team]. repeat split. now exists r.
Qed.

Lemma assign_slots_raises (reg : RoleRegistry)
  (pairs : list (string * string)) (i : nat) (e : exn) :
  assign_slots reg i pairs = Raise e ->
  exists rn, e = KeyError rn /\ In rn (map fst pairs)
             /\ dict_get rn reg = None.
Proof.
  revert i. induction pairs as [|[rn pn] pairs IH]; intros i; simpl;
    [discriminate|].
  unfold RoleRegistry_get.
  destruct (dict_get rn reg) as [r|] eqn:Hr; cbn [bind].
  - destruct (assign_slots reg (S i) pairs) as [rest|e'] eqn:Hrest;
      cbn [bind]; [discriminate|].
    intros H. injection H as <-.
    destruct (IH _ Hrest) as [rn' [He [Hin Hnone]]]. exists rn'. auto.
  - intros H. injection H as <-. exists rn. auto.
Qed.

Lemma assign_slots_returns (reg : RoleRegistry)
  (pairs : list (string * string)) (i : nat) :
  (forall rn, In rn (map fst pairs) -> dict_get rn reg <> None) ->
  exists slots, assign_slots reg i pairs = Ok slots.
Proof.
  intros Hreg.
  destruct (assign_slots reg i pairs) as [slots|e] eqn:H; [now eexists|].
  destruct (assign_slots_raises reg pairs i e H) as [rn [_ [Hin Hnone]]].
  now apply Hreg in Hin.
Qed.

Lemma player_ids_distinct (i n : nat) :
  NoDup (map (fun k => ("p" ++ str_of_Z (Z.of_nat (k + 1)))%string)
           (seq i n)).
Proof.
  apply Finite.Injective_map_NoDup; [|apply seq_NoDup].
  intros a b H. injection H as H. apply str_of_Z_inj in H. lia.
Qed.

Lemma padded_roles_length (roles : list (string * nat)) (n : nat) :
  List.length (padded_roles roles n) = n.
Proof.
  unfold padded_roles. rewrite length_firstn, length_app, repeat_length.
  lia.
Qed.

Lemma padded_names_length (names : list string) (n : nat) :
  (n <= List.length (padded_names names n))%nat.
Proof.
  unfold padded_names. rewrite length_app, length_map, length_seq. lia.
Qed.

Lemma random_shuffle_perm (rng : Rng) (x : list string) :
  Permutation (fst (random_shuffle rng x)) x.
Proof.
  unfold random_shuffle. cbn [fst]. destruct x as [|a x]; [reflexivity|].
  apply shuffle_loop_perm. simpl. lia.
Qed.

Lemma map_fst_combine {A B : Type} (l : list A) (l' : list B) :
  (List.length l <= List.length l')%nat -> map fst (combine l l') = l.
Proof.
  revert l'. induction l as [|a l IH]; intros [|b l'] H; simpl in *;
    try reflexivity; try lia.
  rewrite IH by lia. reflexivity.
Qed.

Lemma map_snd_combine {A B : Type} (l : list A) (l' : list B) :
  map snd (combine l l') = firstn (List.length l) l'.
Proof.
  revert l'. induction l as [|a l IH]; intros [|b l']; simpl;
    try reflexivity.
  now rewrite IH.
Qed.

End Seating.

(** X24 -- The seating of a session.  [_assign_roles] either raises the
    [KeyError] of an assigned role the registry does not know, or returns
    exactly [num_players] living slots whose ids are p1, p2, ... and so
    distinct, whose names are the first names of the padded config, and
    whose roles are, in some order, the roles of the config padded with
    villagers and cut at [num_players]; each slot has the team of its
    registered role, and the role assignments map each id to its role. *)
Theorem session_seating :
  forall (reg : RoleRegistry) (roles : list (string * nat))
         (num_players : nat) (names : list string) (rng : Rng),
    match _assign_roles reg roles num_players names rng with
    | Ok (slots, role_assignments) =>
        List.length slots = num_players
        /\ map player_id slots
           = map (fun k => ("p" ++ str_of_Z (Z.of_nat (k + 1)))%string)
               (seq 0 num_players)
        /\ NoDup (map player_id slots)
        /\ map name slots = firstn num_players (padded_names names num_players)
        /\ Permutation (map role slots) (padded_roles roles num_players)
        /\ Forall (fun p => is_alive p = true /\ metadata p = []
                            /\ exists r, dict_get (role p) reg = Some r
                                         /\ team p = role_team r) slots
        /\ role_assignments = map (fun ps => (player_id ps, role ps)) slots
    | Raise e =>
        exists rn, e = KeyError rn
                   /\ In rn (padded_roles roles num_players)
                   /\ dict_get rn reg = None
    end.
Proof.
  intros reg roles n names rng. unfold _assign_roles.
  pose proof (random_shuffle_perm rng (padded_roles roles n)) as Hperm.
  set (shuffled := fst (random_shuffle rng (padded_roles roles n))) in *.
  assert (Hlen : List.length shuffled = n).
  { rewrite (Permutation_length Hperm). apply padded_roles_length. }
  assert (Hfst : map fst (combine shuffled (padded_names names n)) = shuffled).
  { apply map_fst_combine. rewrite Hlen. apply padded_names_length. }
  destruct (assign_slots reg 0 (combine shuffled (padded_names names n)))
    as [slots|e] eqn:Hslots; cbn [bind].
  - destruct (assign_slots_facts reg _ 0 slots Hslots)
      as [Hids [Hroles [Hnames Hall]]].
    assert (Hpairs : List.length (combine shuffled (padded_names names n)) = n).
    { rewrite length_combine, Hlen.
      pose proof (padded_names_length names n). lia. }
    rewrite Hpairs in Hids.
    split.
    { rewrite <- (length_map player_id), Hids, length_map, length_seq.
      reflexivity. }
    split; [exact Hids|].
    split; [rewrite Hids; apply player_ids_distinct|].
    split; [now rewrite Hnames, map_snd_combine, Hlen|].
    split; [now rewrite Hroles, Hfst|].
    split; [exact Hall | reflexivity].
  - destruct (assign_slots_raises reg _ 0 e Hslots) as [rn [He [Hin Hnone]]].
    exists rn. split; [exact He|]. split; [|exact Hnone].
    rewrite Hfst in Hin. now apply (Permutation_in _ Hperm).
Qed.

(** X25 -- A session plays to its end.  When the roles the config asks
    for, and the villager role if the config asks for fewer roles than
    players, are registered, [_assign_roles] seats the players, and the
    game loop started on that seating with an agent and a knowledge base
    for every seat returns an end, whatever the agents do: a session
    never fails for what its agents answer. *)
Theorem session_plays_to_its_end :
  forall (self : Moderator) (tb : Table) (str_hash : string -> Z)
         (roles : list (string * nat)) (num_players : nat)
         (names : list string) (rng : Rng) (rounds : Z)
         (tie_breaker : string) (max_days : Z),
    (forall rn, In rn (padded_roles roles num_players) ->
                dict_get rn (role_registry self) <> None) ->
    exists slots role_assignments,
      _assign_roles (role_registry self) roles num_players names rng
      = Ok (slots, role_assignments)
      /\ (agents tb = map player_id slots ->
          knowledge_bases tb = map player_id slots ->
          exists final ending,
            _run_game_loop self tb str_hash rounds tie_breaker max_days
              (session_start slots) = Ok (final, ending)
            /\ evolves (session_start slots) final).
Proof.
  intros self tb str_hash roles n names rng rounds tie_breaker max_days Hreg.
  unfold _assign_roles.
  pose proof (random_shuffle_perm rng (padded_roles roles n)) as Hperm.
  set (shuffled := fst (random_shuffle rng (padded_roles roles n))) in *.
  assert (Hlen : List.length shuffled = n).
  { rewrite (Permutation_length Hperm). apply padded_roles_length. }
  assert (Hfst : map fst (combine shuffled (padded_names names n)) = shuffled).
  { apply map_fst_combine. rewrite Hlen. apply padded_names_length. }
  destruct (assign_slots_returns (role_registry self)
              (combine shuffled (padded_names names n)) 0) as [slots Hslots].
  { intros rn Hin. rewrite Hfst in Hin. apply Hreg.
    now apply (Permutation_in _ Hperm). }
  rewrite Hslots. cbn [bind]. eexists _, _. split; [reflexivity|].
  intros Hag Hkb.
  destruct (assign_slots_facts _ _ 0 slots Hslots) as [Hids [_ [_ Hall]]].
  assert (Hready : table_ready self tb (session_start slots)).
  { split; [|split].
    - apply Forall_forall. intros p Hp. unfold get_alive_players in Hp.
      apply filter_In in Hp. destruct Hp as [Hp _].
      rewrite Forall_forall in Hall.
      destruct (Hall p Hp) as [_ [_ [r [Hr _]]]]. cbn [players session_start] in *.
      congruence.
    - intros pid. now rewrite Hag, Hkb.
    - cbn [players session_start]. rewrite Hids. apply player_ids_distinct. }
  destruct (game_days_returns self tb str_hash rounds tie_breaker max_days
              (Z.to_nat max_days) 1 _ Hready) as [final [ending Hrun]].
  exists final, ending. split; [exact Hrun|].
  exact (proj1 (game_days_facts self tb str_hash rounds tie_breaker max_days
                  _ _ _ _ _ Hrun)).
Qed.

Lemma session_plays_to_its_end_witness :
  exists slots role_assignments,
    _assign_roles classic_registry small_config 4 ["Ann"; "Bob"] rng0
    = Ok (slots, role_assignments)
    /\ List.length slots = 4%nat.
Proof.
  destruct (session_plays_to_its_end pack_moderator pack_table hash0
              small_config 4 ["Ann"; "Bob"] rng0 2 "random" 3)
    as [slots [assignments [Hassign _]]].
  - intros rn Hin. vm_compute in Hin.
    destruct Hin as [<-|[<-|[<-|[<-|[]]]]]; discriminate.
  - exists slots, assignments. split; [exact Hassign|].
    vm_compute in Hassign. injection Hassign as <- _. reflexivity.
Defined.

(* ================================================================== *)
(** * The action tools                                                  *)
(* ================================================================== *)

Section HandlerFacts.

Variable _extract_from_json : string -> string.
Variable strip : string -> string.
Variable strip_quotes : string -> string.
Variable lower : string -> string.
Variable self : ToolFactory.

Lemma first_id_known (test : string -> bool) (pid : string) :
  first_id self test = Some pid -> In pid (dict_values (tf_name_to_id self)).
Proof.
  unfold first_id.
  destruct (find (fun kv => test (fst kv)) (tf_name_to_id self))
    as [[n q]|] eqn:Hfind; [|discriminate].
  intros H. injection H as <-. apply find_some in Hfind.
  destruct Hfind as [Hin _]. unfold dict_values.
  apply in_map_iff. now exists (n, q).
Qed.

(** A name resolves to a key of the id table or to a value of the name
    table, and to nothing else. *)
Lemma resolve_name_known (name_or_id pid : string) :
  _resolve_name _extract_from_json strip strip_quotes lower self name_or_id
  = Some pid ->
  In pid (dict_keys (tf_id_to_name self))
  \/ In pid (dict_values (tf_name_to_id self)).
Proof.
  unfold _resolve_name.
  destruct (mem _ (dict_keys (tf_id_to_name self))) eqn:Hmem.
  - intros H. injection H as <-. left. now apply mem_In.
  - destruct (first_id self _) as [q|] eqn:Hq.
    + intros H. injection H as <-. right.
      now apply (first_id_known _ _ Hq).
    + intros H. right. now apply (first_id_known _ _ H).
Qed.

End HandlerFacts.




(* ================================================================== *)
(** * The channel manager                                               *)
(* ================================================================== *)

Section Channels.

Lemma dm_name_is_dm (p1 p2 : string) (allowed : list Phase) (n : string) :
  channel_name (DirectMessageChannel p1 p2 allowed) = Ok n ->
  n <> "wolf" /\ n <> "public".
Proof.
  unfold channel_name. destruct (p1 =? p2); [discriminate|].
  destruct (p1 <=? p2)%string; intros H; injection H as <-;
    split; discriminate.
Qed.

(** Registering the direct channels leaves the two named channels as
    they are. *)
Lemma register_dm_keeps (channels channels' : dict Channel)
  (pairs : list (string * string)) (k : string) :
  k = "wolf" \/ k = "public" ->
  foldM register_dm pairs channels = Ok channels' ->
  dict_get k channels' = dict_get k channels.
Proof.
  intros Hk. revert channels. induction pairs as [|pr pairs IH];
    intros channels H.
  - simpl in H. now injection H as <-.
  - destruct (foldM_cons _ pr pairs _ _ H) as [c1 [H1 H2]].
    rewrite (IH _ H2). unfold register_dm in H1.
    destruct (channel_name _) as [n|] eqn:Hn; [|discriminate].
    cbn [bind] in H1. injection H1 as <-. rewrite dict_get_set.
    destruct (dm_name_is_dm _ _ _ _ Hn) as [Hw Hp].
    destruct (String.eqb_spec n k) as [E|_]; [|reflexivity].
    destruct Hk; congruence.
Qed.

Lemma dm_pairs_distinct (player_ids : list string) (pr : string * string) :
  NoDup player_ids -> In pr (dm_pairs player_ids) -> fst pr <> snd pr.
Proof.
  induction player_ids as [|p rest IH]; simpl; [contradiction|].
  intros Hnd Hin. inversion Hnd as [|? ? Hnotin Hnd']; subst.
  apply in_app_or in Hin. destruct Hin as [Hin|Hin]; [|now apply IH].
  apply in_map_iff in Hin. destruct Hin as [q [<- Hq]]. simpl.
  intros ->. contradiction.
Qed.

Lemma register_dm_raises (channels : dict Channel)
  (pairs : list (string * string)) (e : exn) :
  foldM register_dm pairs channels = Raise e ->
  e = IndexError /\ exists pr, In pr pairs /\ fst pr = snd pr.
Proof.
  revert channels. induction pairs as [|pr pairs IH]; intros channels;
    simpl; [discriminate|].
  unfold register_dm at 1. unfold channel_name.
  destruct (String.eqb_spec (fst pr) (snd pr)) as [E|Hne]; cbn [bind].
  - intros H. injection H as <-. split; [reflexivity|]. exists pr. auto.
  - destruct (fst pr <=? snd pr)%string; cbn [bind]; intros H;
      destruct (IH _ H) as [He [pr' [Hin Hpr']]];
      (split; [exact He|]); exists pr'; auto.
Qed.

Variable upper : string -> string.

Lemma deliver_channels (traffic : list Traffic) (m : ChannelManager) :
  _channels (fold_left (deliver upper) traffic m) = _channels m.
Proof.
  revert m. induction traffic as [|t traffic IH]; intros m; [reflexivity|].
  simpl. rewrite IH. destruct t as [msg|msg]; [|reflexivity].
  unfold deliver, send.
  destruct (dict_get (m_channel msg) (_channels m)); [|reflexivity].
  destruct (_phase_from_name upper (m_phase_name msg)); [|reflexivity].
  now destruct (negb _).
Qed.

End Channels.

(** X29 -- The wolf channel is for the wolves.  [create_channels] raises
    only an [IndexError], and only when direct messages are allowed and
    a player id occurs twice.  On the channels it creates, whatever is
    sent or broadcast afterwards: a message on the channel "wolf" is
    visible to a player only if the wolf chat is allowed and the player
    is one of the wolves; a message sent on it is accepted only from a
    wolf and for the phase NIGHT; and a message sent on the channel
    "public" is accepted only from a player and for the phase
    DAY_DISCUSSION. *)
Theorem wolf_channel_is_for_wolves :
  forall (upper : string -> string) (self : ChannelManager)
         (player_ids wolf_ids : list string)
         (allow_wolf_chat allow_dms : bool),
    match create_channels self player_ids wolf_ids allow_wolf_chat allow_dms
    with
    | Raise e =>
        e = IndexError /\ allow_dms = true /\ ~ NoDup player_ids
    | Ok manager =>
        forall (traffic : list Traffic),
          let later := fold_left (deliver upper) traffic manager in
          (forall pid ph msg,
              In msg (get_visible_messages later pid ph) ->
              m_channel msg = "wolf" ->
              allow_wolf_chat = true /\ In pid wolf_ids)
          /\ (forall msg,
                 fst (send upper later msg) = true ->
                 m_channel msg = "wolf" ->
                 allow_wolf_chat = true /\ In (m_sender_id msg) wolf_ids
                 /\ _phase_from_name upper (m_phase_name msg) = Some NIGHT)
          /\ (forall msg,
                 fst (send upper later msg) = true ->
                 m_channel msg = "public" ->
                 In (m_sender_id msg) player_ids
                 /\ _phase_from_name upper (m_phase_name msg)
                    = Some DAY_DISCUSSION)
    end.
Proof.
  intros upper self player_ids wolf_ids allow_wolf_chat allow_dms.
  unfold create_channels.
  set (named := if allow_wolf_chat
                then dict_set "wolf" (WolfChannel wolf_ids)
                       (dict_set "public" (PublicChannel player_ids) [])
                else dict_set "public" (PublicChannel player_ids) []).
  assert (Hwolf : dict_get "wolf" named
                  = if allow_wolf_chat then Some (WolfChannel wolf_ids)
                    else None)
    by (subst named; now destruct allow_wolf_chat).
  assert (Hpublic : dict_get "public" named
                    = Some (PublicChannel player_ids))
    by (subst named; now destruct allow_wolf_chat).
  destruct (if allow_dms then foldM register_dm (dm_pairs player_ids) named
            else Ok named) as [channels|e] eqn:Hreg; cbn [bind].
  2:{ destruct allow_dms; [|discriminate].
      destruct (register_dm_raises _ _ _ Hreg) as [He [pr [Hin Hpr]]].
      split; [exact He|]. split; [reflexivity|].
      intros Hnd. now apply (dm_pairs_distinct _ _ Hnd Hin). }
  assert (Hw : dict_get "wolf" channels
               = if allow_wolf_chat then Some (WolfChannel wolf_ids)
                 else None).
  { destruct allow_dms; [|injection Hreg as <-; exact Hwolf].
    now rewrite (register_dm_keeps _ _ _ "wolf" (or_introl eq_refl) Hreg). }
  assert (Hp : dict_get "public" channels = Some (PublicChannel player_ids)).
  { destruct allow_dms; [|injection Hreg as <-; exact Hpublic].
    now rewrite (register_dm_keeps _ _ _ "public" (or_intror eq_refl) Hreg). }
  clear Hreg Hwolf Hpublic named.
  intros traffic.
  remember (fold_left (deliver upper) traffic
              (mkChannelManager channels (_messages self))) as later
    eqn:Hlater.
  assert (Hch : _channels later = channels).
  { subst later. now rewrite deliver_channels. }
  clear Hlater.
  split; [|split].
  - intros pid ph msg Hin Hmsg. unfold get_visible_messages in Hin.
    apply filter_In in Hin. destruct Hin as [_ Hvis].
    unfold message_visible in Hvis.
    rewrite Hmsg, Hch, Hw in Hvis.
    destruct allow_wolf_chat; [|discriminate].
    split; [reflexivity|]. cbn [can_read channel_members] in Hvis.
    destruct (mem pid wolf_ids) eqn:Hmem; [now apply mem_In | discriminate].
  - intros msg Hsent Hmsg. unfold send in Hsent.
    rewrite Hmsg, Hch, Hw in Hsent.
    destruct allow_wolf_chat; [|discriminate].
    destruct (_phase_from_name upper (m_phase_name msg)) as [ph|];
      [|discriminate].
    cbn [can_send] in Hsent.
    destruct (mem (m_sender_id msg) wolf_ids) eqn:Hmem; [|discriminate].
    destruct ph; try discriminate.
    split; [reflexivity|]. split; [now apply mem_In | reflexivity].
  - intros msg Hsent Hmsg. unfold send in Hsent.
    rewrite Hmsg, Hch, Hp in Hsent.
    destruct (_phase_from_name upper (m_phase_name msg)) as [ph|];
      [|discriminate].
    cbn [can_send] in Hsent.
    destruct (mem (m_sender_id msg) player_ids) eqn:Hmem; [|discriminate].
    destruct ph; try discriminate.
    split; [now apply mem_In | reflexivity].
Qed.
